(** * Insomnia import: the collection converter of bruno-app

    A shallow embedding of the Insomnia importer
    (packages/bruno-app/src/components/RawFilePickerEditor/index.js, second
    document: [readFile], [parseGraphQL], [addSuffixToDuplicateName],
    [normalizeVariables], [transformInsomniaRequestItem],
    [parseInsomniaCollection] with its two local builders
    [createFolderStructure] and [createEnvironments], and [importCollection])
    and of the file picker of the first document ([RawFilePickerEditor]:
    the file name it shows and what it renders; its [browse] handler rests
    on [path.relative] and [slash], which the file does not hold).

    Conventions of the embedding.
    - A JavaScript string is a [string]: a sequence of code units below 256.
      Code units above that range (among them the exotic Unicode blanks and
      the line separators U+2028 and U+2029) are outside the model.
    - A number of a parsed document is an integer below 2^53 in magnitude,
      which the number type holds exactly and prints digit by digit.
      Fractions and the numbers beyond are outside the model.
    - A parsed object lists the properties of its own; where the code
      tells a [null] from an absent property, the model does too.
    - The data of an environment nests less deep than the call stack
      allows: the recursion of [flatten] itself always returns.
    - [uuid()] draws from a generator; the n-th draw is the number [n].
    - Exceptions, the identifier generator and the promise that
      [parseInsomniaCollection] returns live in an explicit [world] which is
      kept across a throw, as the script engine keeps it.
    - The call stack is finite: a builder that nests deeper than the stack
      budget throws a RangeError, which the [try] of
      [parseInsomniaCollection] catches like any other exception. *)

From Stdlib Require Import String Ascii List Bool Arith ZArith Lia.
From Stdlib Require Import DecimalString DecimalNat.
Import ListNotations.
Local Open Scope string_scope.
Local Open Scope list_scope.

Set Implicit Arguments.
Local Set Warnings "-register-all".

(** ** Strings *)

Module Str.

(** [`${n}`] for a non-negative integer. *)
Definition of_nat (n : nat) : string := NilZero.string_of_uint (Nat.to_uint n).

(** [`${z}`] for an integer. *)
Definition of_Z (z : Z) : string := NilZero.string_of_int (Z.to_int z).

Definition is_empty (s : string) : bool :=
  match s with EmptyString => true | _ => false end.

Fixpoint drop (n : nat) (s : string) : string :=
  match n, s with
  | S k, String _ s' => drop k s'
  | _, _ => s
  end.

Fixpoint rev_append (s acc : string) : string :=
  match s with
  | EmptyString => acc
  | String c s' => rev_append s' (String c acc)
  end.

(** [s.split(sep)[0]] for a one-character separator. *)
Fixpoint before_first (sep : ascii) (s : string) : string :=
  match s with
  | EmptyString => EmptyString
  | String c s' => if Ascii.eqb c sep then EmptyString else String c (before_first sep s')
  end.

(** The characters of a string, as [Object.keys]/indexing see them. *)
Fixpoint chars (s : string) : list string :=
  match s with
  | EmptyString => []
  | String c s' => String c EmptyString :: chars s'
  end.

Definition occurs (c : ascii) (s : string) : bool :=
  existsb (Ascii.eqb c) (list_ascii_of_string s).

(** [s.split(sep)] for a one-character separator: the pieces between the
    separators, of which there is at least one. *)
Fixpoint split (sep : ascii) (s : string) : list string :=
  match s with
  | EmptyString => [EmptyString]
  | String c s' =>
      if Ascii.eqb c sep then EmptyString :: split sep s'
      else match split sep s' with
           | piece :: pieces => String c piece :: pieces
           | [] => [String c EmptyString]
           end
  end.

End Str.

(** ** Regular expressions of the variable rewriter *)

Module Regex.

(** Line terminators: what [.] refuses. *)
Definition is_line_terminator (c : ascii) : bool :=
  match nat_of_ascii c with
  | 10 | 13 => true
  | _ => false
  end.

(** The class [\s]. *)
Definition is_space (c : ascii) : bool :=
  match nat_of_ascii c with
  | 9 | 10 | 11 | 12 | 13 | 32 | 160 => true
  | _ => false
  end.

(** [.*?}}] from the current position: the shortest run of characters
    other than line terminators that is followed by two closing braces.
    Returns the matched text and what follows it. *)
Fixpoint lazy_close (s : string) : option (string * string) :=
  match s with
  | EmptyString => None
  | String c s' =>
      if String.prefix "}}" s then Some ("}}", Str.drop 2 s)
      else if is_line_terminator c then None
      else match lazy_close s' with
           | Some (m, rest) => Some (String c m, rest)
           | None => None
           end
  end.

(** [regexVariable = /{{.*?}}/] anchored at the start of [s]. *)
Definition regexVariable_at (s : string) : option string :=
  if String.prefix "{{" s then
    match lazy_close (Str.drop 2 s) with
    | Some (m, _) => Some ("{{" ++ m)%string
    | None => None
    end
  else None.

(** [s.match(regexVariable)] with the [g] flag: every match, leftmost
    first, the search resuming where the previous match ended. [skip]
    counts the characters of the current match still to pass. *)
Fixpoint match_regexVariable_from (s : string) (skip : nat) : list string :=
  match s with
  | EmptyString => []
  | String _ s' =>
      match skip with
      | S k => match_regexVariable_from s' k
      | O =>
          match regexVariable_at s with
          | Some m => m :: match_regexVariable_from s' (String.length m - 1)
          | None => match_regexVariable_from s' 0
          end
      end
  end.

Definition match_regexVariable (s : string) : list string :=
  match_regexVariable_from s 0.

(** [s.replaceAll(regexToRemove, '')] with
    [regexToRemove = /(?:_\.|[\s\]]+)/g]. The first alternative is tried
    first at every position. *)
Fixpoint replaceAll_regexToRemove (s : string) : string :=
  match s with
  | EmptyString => EmptyString
  | String c s' =>
      let otherwise :=
        if is_space c || Ascii.eqb c "]" then replaceAll_regexToRemove s'
        else String c (replaceAll_regexToRemove s') in
      match s' with
      | String d rest =>
          if Ascii.eqb c "_" && Ascii.eqb d "." then replaceAll_regexToRemove rest
          else otherwise
      | EmptyString => otherwise
      end
  end.

(** [s.replaceAll(regexToUnderscore, '_')] with
    [regexToUnderscore = /[.\[]/g]. *)
Fixpoint replaceAll_regexToUnderscore (s : string) : string :=
  match s with
  | String c s' =>
      String (if Ascii.eqb c "." || Ascii.eqb c "[" then "_"%char else c)
             (replaceAll_regexToUnderscore s')
  | EmptyString => EmptyString
  end.

End Regex.

(** ** [String.prototype.replaceAll] with a string pattern *)

Module StringReplace.

(** GetSubstitution for a string pattern: no capture exists, so only
    [$$], [$&], [$`] and [$'] are special in the replacement text. *)
Fixpoint substitution (replacement matched before after : string) : string :=
  match replacement with
  | EmptyString => EmptyString
  | String c r =>
      let literal := String c (substitution r matched before after) in
      match r with
      | String d r' =>
          if Ascii.eqb c "$" then
            if Ascii.eqb d "$" then String "$" (substitution r' matched before after)
            else if Ascii.eqb d "&" then matched ++ substitution r' matched before after
            else if Ascii.eqb d "`" then before ++ substitution r' matched before after
            else if Ascii.eqb d "'" then after ++ substitution r' matched before after
            else literal
          else literal
      | EmptyString => literal
      end
  end.

(** Scan for a non-empty pattern. [seen] is the text already passed, in
    reverse; [skip] counts the characters of the current occurrence
    still to pass. *)
Fixpoint scan (pattern replacement : string) (seen : string) (s : string)
         (skip : nat) : string :=
  match s with
  | EmptyString => EmptyString
  | String c s' =>
      match skip with
      | S k => scan pattern replacement (String c seen) s' k
      | O =>
          if String.prefix pattern s then
            substitution replacement pattern (Str.rev_append seen EmptyString)
                         (Str.drop (String.length pattern) s)
            ++ scan pattern replacement (String c seen) s' (String.length pattern - 1)
          else String c (scan pattern replacement (String c seen) s' 0)
      end
  end.

(** The empty pattern occurs before every character and at the end. *)
Fixpoint scan_empty (replacement : string) (seen : string) (s : string) : string :=
  substitution replacement EmptyString (Str.rev_append seen EmptyString) s
  ++ match s with
     | EmptyString => EmptyString
     | String c s' => String c (scan_empty replacement (String c seen) s')
     end.

Definition replaceAll (s pattern replacement : string) : string :=
  if Str.is_empty pattern then scan_empty replacement EmptyString s
  else scan pattern replacement EmptyString s 0.

End StringReplace.

(** ** The variable rewriter and the name de-duplicator *)

(** [normalizeVariables(value)]; [None] is an absent ([undefined] or
    [null]) argument. *)
Definition normalizeVariables (value : option string) : string :=
  let value := match value with Some v => v | None => "" end in
  let variables := Regex.match_regexVariable value in
  fold_left
    (fun value variable =>
       StringReplace.replaceAll value variable
         (Regex.replaceAll_regexToUnderscore (Regex.replaceAll_regexToRemove variable)))
    variables value.

(** ** Parsed documents: JSON values *)

Module Num.

(** A number: an integer below 2^53 in magnitude. *)
Record t : Type := make {
  value : Z;
  safe : Z.ltb (Z.abs value) 9007199254740992 = true
}.

End Num.

(** A value as [JSON.parse] (or the core-schema YAML loader) delivers it.
    An object lists its own properties in enumeration order. An absent
    property ([undefined]) is [None] of [option json]. *)
Inductive json : Type :=
| JNull
| JBool (b : bool)
| JNum (n : Num.t)
| JStr (s : string)
| JArr (elements : list json)
| JObj (properties : list (string * json)).

Module Js.

(** A property whose [null] the code tells from its absence. *)
Inductive field (A : Type) : Type :=
| Undefined
| Null
| Value (a : A).
Arguments Undefined {A}.
Arguments Null {A}.
Arguments Value {A} a.

(** Truthiness, as [||] and [?:] test it. *)
Definition truthy (v : json) : bool :=
  match v with
  | JNull => false
  | JBool b => b
  | JNum n => negb (Z.eqb (Num.value n) 0)
  | JStr s => negb (Str.is_empty s)
  | JArr _ | JObj _ => true
  end.

Fixpoint lookup (key : string) (o : list (string * json)) : option json :=
  match o with
  | [] => None
  | (k, v) :: o' => if String.eqb k key then Some v else lookup key o'
  end.

(** [v.key] for a key that no prototype defines; [None] is [undefined].
    Reading a property of [null] throws, which the caller models. *)
Definition prop (v : json) (key : string) : option json :=
  match v with
  | JObj o => lookup key o
  | _ => None
  end.

Fixpoint indexed {A : Type} (i : nat) (l : list A) : list (string * A) :=
  match l with
  | [] => []
  | x :: l' => (Str.of_nat i, x) :: indexed (S i) l'
  end.

(** [Object.keys(v)] paired with [v[key]]. *)
Definition own_entries (v : json) : list (string * json) :=
  match v with
  | JObj o => o
  | JArr l => indexed 0 l
  | JStr s => indexed 0 (map JStr (Str.chars s))
  | JNull | JBool _ | JNum _ => []
  end.

(** An array index: the canonical decimal text of an integer below
    2^32 - 1. Such keys are enumerated first, in ascending order. *)
Definition array_index (key : string) : option N :=
  match NilZero.uint_of_string key with
  | Some u =>
      let n := N.of_uint u in
      if String.eqb (NilZero.string_of_uint (N.to_uint n)) key && N.ltb n 4294967295
      then Some n else None
  | None => None
  end.

(** Insert a new index key [n] at its place among the index keys. *)
Fixpoint insert_index (key : string) (n : N) (v : json) (o : list (string * json))
  : list (string * json) :=
  match o with
  | [] => [(key, v)]
  | (k, w) :: o' =>
      match array_index k with
      | Some m => if N.ltb m n then (k, w) :: insert_index key n v o'
                  else (key, v) :: o
      | None => (key, v) :: o
      end
  end.

Fixpoint overwrite (key : string) (v : json) (o : list (string * json))
  : list (string * json) :=
  match o with
  | [] => []
  | (k, w) :: o' => if String.eqb k key then (k, v) :: o'
                    else (k, w) :: overwrite key v o'
  end.

(** [o[key] = v] on an ordinary object. The key [__proto__] names the
    prototype of the object: assigning to it gives the object no property
    of its own. *)
Definition set (o : list (string * json)) (key : string) (v : json)
  : list (string * json) :=
  if String.eqb key "__proto__" then o
  else
    match lookup key o with
    | Some _ => overwrite key v o
    | None =>
        match array_index key with
        | Some n => insert_index key n v o
        | None => o ++ [(key, v)]
        end
    end.

(** The text of an element inside [Array.prototype.join]: [null] gives
    the empty text, an array joins its own elements. *)
Fixpoint join_text (v : json) : string :=
  match v with
  | JNull => ""
  | JBool true => "true"
  | JBool false => "false"
  | JNum n => Str.of_Z (Num.value n)
  | JStr s => s
  | JArr l => String.concat "," (map join_text l)
  | JObj _ => "[object Object]"
  end.

(** [v.toString()]; [None] when the call throws a TypeError, which is
    the case of [null] (and of [undefined]). *)
Definition toString (v : json) : option string :=
  match v with
  | JNull => None
  | _ => Some (join_text v)
  end.

End Js.

(** ** [flatten] of the [flat] package, with [{ delimiter: '_' }] *)

Module Flat.

Definition newKey (prev key : string) : string :=
  if Str.is_empty prev then key else prev ++ "_" ++ key.

(** One iteration of [step]'s loop: the property [key] of the object
    being walked, whose path so far is [prev]. A non-empty object or
    array is walked in turn; anything else is stored. *)
Fixpoint visit (key : string) (value : json) (prev : string)
         (output : list (string * json)) {struct value} : list (string * json) :=
  match value with
  | JObj ((_ :: _) as o) =>
      (fix each (o : list (string * json)) (output : list (string * json)) :=
         match o with
         | [] => output
         | (k, v) :: o' => each o' (visit k v (newKey prev key) output)
         end) o output
  | JArr ((_ :: _) as l) =>
      (fix each (i : nat) (l : list json) (output : list (string * json)) :=
         match l with
         | [] => output
         | v :: l' => each (S i) l' (visit (Str.of_nat i) v (newKey prev key) output)
         end) 0 l output
  | _ => Js.set output (newKey prev key) value
  end.

(** [step(target)] at the top, where [prev] is undefined. *)
Definition flatten (target : json) : list (string * json) :=
  fold_left (fun output kv => visit (fst kv) (snd kv) "" output)
            (Js.own_entries target) [].

End Flat.

(** ** The source document: an Insomnia export *)

Module Insomnia.

(** A header, a query parameter, a path parameter or a body parameter. *)
Module Pair.
Record t : Type := make {
  name : string;
  value : option string;
  description : option string;
  disabled : bool
}.
End Pair.

Module Authentication.
Record t : Type := make {
  type : option string;
  username : option string;
  password : option string;
  token : option string
}.
End Authentication.

(** The body of a request. The code calls [split] on a [mimeType] that
    is [null], and takes a default for one that is absent. *)
Module Body.
Record t : Type := make {
  mimeType : Js.field string;
  text : option string;
  params : list Pair.t
}.
End Body.

(** One entry of [resources]. [parentId] is [None] for [null]; the
    fields after [name] are those of a request, [data] that of an
    environment. *)
Module Resource.
Record t : Type := make {
  _type : string;
  _id : string;
  parentId : option string;
  name : string;
  url : option string;
  method : option string;
  headers : list Pair.t;
  parameters : list Pair.t;
  pathParameters : list Pair.t;
  authentication : option Authentication.t;
  body : option Body.t;
  data : option json
}.
End Resource.

(** The parsed file, by its [resources]. [Missing]: the property is
    absent (so it is for data that is [null] or no object). [NoArray]: it
    is [null] or another value that is no array. [Array entries]: an
    array, each entry an object or, for [None], [null]. *)
Module Document.
Inductive resources_t : Type :=
| Missing
| NoArray
| Array (entries : list (option Resource.t)).
Record t : Type := make { resources : resources_t }.

(** The document whose [resources] are the objects of [l]. *)
Definition of_list (l : list Resource.t) : t := make (Array (List.map Some l)).
End Document.

End Insomnia.

(** ** The target document: a Bruno collection *)

Module Bruno.

Module Basic.
Record t : Type := make { username : string; password : string }.
End Basic.

Module Bearer.
Record t : Type := make { token : string }.
End Bearer.

Module Auth.
Record t : Type := make {
  mode : string;
  basic : option Basic.t;
  bearer : option Bearer.t;
  digest : option unit
}.
End Auth.

(** A header, and a parameter of a url-encoded form. *)
Module KeyValue.
Record t : Type := make {
  uid : nat;
  name : string;
  value : string;
  description : option string;
  enabled : bool
}.
End KeyValue.

Module Param.
Record t : Type := make {
  uid : nat;
  name : string;
  value : option string;
  description : option string;
  type : string;
  enabled : bool
}.
End Param.

Module Part.
Record t : Type := make {
  uid : nat;
  type : string;
  name : string;
  value : string;
  description : option string;
  enabled : bool
}.
End Part.

Module GraphQL.
Record t : Type := make { query : option json; variables : option string }.
End GraphQL.

Module Body.
Record t : Type := make {
  mode : string;
  json : option string;
  text : option string;
  xml : option string;
  formUrlEncoded : list KeyValue.t;
  multipartForm : list Part.t;
  graphql : option GraphQL.t
}.
End Body.

Module Request.
Record t : Type := make {
  url : string;
  method : option string;
  auth : Auth.t;
  headers : list KeyValue.t;
  params : list Param.t;
  body : Body.t
}.
End Request.

(** A node of the collection tree: a folder, or a request item whose
    [type] is ['http-request'] or ['graphql-request']. *)
Inductive item : Type :=
| Folder (uid : nat) (name : string) (items : list item)
| Leaf (uid : nat) (name : string) (type : string) (request : Request.t).

Module Item.
Definition type (i : item) : string :=
  match i with
  | Folder _ _ _ => "folder"
  | Leaf _ _ ty _ => ty
  end.
Definition name (i : item) : string :=
  match i with
  | Folder _ n _ => n
  | Leaf _ n _ _ => n
  end.
Definition is_folder (i : item) : bool :=
  match i with Folder _ _ _ => true | Leaf _ _ _ _ => false end.
End Item.

Module EnvVar.
Record t : Type := make {
  uid : nat;
  name : string;
  value : string;
  enabled : bool;
  secret : bool;
  type : string
}.
End EnvVar.

Module Environment.
Record t : Type := make {
  uid : nat;
  name : string;
  variables : list EnvVar.t
}.
End Environment.

Module Collection.
Record t : Type := make {
  name : string;
  uid : nat;
  version : string;
  items : list item;
  environments : list Environment.t
}.
End Collection.

End Bruno.

(** ** Effects: exceptions, the identifier generator, the promise *)

Inductive exn : Type :=
| TypeError (message : string)
| RangeError (message : string).

Inductive completion (A : Type) : Type :=
| Normal (a : A)
| Throw (e : exn).
Arguments Normal {A} a.
Arguments Throw {A} e.

(** How a promise is settled; a rejection carries the message of its
    [BrunoError]. *)
Inductive outcome : Type :=
| Resolved (collection : Bruno.Collection.t)
| Rejected (message : string).

Inductive builder : Type := CreateFolderStructure | CreateEnvironments.

(** [next_uid]: how many identifiers [uuid()] has handed out. [settled]:
    the state of the promise under construction, [None] while pending.
    [entered]: the builders whose body has begun, latest first. *)
Record world : Type := World {
  next_uid : nat;
  settled : option outcome;
  entered : list builder
}.

Definition M (A : Type) : Type := world -> completion A * world.

Definition ret {A : Type} (a : A) : M A := fun w => (Normal a, w).

Definition bind {A B : Type} (c : M A) (k : A -> M B) : M B :=
  fun w =>
    match c w with
    | (Normal a, w') => k a w'
    | (Throw e, w') => (Throw e, w')
    end.

Declare Scope js_scope.
Delimit Scope js_scope with js.
Notation "x <- c ;; k" := (bind c (fun x => k))
  (at level 61, c at next level, right associativity) : js_scope.
Notation "c ;; k" := (bind c (fun _ => k))
  (at level 61, right associativity) : js_scope.
Local Open Scope js_scope.

Definition throw {A : Type} (e : exn) : M A := fun w => (Throw e, w).

(** [try { body } catch (err) { handler(err) }] *)
Definition try_catch {A : Type} (body : M A) (handler : exn -> M A) : M A :=
  fun w =>
    match body w with
    | (Normal a, w') => (Normal a, w')
    | (Throw e, w') => handler e w'
    end.

Definition uuid : M nat :=
  fun w => (Normal (next_uid w), World (S (next_uid w)) (settled w) (entered w)).

Definition enter (b : builder) : M unit :=
  fun w => (Normal tt, World (next_uid w) (settled w) (b :: entered w)).

(** [new Promise(...)]: a pending promise. *)
Definition new_promise : M unit :=
  fun w => (Normal tt, World (next_uid w) None (entered w)).

(** [resolve] and [reject] settle a pending promise and are ignored by a
    settled one. *)
Definition settle (o : outcome) : M unit :=
  fun w =>
    match settled w with
    | None => (Normal tt, World (next_uid w) (Some o) (entered w))
    | Some _ => (Normal tt, w)
    end.

Definition resolve (c : Bruno.Collection.t) : M unit := settle (Resolved c).
Definition reject (message : string) : M unit := settle (Rejected message).

(** ** Arrays *)

Module Arr.

Section Indexed.
Variables A B : Type.

(** [l.reduce((acc, x, index) => f acc x index, acc)] *)
Fixpoint reduce_from (f : B -> A -> nat -> B) (acc : B) (index : nat) (l : list A) : B :=
  match l with
  | [] => acc
  | x :: l' => reduce_from f (f acc x index) (S index) l'
  end.

Definition reduce (f : B -> A -> nat -> B) (acc : B) (l : list A) : B :=
  reduce_from f acc 0 l.

(** [l.map((x, index) => f x index)] for a callback with effects; the
    same loop is a lodash [each] whose callback pushes one record. *)
Fixpoint mapM_from (f : A -> nat -> M B) (index : nat) (l : list A) : M (list B) :=
  match l with
  | [] => ret []
  | x :: l' =>
      y <- f x index ;;
      ys <- mapM_from f (S index) l' ;;
      ret (y :: ys)
  end.

Definition mapM (f : A -> nat -> M B) (l : list A) : M (list B) :=
  mapM_from f 0 l.

(** [l.map((x, index) => f x index)] for a pure callback. *)
Fixpoint map_from (f : A -> nat -> B) (index : nat) (l : list A) : list B :=
  match l with
  | [] => []
  | x :: l' => f x index :: map_from f (S index) l'
  end.

Definition map (f : A -> nat -> B) (l : list A) : list B := map_from f 0 l.

(** [l.reduce((acc, x) => f acc x, acc)] for a callback with effects. *)
Fixpoint reduceM (f : B -> A -> M B) (acc : B) (l : list A) : M B :=
  match l with
  | [] => ret acc
  | x :: l' => acc' <- f acc x ;; reduceM f acc' l'
  end.

(** [l.find(x => p x)] for a callback that may throw: the first element
    the callback accepts, the elements after it untouched. *)
Fixpoint findM (p : A -> M bool) (l : list A) : M (option A) :=
  match l with
  | [] => ret None
  | x :: l' => found <- p x ;; if found then ret (Some x) else findM p l'
  end.

(** [l.filter(x => p x)] for a callback that may throw. *)
Fixpoint filterM (p : A -> M bool) (l : list A) : M (list A) :=
  match l with
  | [] => ret []
  | x :: l' =>
      kept <- p x ;;
      rest <- filterM p l' ;;
      ret (if kept then x :: rest else rest)
  end.
End Indexed.

End Arr.

(** [a === b] on identifiers, [None] being [null]. *)
Definition same_id (a b : option string) : bool :=
  match a, b with
  | Some x, Some y => String.eqb x y
  | None, None => true
  | _, _ => false
  end.

(** [addSuffixToDuplicateName(item, index, allItems)] *)
Definition addSuffixToDuplicateName (item : Insomnia.Resource.t) (index : nat)
           (allItems : list Insomnia.Resource.t) : string :=
  let nameSuffix :=
    Arr.reduce
      (fun nameSuffix otherItem otherIndex =>
         if String.eqb (Insomnia.Resource.name otherItem) (Insomnia.Resource.name item)
            && Nat.ltb otherIndex index
         then S nameSuffix else nameSuffix)
      0 allItems in
  if negb (Nat.eqb nameSuffix 0)
  then Insomnia.Resource.name item ++ "_" ++ Str.of_nat nameSuffix
  else Insomnia.Resource.name item.

(** The display names of a sibling list, each member de-duplicated at
    its own index: how [Array.prototype.map] calls the de-duplicator. *)
Definition displayNames (siblings : list Insomnia.Resource.t) : list string :=
  Arr.map (fun item index => addSuffixToDuplicateName item index siblings) siblings.

(** ** The importer *)

Section Importer.

Import Insomnia.

(** The host's JSON codec. [JSON_parse text] is [None] when
    [JSON.parse(text)] throws a SyntaxError; [JSON_stringify v] is
    [JSON.stringify(v, null, 2)] of a defined value. *)
Variable JSON_parse : string -> option json.
Variable JSON_stringify : json -> string.

(** [parseGraphQL(text)]. The [catch] serves the SyntaxError of
    [JSON.parse] and the TypeError of reading [query] from [null]. *)
Definition parseGraphQL (text : string) : Bruno.GraphQL.t :=
  match JSON_parse text with
  | Some JNull | None => Bruno.GraphQL.make (Some (JStr "")) (Some "")
  | Some graphql =>
      Bruno.GraphQL.make (Js.prop graphql "query")
                         (option_map JSON_stringify (Js.prop graphql "variables"))
  end.

(** [get(request, 'authentication.' + field, '')] *)
Definition get_authentication (field : Authentication.t -> option string)
           (request : Resource.t) : string :=
  match Resource.authentication request with
  | Some a => match field a with Some v => v | None => "" end
  | None => ""
  end.

(** [get(request, 'body.mimeType', '')]. The default stands in for an
    absent property, that of an absent body too; a property that is
    [null] is returned as it is, which is the [None] here. *)
Definition get_body_mimeType (request : Resource.t) : option string :=
  match Resource.body request with
  | Some b =>
      match Body.mimeType b with
      | Js.Value v => Some v
      | Js.Null => None
      | Js.Undefined => Some ""
      end
  | None => Some ""
  end.

(** [request.body.text] and [request.body.params], read only in
    branches where [request.body] exists. *)
Definition body_text (request : Resource.t) : option string :=
  match Resource.body request with
  | Some b => Body.text b
  | None => None
  end.

Definition body_params (request : Resource.t) : list Pair.t :=
  match Resource.body request with
  | Some b => Body.params b
  | None => []
  end.

(** The authentication block of [transformInsomniaRequestItem]
    (from [const authType] to the end of its [if]): the [auth] record
    after the two assignments, if any. *)
Definition transformInsomniaRequestItem_auth (request : Resource.t) : Bruno.Auth.t :=
  let authType := get_authentication Authentication.type request in
  if String.eqb authType "basic" then
    Bruno.Auth.make "basic"
      (Some (Bruno.Basic.make
               (normalizeVariables (Some (get_authentication Authentication.username request)))
               (normalizeVariables (Some (get_authentication Authentication.password request)))))
      None None
  else if String.eqb authType "bearer" then
    Bruno.Auth.make "bearer" None
      (Some (Bruno.Bearer.make
               (normalizeVariables (Some (get_authentication Authentication.token request)))))
      None
  else Bruno.Auth.make "none" None None None.

(** The body block of [transformInsomniaRequestItem] (from
    [const mimeType] to the end of its [if]): the [type] of the item and
    its [body] record after the assignments, if any. [split] is called
    on what [get] returns, and throws when that is [null]. *)
Definition transformInsomniaRequestItem_body (request : Resource.t)
  : M (string * Bruno.Body.t) :=
  match get_body_mimeType request with
  | None => throw (TypeError "Cannot read properties of null (reading 'split')")
  | Some text =>
  let mimeType := Str.before_first ";" text in
  if String.eqb mimeType "application/json" then
    ret ("http-request",
         Bruno.Body.make "json" (Some (normalizeVariables (body_text request)))
                         None None [] [] None)
  else if String.eqb mimeType "application/x-www-form-urlencoded" then
    form <-
      Arr.mapM (fun param _ =>
                  uid <- uuid ;;
                  ret (Bruno.KeyValue.make uid (Pair.name param)
                         (normalizeVariables (Pair.value param))
                         (Pair.description param) (negb (Pair.disabled param))))
               (body_params request) ;;
    ret ("http-request", Bruno.Body.make "formUrlEncoded" None None None form [] None)
  else if String.eqb mimeType "multipart/form-data" then
    parts <-
      Arr.mapM (fun param _ =>
                  uid <- uuid ;;
                  ret (Bruno.Part.make uid "text" (Pair.name param)
                         (normalizeVariables (Pair.value param))
                         (Pair.description param) (negb (Pair.disabled param))))
               (body_params request) ;;
    ret ("http-request", Bruno.Body.make "multipartForm" None None None [] parts None)
  else if String.eqb mimeType "text/plain" then
    ret ("http-request",
         Bruno.Body.make "text" None (Some (normalizeVariables (body_text request)))
                         None [] [] None)
  else if String.eqb mimeType "text/xml" || String.eqb mimeType "application/xml" then
    ret ("http-request",
         Bruno.Body.make "xml" None None (Some (normalizeVariables (body_text request)))
                         [] [] None)
  else if String.eqb mimeType "application/graphql" then
    ret ("graphql-request",
         Bruno.Body.make "graphql" None None None [] []
                         (Some (parseGraphQL (normalizeVariables (body_text request)))))
  else
    ret ("http-request", Bruno.Body.make "none" None None None [] [] None)
  end.

(** [transformInsomniaRequestItem(request, index, allRequests)] *)
Definition transformInsomniaRequestItem (request : Resource.t) (index : nat)
           (allRequests : list Resource.t) : M Bruno.item :=
  let name := addSuffixToDuplicateName request index allRequests in
  uid <- uuid ;;
  headers <-
    Arr.mapM (fun header _ =>
                uid <- uuid ;;
                ret (Bruno.KeyValue.make uid (Pair.name header)
                       (normalizeVariables (Pair.value header))
                       (Pair.description header) (negb (Pair.disabled header))))
             (Resource.headers request) ;;
  query <-
    Arr.mapM (fun param _ =>
                uid <- uuid ;;
                ret (Bruno.Param.make uid (Pair.name param)
                       (Some (normalizeVariables (Pair.value param)))
                       (Pair.description param) "query" (negb (Pair.disabled param))))
             (Resource.parameters request) ;;
  path <-
    Arr.mapM (fun param _ =>
                uid <- uuid ;;
                ret (Bruno.Param.make uid (Pair.name param) (Pair.value param)
                       (Some "") "path" true))
             (Resource.pathParameters request) ;;
  let auth := transformInsomniaRequestItem_auth request in
  typed_body <- transformInsomniaRequestItem_body request ;;
  ret (Bruno.Leaf uid name (fst typed_body)
         (Bruno.Request.make (normalizeVariables (Resource.url request))
                             (Resource.method request) auth headers (query ++ path)
                             (snd typed_body))).

Definition stack_overflow : exn := RangeError "Maximum call stack size exceeded".

Definition is_child (kind : string) (parentId : option string) (resource : Resource.t) : bool :=
  String.eqb (Resource._type resource) kind
  && same_id (Resource.parentId resource) parentId.

(** [createFolderStructure(resources, parentId)], with [stack] frames
    left for it and its nested calls. *)
Fixpoint createFolderStructure (stack : nat) (resources : list Resource.t)
         (parentId : option string) {struct stack} : M (list Bruno.item) :=
  match stack with
  | O => throw stack_overflow
  | S stack' =>
      enter CreateFolderStructure ;;
      let requestGroups := filter (is_child "request_group" parentId) resources in
      let requests := filter (is_child "request" parentId) resources in
      folders <-
        Arr.mapM (fun folder index =>
                    let name := addSuffixToDuplicateName folder index requestGroups in
                    let requests :=
                      filter (is_child "request" (Some (Resource._id folder))) resources in
                    uid <- uuid ;;
                    below <- createFolderStructure stack' resources
                               (Some (Resource._id folder)) ;;
                    leaves <- Arr.mapM (fun request index =>
                                          transformInsomniaRequestItem request index requests)
                                       requests ;;
                    ret (Bruno.Folder uid name (below ++ leaves)))
                 requestGroups ;;
      leaves <- Arr.mapM (fun request index =>
                            transformInsomniaRequestItem request index requests)
                         requests ;;
      ret (folders ++ leaves)
  end.

(** [environment.data || {}] *)
Definition data_or_empty (environment : Resource.t) : json :=
  match Resource.data environment with
  | Some v => if Js.truthy v then v else JObj []
  | None => JObj []
  end.

(** The callback of the [map] over the flattened entries of an
    environment: [([key, value]) => ({ uid: uuid(), name: key, value:
    normalizeVariables(value.toString()), ... })]. *)
Definition variable_of_entry (entry : string * json) : M Bruno.EnvVar.t :=
  uid <- uuid ;;
  match Js.toString (snd entry) with
  | Some text =>
      ret (Bruno.EnvVar.make uid (fst entry) (normalizeVariables (Some text))
                             true false "text")
  | None => throw (TypeError "Cannot read properties of null (reading 'toString')")
  end.

(** The variables of one environment:
    [Object.entries(flatten(environment.data || {}, { delimiter: '_' })).map(...)]. *)
Definition environment_variables (environment : Resource.t) : M (list Bruno.EnvVar.t) :=
  Arr.mapM (fun entry _ => variable_of_entry entry)
           (Flat.flatten (data_or_empty environment)).

(** [createEnvironments(resources, parentId)], with [stack] frames left
    for it and its nested calls. *)
Fixpoint createEnvironments (stack : nat) (resources : list Resource.t)
         (parentId : option string) {struct stack} : M (list Bruno.Environment.t) :=
  match stack with
  | O => throw stack_overflow
  | S stack' =>
      enter CreateEnvironments ;;
      let environments := filter (is_child "environment" parentId) resources in
      Arr.reduceM
        (fun result environment =>
           variables <- environment_variables environment ;;
           uid <- uuid ;;
           let environmentResult :=
             Bruno.Environment.make uid (Resource.name environment) variables in
           below <- createEnvironments stack' resources
                      (Some (Resource._id environment)) ;;
           ret (result ++ environmentResult :: below))
        [] environments
  end.

Definition has_type (kind : string) (resource : Resource.t) : bool :=
  String.eqb (Resource._type resource) kind.

(** The callback [(resource) => test(resource)] of [find] and [filter]
    over the entries of [resources], [test] reading [_type] first: on an
    entry that is [null] the reading throws. *)
Definition on_entry (test : Resource.t -> bool) (entry : option Resource.t) : M bool :=
  match entry with
  | Some resource => ret (test resource)
  | None => throw (TypeError "Cannot read properties of null (reading '_type')")
  end.

(** The objects among the entries of an array: all that a [filter] with
    such a callback keeps. *)
Definition objects (entries : list (option Resource.t)) : list Resource.t :=
  flat_map (fun entry => match entry with Some resource => [resource] | None => [] end)
           entries.

(** The body of the promise executor of [parseInsomniaCollection].
    [find] is called on what [get] returns: a value that is no array has
    no [find], and the call throws. A missing workspace rejects and falls
    through to the next statement, which reads [name] from [undefined]. *)
Definition executor (stack : nat) (data : Document.t)
           (brunoCollection : Bruno.Collection.t) : M unit :=
  try_catch
    (insomniaResources <-
       match Document.resources data with
       | Document.Missing => ret []
       | Document.Array entries => ret entries
       | Document.NoArray => throw (TypeError "insomniaResources.find is not a function")
       end ;;
     insomniaCollection <- Arr.findM (on_entry (has_type "workspace")) insomniaResources ;;
     match insomniaCollection with
     | None => reject "Collection not found inside Insomnia export"
     | Some _ => ret tt
     end ;;
     workspace <-
       match insomniaCollection with
       | Some (Some workspace) => ret workspace
       | Some None => throw (TypeError "Cannot read properties of null (reading 'name')")
       | None => throw (TypeError "Cannot read properties of undefined (reading 'name')")
       end ;;
     let name := Resource.name workspace in
     requestsAndFolders <-
       Arr.filterM (on_entry (fun resource => has_type "request" resource
                                              || has_type "request_group" resource))
                   insomniaResources ;;
     environments <- Arr.filterM (on_entry (has_type "environment")) insomniaResources ;;
     environments <- createEnvironments stack (objects environments)
                       (Some (Resource._id workspace)) ;;
     items <- createFolderStructure stack (objects requestsAndFolders)
                (Some (Resource._id workspace)) ;;
     resolve (Bruno.Collection.make name (Bruno.Collection.uid brunoCollection)
                (Bruno.Collection.version brunoCollection) items environments))
    (fun _ => reject "An error occurred while parsing the Insomnia collection").

(** [parseInsomniaCollection(data)]: the world once the executor has
    run; [settled] is then the state of the returned promise. *)
Definition parseInsomniaCollection (stack : nat) (data : Document.t) (w : world) : world :=
  snd ((uid <- uuid ;;
        let brunoCollection := Bruno.Collection.make "" uid "1" [] [] in
        new_promise ;;
        executor stack data brunoCollection) w).

End Importer.

(** The world in which an import starts. *)
Definition boot : world := World 0 None [].

(** ** Reading the picked file and the import pipeline *)

(** An error object as the pipeline reads it: its [message], [None] when
    the object has no such property. *)
Module Err.
Record t : Type := make { message : option string }.
End Err.

(** [new BrunoError(message)] *)
Definition BrunoError (message : string) : Err.t := Err.make (Some message).

(** A promise as the code that awaits it finds it. *)
Inductive promise (A : Type) : Type :=
| Fulfilled (value : A)
| RejectedWith (reason : Err.t)
| Pending.
Arguments Fulfilled {A} value.
Arguments RejectedWith {A} reason.
Arguments Pending {A}.

(** [p.then(f)]: [f] returns a value or a promise, or throws, which for
    the promise returned by [then] is the promise [f a]. *)
Definition and_then {A B : Type} (p : promise A) (f : A -> promise B) : promise B :=
  match p with
  | Fulfilled a => f a
  | RejectedWith reason => RejectedWith reason
  | Pending => Pending
  end.

(** What the [FileReader] does with the file it is given: it fires
    [onload] with the text of the file, or [onerror] with an error. *)
Inductive fileReader_event : Type :=
| Onload (result : string)
| Onerror (err : Err.t).

Section Pipeline.

Import Insomnia.

Variable JSON_parse : string -> option json.
Variable JSON_stringify : json -> string.

(** [jsyaml.load(text, { schema: jsyaml.CORE_SCHEMA })]; [None] when it
    throws. *)
Variable jsyaml_load : string -> option json.

(** [readFile(files)], [event] being what the reader does with
    [files[0]]. *)
Definition readFile (event : fileReader_event) : promise json :=
  match event with
  | Onload result =>
      match JSON_parse result with
      | Some parsedData => Fulfilled parsedData
      | None =>
          match jsyaml_load result with
          | Some parsedData => Fulfilled parsedData
          | None => RejectedWith (BrunoError "Import collection failed")
          end
      end
  | Onerror err => RejectedWith err
  end.

(** The parsed data as [parseInsomniaCollection] reads it: the export
    by its [resources], be they absent, no array, or an array of
    entries. *)
Variable as_export : json -> Document.t.

(** The stages of [./common]. Each returns a value or a promise, or
    throws: for the pipeline, a promise. *)
Variables Transformed Hydrated Validated : Type.
Variable transformItemsInCollection : Bruno.Collection.t -> promise Transformed.
Variable hydrateSeqInCollection : Transformed -> promise Hydrated.
Variable validateSchema : Hydrated -> promise Validated.

(** The promise that [parseInsomniaCollection] returns. *)
Definition promise_of (state : option outcome) : promise Bruno.Collection.t :=
  match state with
  | Some (Resolved collection) => Fulfilled collection
  | Some (Rejected message) => RejectedWith (BrunoError message)
  | None => Pending
  end.

(** ['Import collection failed: ' + err.message] *)
Definition failure_message (err : Err.t) : string :=
  "Import collection failed: "
  ++ match Err.message err with Some message => message | None => "undefined" end.

(** [importCollection()]. [picked] is the promise of the file dialog, the
    reader's event for the first picked file in place of the file list;
    the promise is fulfilled with the [collection] of [{ collection }]. *)
Definition importCollection (stack : nat) (picked : promise fileReader_event) (w : world)
  : promise Validated :=
  let parse parsedData :=
    promise_of (settled (parseInsomniaCollection JSON_parse JSON_stringify stack
                           (as_export parsedData) w)) in
  match
    and_then
      (and_then
         (and_then (and_then (and_then picked readFile) parse) transformItemsInCollection)
         hydrateSeqInCollection)
      validateSchema
  with
  | Fulfilled collection => Fulfilled collection
  | RejectedWith err => RejectedWith (BrunoError (failure_message err))
  | Pending => Pending
  end.

End Pipeline.

(** ** The file picker *)

Module RawFilePickerEditor.

(** What the component shows inside its box: the clear button followed by
    the file name, or the button that opens the file browser. *)
Inductive content : Type :=
| ClearAndName (filename : string)
| SelectFile.

(** The box: its [title] attribute and its children. *)
Record view : Type := View { tooltip : string; children : content }.

Section Component.

(** [isWindowsOS()] *)
Variable isWindowsOS : bool.

Definition separator : ascii := if isWindowsOS then "\"%char else "/"%char.

(** [value ? value.split(separator).pop() : ''], [None] being an absent
    or [null] value; [split] returns at least one piece, so that [pop]
    returns a text. *)
Definition filename (value : option string) : string :=
  match value with
  | Some v => if Str.is_empty v then "" else last (Str.split separator v) ""
  | None => ""
  end.

Definition title (value : option string) : string := "- " ++ filename value.

(** The element the component returns. *)
Definition render (value : option string) : view :=
  View (title value)
       (if Str.is_empty (filename value) then SelectFile
        else ClearAndName (filename value)).

End Component.

End RawFilePickerEditor.

(** * Vocabulary of the properties *)

Section Vocabulary.

Import Insomnia.

Variable JSON_parse : string -> option json.
Variable JSON_stringify : json -> string.

(** The siblings before [index] that carry the name of [item]. *)
Definition earlier_namesakes (item : Resource.t) (index : nat)
           (allItems : list Resource.t) : list Resource.t :=
  filter (fun other => String.eqb (Resource.name other) (Resource.name item))
         (firstn index allItems).

(** Records built in a loop that draws one identifier per element. *)
Definition numbered {A B : Type} (build : nat -> A -> B) (first : nat) (l : list A)
  : list B :=
  List.map (fun ux => build (fst ux) (snd ux)) (combine (seq first (length l)) l).

(** [authentication.type], [None] when the request has no
    authentication or the authentication has no type. *)
Definition authentication_type (request : Resource.t) : option string :=
  match Resource.authentication request with
  | Some a => Authentication.type a
  | None => None
  end.

Fixpoint count_char (c : ascii) (s : string) : nat :=
  match s with
  | EmptyString => 0
  | String d s' => (if Ascii.eqb d c then 1 else 0) + count_char c s'
  end.

(** The request has a body whose [mimeType] is [null]. *)
Definition null_mimeType (request : Resource.t) : Prop :=
  exists b, Resource.body request = Some b /\ Body.mimeType b = Js.Null.

(** No request of [resources] has a MIME type that is [null]. *)
Definition mimeTypes_not_null (resources : list Resource.t) : Prop :=
  forall request,
    In request resources -> Resource._type request = "request" ->
    ~ null_mimeType request.

(** The request has no MIME type: no body, or a body without
    [mimeType]. *)
Definition no_mimeType (request : Resource.t) : Prop :=
  Resource.body request = None
  \/ exists b, Resource.body request = Some b /\ Body.mimeType b = Js.Undefined.

(** [base] is the base MIME type of [mimeType]: the part before its
    first [;], the whole of it when it holds none. *)
Definition base_of (mimeType base : string) : Prop :=
  count_char ";" base = 0
  /\ (mimeType = base
      \/ exists parameters, mimeType = (base ++ String ";" parameters)%string).

(** The body record before any assignment. *)
Definition empty_body : Bruno.Body.t := Bruno.Body.make "none" None None None [] [] None.

Definition known_mimeTypes : list string :=
  ["application/json"; "application/x-www-form-urlencoded"; "multipart/form-data";
   "text/plain"; "text/xml"; "application/xml"; "application/graphql"].

(** The payload of a GraphQL body whose rewritten text is [text]: an
    empty query and empty variables when the text is not JSON, the
    [query] of the parsed object and its [variables] printed when it is
    an object. *)
Definition graphql_of (text : string) (graphql : Bruno.GraphQL.t) : Prop :=
  (JSON_parse text = None ->
   graphql = Bruno.GraphQL.make (Some (JStr "")) (Some ""))
  /\ (forall properties,
         JSON_parse text = Some (JObj properties) ->
         graphql
         = Bruno.GraphQL.make (Js.lookup "query" properties)
             (option_map JSON_stringify (Js.lookup "variables" properties))).

(** The table of the body mapping: what the item type and the body
    record must be for a body [b] whose MIME type is the text
    [mimeType]. [first] is the identifier drawn for the first body
    parameter: the identifiers of the item, of its headers and of its
    parameters are drawn before. *)
Definition body_as_tabulated (b : Body.t) (mimeType : string) (first : nat)
           (type : string) (body : Bruno.Body.t) : Prop :=
  forall base,
    base_of mimeType base ->
    let text := normalizeVariables (Body.text b) in
    (base = "application/json" ->
     type = "http-request"
     /\ body = Bruno.Body.make "json" (Some text) None None [] [] None)
    /\ (base = "application/x-www-form-urlencoded" ->
        type = "http-request"
        /\ body
           = Bruno.Body.make "formUrlEncoded" None None None
               (numbered (fun uid param =>
                            Bruno.KeyValue.make uid (Pair.name param)
                              (normalizeVariables (Pair.value param))
                              (Pair.description param) (negb (Pair.disabled param)))
                         first (Body.params b))
               [] None)
    /\ (base = "multipart/form-data" ->
        type = "http-request"
        /\ body
           = Bruno.Body.make "multipartForm" None None None []
               (numbered (fun uid param =>
                            Bruno.Part.make uid "text" (Pair.name param)
                              (normalizeVariables (Pair.value param))
                              (Pair.description param) (negb (Pair.disabled param)))
                         first (Body.params b))
               None)
    /\ (base = "text/plain" ->
        type = "http-request"
        /\ body = Bruno.Body.make "text" None (Some text) None [] [] None)
    /\ (base = "text/xml" ->
        type = "http-request"
        /\ body = Bruno.Body.make "xml" None None (Some text) [] [] None)
    /\ (base = "application/xml" ->
        type = "http-request"
        /\ body = Bruno.Body.make "xml" None None (Some text) [] [] None)
    /\ (base = "application/graphql" ->
        type = "graphql-request"
        /\ exists graphql,
            body = Bruno.Body.make "graphql" None None None [] [] (Some graphql)
            /\ graphql_of text graphql)
    /\ (~ In base known_mimeTypes ->
        type = "http-request" /\ body = empty_body).

(** Every [items] list inside a node: that of the node itself when it is a
    folder, and those of the folders below it. *)
Fixpoint levels (i : Bruno.item) : list (list Bruno.item) :=
  match i with
  | Bruno.Folder _ _ items => items :: flat_map levels items
  | Bruno.Leaf _ _ _ _ => []
  end.

(** Every [items] list of a tree: the root level and the levels inside. *)
Definition all_levels (root : list Bruno.item) : list (list Bruno.item) :=
  root :: flat_map levels root.

(** Every folder of a level stands strictly before every request of it. *)
Definition folders_before_requests (level : list Bruno.item) : Prop :=
  forall i j folder leaf,
    nth_error level i = Some folder -> Bruno.Item.is_folder folder = true ->
    nth_error level j = Some leaf -> Bruno.Item.is_folder leaf = false ->
    i < j.

(** A level that is a run of folders followed by a run of requests. *)
Definition partitioned (level : list Bruno.item) : Prop :=
  exists folders leaves,
    level = folders ++ leaves
    /\ Forall (fun i => Bruno.Item.is_folder i = true) folders
    /\ Forall (fun i => Bruno.Item.is_folder i = false) leaves.

(** A computation that leaves the promise as it found it. *)
Definition keeps_promise {A : Type} (c : M A) : Prop :=
  forall w r w', c w = (r, w') -> settled w' = settled w.

(** The environments as a forest: an environment with the environments
    parented to it. *)
Inductive env_tree : Type :=
| EnvNode (environment : Resource.t) (children : list env_tree).

(** Parent first, then each child's tree in turn. *)
Fixpoint preorder (t : env_tree) : list Resource.t :=
  match t with
  | EnvNode environment children => environment :: flat_map preorder children
  end.

Fixpoint map_option {A B : Type} (f : A -> option B) (l : list A) : option (list B) :=
  match l with
  | [] => Some []
  | x :: l' =>
      match f x, map_option f l' with
      | Some y, Some ys => Some (y :: ys)
      | _, _ => None
      end
  end.

(** The forest of the environments parented to [parentId], document order
    at every level; [None] when it is deeper than [depth]. *)
Fixpoint env_forest (depth : nat) (resources : list Resource.t)
         (parentId : option string) {struct depth} : option (list env_tree) :=
  match depth with
  | O => None
  | S depth' =>
      map_option
        (fun environment =>
           option_map (EnvNode environment)
                      (env_forest depth' resources (Some (Resource._id environment))))
        (filter (is_child "environment" parentId) resources)
  end.

(** [e] is the target environment made for the source environment
    [source]: it carries its name. *)
Definition made_for (source : Resource.t) (e : Bruno.Environment.t) : Prop :=
  Bruno.Environment.name e = Resource.name source.

(** The flattened data of an environment holds a [null]. *)
Definition has_null_value (environment : Resource.t) : Prop :=
  Exists (fun entry => snd entry = JNull) (Flat.flatten (data_or_empty environment)).

(** [environment] is an environment of [resources] below [parentId]: its
    chain of parents, all of them environments of [resources], ends at
    [parentId]. *)
Inductive env_below (resources : list Resource.t)
  : option string -> Resource.t -> Prop :=
| env_child (parentId : option string) (environment : Resource.t) :
    In environment resources ->
    is_child "environment" parentId environment = true ->
    env_below resources parentId environment
| env_descendant (parentId : option string) (parent environment : Resource.t) :
    In parent resources ->
    is_child "environment" parentId parent = true ->
    env_below resources (Some (Resource._id parent)) environment ->
    env_below resources parentId environment.

(** Parent links of kind [kind] go down a rank: no resource of that kind
    is its own ancestor. *)
Definition ranked (kind : string) (rank : string -> nat) (resources : list Resource.t)
  : Prop :=
  forall resource parent,
    In resource resources ->
    Resource._type resource = kind ->
    Resource.parentId resource = Some parent ->
    rank (Resource._id resource) < rank parent.


(** An entry of [resources] that is [null]. *)
Definition is_null (entry : option Resource.t) : bool :=
  match entry with
  | Some _ => false
  | None => true
  end.

(** The TypeError of [value.toString()] on [null]. *)
Definition toString_error : exn :=
  TypeError "Cannot read properties of null (reading 'toString')".

(** The messages of the two rejections of [parseInsomniaCollection]. *)
Definition not_found : string := "Collection not found inside Insomnia export".
Definition parsing_failed : string :=
  "An error occurred while parsing the Insomnia collection".

(** The end-to-end scenario: one workspace, one request group named Auth
    holding one basic-auth GET request to [{{base_url}}/login], and one
    environment with [{token: "x"}]. *)
Definition minimal_resources : list Resource.t :=
    [ Resource.make "workspace" "wrk_1" None "My API" None None [] [] [] None None None;
      Resource.make "request_group" "fld_1" (Some "wrk_1") "Auth"
                    None None [] [] [] None None None;
      Resource.make "request" "req_1" (Some "fld_1") "Login"
                    (Some "{{base_url}}/login") (Some "GET") [] [] []
                    (Some (Authentication.make (Some "basic") (Some "admin")
                                               (Some "secret") None))
                    (Some (Body.make Js.Undefined None [])) None;
      Resource.make "environment" "env_1" (Some "wrk_1") "Base"
                    None None [] [] [] None None
                    (Some (JObj [("token", JStr "x")])) ].

Definition minimal_export : Document.t := Document.of_list minimal_resources.

(** The request item that the scenario's request becomes, under the
    identifier [uid]. *)
Definition login_item (uid : nat) : Bruno.item :=
  Bruno.Leaf uid "Login" "http-request"
    (Bruno.Request.make "{{base_url}}/login" (Some "GET")
       (Bruno.Auth.make "basic" (Some (Bruno.Basic.make "admin" "secret")) None None)
       [] [] empty_body).

(** The rewritten text of one matched span: blanks, closing brackets and
    the pair [_.] removed, then dots and opening brackets turned into
    underscores. *)
Definition rewritten (variable : string) : string :=
  Regex.replaceAll_regexToUnderscore (Regex.replaceAll_regexToRemove variable).

(** The rewriter as the specification words it: every span is rewritten
    where it stands, the text between the spans is kept. *)
Fixpoint rewrite_spans_from (s : string) (skip : nat) : string :=
  match s with
  | EmptyString => EmptyString
  | String c s' =>
      match skip with
      | S k => rewrite_spans_from s' k
      | O =>
          match Regex.regexVariable_at s with
          | Some m => rewritten m ++ rewrite_spans_from s' (String.length m - 1)
          | None => String c (rewrite_spans_from s' 0)
          end
      end
  end.

Definition rewrite_spans (s : string) : string := rewrite_spans_from s 0.

(** A span that holds no dollar sign and no opening brace besides the two
    that open it. *)
Definition plain_span (v : string) : Prop :=
  count_char "$" v = 0 /\ count_char "{" v = 2.

(** The characters the rewriting removes or replaces. *)
Definition dirty (c : ascii) : bool :=
  Regex.is_space c || Ascii.eqb c "]" || Ascii.eqb c "." || Ascii.eqb c "[".

Fixpoint clean (s : string) : bool :=
  match s with
  | EmptyString => true
  | String c s' => negb (dirty c) && clean s'
  end.

(** A text cut into the spans the regular expression matches and the
    characters between them. *)
Inductive segment : Type :=
| Lit (c : ascii)
| Span (v : string).

Fixpoint flat (l : list segment) : string :=
  match l with
  | [] => EmptyString
  | Lit c :: l' => String c (flat l')
  | Span v :: l' => v ++ flat l'
  end.

Fixpoint segments_from (s : string) (skip : nat) : list segment :=
  match s with
  | EmptyString => []
  | String c s' =>
      match skip with
      | S k => segments_from s' k
      | O =>
          match Regex.regexVariable_at s with
          | Some m => Span m :: segments_from s' (String.length m - 1)
          | None => Lit c :: segments_from s' 0
          end
      end
  end.

Definition segments (s : string) : list segment := segments_from s 0.

Fixpoint spans_of (l : list segment) : list string :=
  match l with
  | [] => []
  | Lit _ :: l' => spans_of l'
  | Span v :: l' => v :: spans_of l'
  end.

(** Replace the spans equal to [v] by [r]. *)
Definition replace_span (v r : string) (seg : segment) : segment :=
  match seg with
  | Lit c => Lit c
  | Span u => if String.eqb u v then Span r else Span u
  end.

(** Rewrite the spans that [chosen] selects. *)
Definition rewrite_if (chosen : string -> bool) (seg : segment) : segment :=
  match seg with
  | Lit c => Lit c
  | Span u => if chosen u then Span (rewritten u) else Span u
  end.

(** Reading on from the head of [l], two closing braces come before any
    line terminator and before the end. *)
Fixpoint closable (l : list segment) : bool :=
  match l with
  | [] => false
  | Span _ :: _ => true
  | Lit c :: l' =>
      match l' with
      | Lit d :: _ =>
          if Ascii.eqb c "}" && Ascii.eqb d "}" then true
          else if Regex.is_line_terminator c then false else closable l'
      | _ => if Regex.is_line_terminator c then false else closable l'
      end
  end.

(** A match of the regular expression would start at the head of [l]. *)
Definition opens (l : list segment) : bool :=
  match l with
  | Lit c :: Lit d :: l' => Ascii.eqb c "{" && Ascii.eqb d "{" && closable l'
  | Lit c :: Span _ :: _ => Ascii.eqb c "{"
  | _ => false
  end.

(** No match starts at a character that stands between the spans. *)
Fixpoint quiet_lits (l : list segment) : Prop :=
  match l with
  | [] => True
  | Lit c :: l' => opens l = false /\ quiet_lits l'
  | Span _ :: l' => quiet_lits l'
  end.

(** A span in braces: two opening braces, a body without opening brace,
    two closing braces. *)
Definition braced (u : string) : Prop :=
  exists body, u = ("{{" ++ body ++ "}}")%string /\ count_char "{" body = 0.

(** A span the regular expression matches as a whole, whatever follows. *)
Definition is_span (u : string) : Prop := Regex.regexVariable_at u = Some u.

(** A span of a text under rewriting: in braces, and either still as the
    regular expression matched it or already rewritten. *)
Definition ok_span (u : string) : Prop :=
  braced u /\ (is_span u \/ clean u = true).

(** [u] is one of the texts of [chosen]. *)
Definition among (chosen : list string) (u : string) : bool :=
  existsb (String.eqb u) chosen.

(** One round of the loop of [normalizeVariables]. *)
Definition rewrite_round (value variable : string) : string :=
  StringReplace.replaceAll value variable (rewritten variable).

(** No sibling is named like another sibling followed by an underscore and
    a positive number. *)
Definition suffix_free (siblings : list Resource.t) : Prop :=
  forall x y n,
    In x siblings -> In y siblings ->
    Resource.name x <> (Resource.name y ++ "_" ++ Str.of_nat (S n))%string.

(** A header without its identifier, and a parameter without its
    identifier. *)
Definition header_fields (h : Bruno.KeyValue.t) : string * string * option string * bool :=
  (Bruno.KeyValue.name h, Bruno.KeyValue.value h, Bruno.KeyValue.description h,
   Bruno.KeyValue.enabled h).

Definition param_fields (p : Bruno.Param.t)
  : string * option string * option string * string * bool :=
  (Bruno.Param.name p, Bruno.Param.value p, Bruno.Param.description p,
   Bruno.Param.type p, Bruno.Param.enabled p).

(** An [items] list that holds the requests of a request group twice:
    the folders of the group, then the items of its requests, then those
    requests once more. *)
Definition requests_twice (resources : list Resource.t) (items : list Bruno.item) : Prop :=
  exists group subfolders first second,
    In group resources
    /\ Resource._type group = "request_group"
    /\ items = subfolders ++ first ++ second
    /\ Forall (fun i => Bruno.Item.is_folder i = true) subfolders
    /\ Forall (fun i => Bruno.Item.is_folder i = false) (first ++ second)
    /\ List.map Bruno.Item.name first
       = displayNames (filter (is_child "request" (Some (Resource._id group))) resources)
    /\ List.map Bruno.Item.name second
       = displayNames (filter (is_child "request" (Some (Resource._id group))) resources).


End Vocabulary.

(** * Sample documents *)

Module Sample.

Import Insomnia.

(** A host for the examples. Its [JSON.parse] reads the literals [null],
    [true] and [false] and the empty containers and refuses every other
    text; the examples feed it nothing but these literals and texts that
    are not JSON. Its [JSON.stringify] prints what that parser reads. *)
Definition JSON_parse (text : string) : option json :=
  if String.eqb text "null" then Some JNull
  else if String.eqb text "true" then Some (JBool true)
  else if String.eqb text "false" then Some (JBool false)
  else if String.eqb text "{}" then Some (JObj [])
  else if String.eqb text "[]" then Some (JArr [])
  else None.

Definition JSON_stringify (v : json) : string :=
  match v with
  | JNull => "null"
  | JBool true => "true"
  | JBool false => "false"
  | JObj [] => "{}"
  | JArr [] => "[]"
  | _ => ""
  end.

(** A resource with a type, an identifier, a parent and a name only. *)
Definition bare (type id : string) (parentId : option string) (name : string)
  : Resource.t :=
  Resource.make type id parentId name None None [] [] [] None None None.

Definition environment (id : string) (parentId : option string) (name : string)
           (data : json) : Resource.t :=
  Resource.make "environment" id parentId name None None [] [] [] None None (Some data).

Definition request (id : string) (parentId : option string) (name : string)
           (authentication : option Authentication.t) (body : option Body.t)
  : Resource.t :=
  Resource.make "request" id parentId name (Some "{{ _.host }}/items") (Some "POST")
                [] [] [] authentication body None.

(** Four siblings named A, B, A, A, and two with distinct names. *)
Definition namesakes : list Resource.t :=
  [ bare "request" "req_1" (Some "wrk_1") "A"; bare "request" "req_2" (Some "wrk_1") "B";
    bare "request" "req_3" (Some "wrk_1") "A"; bare "request" "req_4" (Some "wrk_1") "A" ].

Definition strangers : list Resource.t :=
  [ bare "request" "req_1" (Some "wrk_1") "List"; bare "request" "req_2" (Some "wrk_1") "Get" ].

(** A bearer request with a JSON body whose MIME type has a parameter. *)
Definition bearer_json : Resource.t :=
  request "req_1" (Some "wrk_1") "Create"
          (Some (Authentication.make (Some "bearer") None None (Some "{{ _.api.token }}")))
          (Some (Body.make (Js.Value "application/json; charset=utf-8")
                           (Some "[{{ user.ids[0] }}]") [])).

(** A GraphQL request whose body text is not JSON. *)
Definition broken_graphql : Resource.t :=
  request "req_2" (Some "wrk_1") "Query" None
          (Some (Body.make (Js.Value "application/graphql") (Some "query { me }") [])).

(** A request whose body has [null] for its MIME type, and a document
    that holds it below its workspace. *)
Definition null_mime : Resource.t :=
  request "req_3" (Some "wrk_1") "Upload" None (Some (Body.make Js.Null None [])).

Definition null_mime_export : Document.t :=
  Document.of_list [ bare "workspace" "wrk_1" None "My API"; null_mime ].

(** A request without body. *)
Definition bodiless : Resource.t := request "req_4" (Some "wrk_1") "Ping" None None.

(** A tree declared leaves first: a request of the workspace, a request
    of the folder B, the folder B inside the folder A, a request of the
    folder A, and the folder A last. *)
Definition leaves_first : list Resource.t :=
  [ bare "request" "req_1" (Some "wrk_1") "Ping";
    bare "request" "req_2" (Some "fld_b") "Deep";
    bare "request_group" "fld_b" (Some "fld_a") "B";
    bare "request" "req_3" (Some "fld_a") "Shallow";
    bare "request_group" "fld_a" (Some "wrk_1") "A" ].

(** A base environment with nested data, a sub-environment of it, and a
    second environment of the workspace. *)
Definition environments : list Resource.t :=
  [ environment "env_base" (Some "wrk_1") "Base"
                (JObj [("a", JObj [("b", JNum (Num.make 1 eq_refl)); ("c", JNum (Num.make 2 eq_refl))])]);
    environment "env_other" (Some "wrk_1") "Other" (JObj [("host", JStr "{{ a.b }}")]);
    environment "env_sub" (Some "env_base") "Staging" (JObj [("flag", JBool true)]) ].

Definition rank (id : string) : nat :=
  if String.eqb id "wrk_1" then 2 else if String.eqb id "env_base" then 1 else 0.

(** A document with no workspace. *)
Definition no_workspace : Document.t :=
  Document.of_list [ bare "request_group" "fld_1" (Some "wrk_1") "Auth";
                  bare "request" "req_1" (Some "fld_1") "Login" ].

(** A document with no workspace whose [resources] end in a [null], and
    one whose [resources] are [null]. *)
Definition null_entry : Document.t :=
  Document.make
    (Document.Array [ Some (bare "request_group" "fld_1" (Some "wrk_1") "Auth"); None ]).

Definition null_resources : Document.t := Document.make Document.NoArray.

(** A workspace whose sub-environment holds a [null] two levels down. *)
Definition plain_base : Resource.t :=
  environment "env_base" (Some "wrk_1") "Base" (JObj [("host", JStr "localhost")]).

Definition null_sub : Resource.t :=
  environment "env_sub" (Some "env_base") "Staging"
              (JObj [("db", JObj [("password", JNull)])]).

Definition null_below : Document.t :=
  Document.of_list [ bare "workspace" "wrk_1" None "My API"; plain_base; null_sub ].

(** A workspace and an environment with a [null] that is parented to
    another workspace, absent from the document. *)
Definition orphan : Resource.t :=
  environment "env_9" (Some "wrk_2") "Elsewhere" (JObj [("token", JNull)]).

Definition null_elsewhere : Document.t :=
  Document.of_list [ bare "workspace" "wrk_1" None "My API"; orphan ].


(** What the sample parser delivers has no [resources] property. *)
Definition as_export (parsedData : json) : Document.t :=
  Document.make Document.Missing.

(** The YAML loader of that host. The core schema reads the literals of
    the sample parser as [JSON.parse] does; the only other text the
    examples feed it is [[1, 2], a flow sequence that is never closed,
    which is no YAML and no JSON. *)
Definition jsyaml_load (text : string) : option json := JSON_parse text.

(** A stage that hands the collection on. *)
Definition pass (collection : Bruno.Collection.t) : promise Bruno.Collection.t :=
  Fulfilled collection.


End Sample.

(** * Properties *)

(** ** The name de-duplicator *)

Section Deduplicator.

Import Insomnia.

Lemma count_from (item : Resource.t) (index : nat) :
  forall (l : list Resource.t) (acc k : nat),
    Arr.reduce_from
      (fun nameSuffix otherItem otherIndex =>
         if String.eqb (Resource.name otherItem) (Resource.name item)
            && Nat.ltb otherIndex index
         then S nameSuffix else nameSuffix) acc k l
    = acc + length (earlier_namesakes item (index - k) l).
Proof.
  unfold earlier_namesakes.
  induction l as [|x l IH]; intros acc k; simpl.
  - now rewrite firstn_nil, Nat.add_0_r.
  - rewrite IH. destruct (Nat.ltb_spec k index) as [Hlt|Hge].
    + replace (index - k) with (S (index - S k)) by lia. simpl.
      destruct (String.eqb (Resource.name x) (Resource.name item)); simpl; lia.
    + replace (index - k) with 0 by lia. replace (index - S k) with 0 by lia.
      rewrite andb_false_r. simpl. reflexivity.
Qed.

Lemma addSuffix_rule (item : Resource.t) (index : nat) (allItems : list Resource.t) :
  addSuffixToDuplicateName item index allItems
  = match length (earlier_namesakes item index allItems) with
    | O => Resource.name item
    | S _ as n => (Resource.name item ++ "_" ++ Str.of_nat n)%string
    end.
Proof.
  unfold addSuffixToDuplicateName, Arr.reduce. rewrite count_from.
  rewrite Nat.sub_0_r. simpl.
  now destruct (length (earlier_namesakes item index allItems)).
Qed.

Lemma no_namesake_before (x : Resource.t) (before : list Resource.t) :
  ~ In (Resource.name x) (List.map Resource.name before) ->
  filter (fun other => String.eqb (Resource.name other) (Resource.name x)) before = [].
Proof.
  induction before as [|y before IH]; simpl; intros Hnot; [reflexivity|].
  destruct (String.eqb_spec (Resource.name y) (Resource.name x)) as [E|_].
  - exfalso. apply Hnot. now left.
  - apply IH. intros Hin. apply Hnot. now right.
Qed.

Lemma displayNames_distinct_from :
  forall (l before : list Resource.t),
    NoDup (List.map Resource.name (before ++ l)) ->
    Arr.map_from (fun item index => addSuffixToDuplicateName item index (before ++ l))
                 (length before) l
    = List.map Resource.name l.
Proof.
  induction l as [|x l IH]; intros before Hnd; simpl; [reflexivity|].
  f_equal.
  - rewrite addSuffix_rule. unfold earlier_namesakes.
    rewrite firstn_app, firstn_all, Nat.sub_diag. simpl. rewrite app_nil_r.
    rewrite no_namesake_before; [reflexivity|].
    rewrite map_app in Hnd. simpl in Hnd.
    now apply NoDup_remove_2 in Hnd; rewrite in_app_iff in Hnd; intuition.
  - specialize (IH (before ++ [x])).
    rewrite <- app_assoc, length_app in IH. simpl in IH.
    rewrite Nat.add_1_r in IH. apply IH. exact Hnd.
Qed.

(** C2. The de-duplicator returns the source name when no earlier
    sibling has it and otherwise the name, an underscore and the number
    of earlier siblings with exactly that name; siblings named A, B, A, A
    are displayed as A, B, A_1, A_2; pairwise distinct names are
    displayed unchanged. *)
Theorem addSuffixToDuplicateName_spec :
  (forall (item : Resource.t) (index : nat) (allItems : list Resource.t),
      addSuffixToDuplicateName item index allItems
      = match length (earlier_namesakes item index allItems) with
        | O => Resource.name item
        | S _ as n => (Resource.name item ++ "_" ++ Str.of_nat n)%string
        end)
  /\ (forall siblings : list Resource.t,
         List.map Resource.name siblings = ["A"; "B"; "A"; "A"] ->
         displayNames siblings = ["A"; "B"; "A_1"; "A_2"])
  /\ (forall siblings : list Resource.t,
         NoDup (List.map Resource.name siblings) ->
         displayNames siblings = List.map Resource.name siblings).
Proof.
  split; [exact addSuffix_rule|]. split.
  - intros siblings Hnames.
    destruct siblings as [|a [|b [|c [|d [|e l]]]]]; try discriminate.
    simpl in Hnames. injection Hnames as Ha Hb Hc Hd.
    unfold displayNames, Arr.map. simpl.
    rewrite !addSuffix_rule. unfold earlier_namesakes. simpl.
    rewrite Ha, Hb, Hc, Hd. reflexivity.
  - intros siblings Hnd. unfold displayNames, Arr.map.
    exact (displayNames_distinct_from siblings [] Hnd).
Qed.

End Deduplicator.

(** ** Running computations *)

Section Running.

Lemma bind_normal {A B : Type} (c : M A) (k : A -> M B) (w w' : world) (a : A) :
  c w = (Normal a, w') -> bind c k w = k a w'.
Proof. unfold bind. now intros ->. Qed.

Lemma bind_throw {A B : Type} (c : M A) (k : A -> M B) (w w' : world) (e : exn) :
  c w = (Throw e, w') -> bind c k w = (Throw e, w').
Proof. unfold bind. now intros ->. Qed.

Lemma bind_normal_inv {A B : Type} (c : M A) (k : A -> M B) (w w' : world) (b : B) :
  bind c k w = (Normal b, w') ->
  exists a w1, c w = (Normal a, w1) /\ k a w1 = (Normal b, w').
Proof.
  unfold bind. destruct (c w) as [[a|e] w1]; intros H; [eauto|discriminate].
Qed.

Lemma uuid_run (w : world) :
  uuid w = (Normal (next_uid w), World (S (next_uid w)) (settled w) (entered w)).
Proof. reflexivity. Qed.

Lemma mapM_from_uuid {A B : Type} (build : nat -> A -> B) :
  forall (l : list A) (index : nat) (w : world),
    Arr.mapM_from (fun x _ => uid <- uuid ;; ret (build uid x)) index l w
    = (Normal (numbered build (next_uid w) l),
       World (next_uid w + length l) (settled w) (entered w)).
Proof.
  unfold numbered.
  induction l as [|x l IH]; intros index w; simpl.
  - rewrite Nat.add_0_r. now destruct w.
  - unfold bind at 1. unfold bind at 1. simpl.
    unfold bind at 1. rewrite IH. simpl.
    now rewrite Nat.add_succ_r.
Qed.

Lemma mapM_uuid {A B : Type} (build : nat -> A -> B) (l : list A) (w : world) :
  Arr.mapM (fun x _ => uid <- uuid ;; ret (build uid x)) l w
  = (Normal (numbered build (next_uid w) l),
     World (next_uid w + length l) (settled w) (entered w)).
Proof. apply mapM_from_uuid. Qed.

Lemma numbered_length {A B : Type} (build : nat -> A -> B) (first : nat) (l : list A) :
  length (numbered build first l) = length l.
Proof.
  unfold numbered. now rewrite length_map, length_combine, length_seq, Nat.min_id.
Qed.

Lemma mapM_from_inv {A B : Type} (f : A -> nat -> M B) :
  forall (l : list A) (index : nat) (w w' : world) (out : list B),
    Arr.mapM_from f index l w = (Normal out, w') ->
    Forall2 (fun x y => exists i w1 w2, f x i w1 = (Normal y, w2)) l out.
Proof.
  induction l as [|x l IH]; intros index w w' out H; simpl in H.
  - injection H as <- _. constructor.
  - apply bind_normal_inv in H as (y & w1 & Hy & H).
    apply bind_normal_inv in H as (ys & w2 & Hys & H).
    injection H as <- _. constructor; eauto.
Qed.

Lemma mapM_from_total {A B : Type} (f : A -> nat -> M B) (l : list A) :
  Forall (fun x => forall i w, exists y w', f x i w = (Normal y, w')) l ->
  forall (index : nat) (w : world),
    exists ys w', Arr.mapM_from f index l w = (Normal ys, w').
Proof.
  induction 1 as [|x l Hx _ IH]; intros index w; simpl.
  - now exists [], w.
  - destruct (Hx index w) as (y & w1 & Hy).
    destruct (IH (S index) w1) as (ys & w2 & Hys).
    exists (y :: ys), w2.
    erewrite bind_normal by exact Hy. erewrite bind_normal by exact Hys. reflexivity.
Qed.



Lemma reduceM_throws {A B : Type} (f : B -> A -> M B) (l : list A) :
  Exists (fun x => forall acc w, exists e w', f acc x w = (Throw e, w')) l ->
  forall (acc : B) (w : world), exists e w', Arr.reduceM f acc l w = (Throw e, w').
Proof.
  induction l as [|x l IH]; intros Hex acc w; [inversion Hex|]. simpl.
  destruct (f acc x w) as [[r|e] w1] eqn:Hx.
  - erewrite bind_normal by exact Hx.
    apply Exists_cons in Hex as [Hhead|Htail].
    + destruct (Hhead acc w) as (e & w' & He). congruence.
    + exact (IH Htail r w1).
  - exists e, w1. now erewrite bind_throw by exact Hx.
Qed.

Lemma reduceM_pieces {A B : Type} (P : A -> list B -> Prop) (f : list B -> A -> M (list B)) :
  (forall acc x w r w', f acc x w = (Normal r, w') -> exists piece, r = acc ++ piece /\ P x piece) ->
  forall (l : list A) (acc : list B) (w w' : world) (out : list B),
    Arr.reduceM f acc l w = (Normal out, w') ->
    exists pieces, Forall2 P l pieces /\ out = acc ++ concat pieces.
Proof.
  intros Hf. induction l as [|x l IH]; intros acc w w' out H; simpl in H.
  - injection H as <- _. exists []. split; [constructor|]. simpl. now rewrite app_nil_r.
  - apply bind_normal_inv in H as (r & w1 & Hr & H).
    apply Hf in Hr as (piece & -> & Hp).
    apply IH in H as (pieces & Hall & ->).
    exists (piece :: pieces). split; [now constructor|]. simpl. now rewrite app_assoc.
Qed.

Lemma flat_map_concat {A B : Type} (f : A -> list B) (l : list A) :
  flat_map f l = concat (map f l).
Proof.
  induction l as [|x l IH]; simpl; [reflexivity|now rewrite IH].
Qed.

Lemma keeps_ret {A : Type} (a : A) : keeps_promise (ret a).
Proof. intros w r w' H. now injection H as _ <-. Qed.

Lemma keeps_throw {A : Type} (e : exn) : keeps_promise (@throw A e).
Proof. intros w r w' H. now injection H as _ <-. Qed.

Lemma keeps_uuid : keeps_promise uuid.
Proof. intros w r w' H. now injection H as _ <-. Qed.

Lemma keeps_enter (b : builder) : keeps_promise (enter b).
Proof. intros w r w' H. now injection H as _ <-. Qed.

Lemma keeps_bind {A B : Type} (c : M A) (k : A -> M B) :
  keeps_promise c -> (forall a, keeps_promise (k a)) -> keeps_promise (bind c k).
Proof.
  intros Hc Hk w r w' H. unfold bind in H.
  destruct (c w) as [[a|e] w1] eqn:E.
  - rewrite (Hk a _ _ _ H). exact (Hc _ _ _ E).
  - injection H as _ <-. exact (Hc _ _ _ E).
Qed.

Lemma keeps_mapM_from {A B : Type} (f : A -> nat -> M B) :
  (forall x i, keeps_promise (f x i)) ->
  forall (l : list A) (index : nat), keeps_promise (Arr.mapM_from f index l).
Proof.
  intros Hf. induction l as [|x l IH]; intros index; simpl.
  - apply keeps_ret.
  - apply keeps_bind; [apply Hf|]. intros y.
    apply keeps_bind; [apply IH|]. intros ys. apply keeps_ret.
Qed.

Lemma keeps_reduceM {A B : Type} (f : B -> A -> M B) :
  (forall acc x, keeps_promise (f acc x)) ->
  forall (l : list A) (acc : B), keeps_promise (Arr.reduceM f acc l).
Proof.
  intros Hf. induction l as [|x l IH]; intros acc; simpl.
  - apply keeps_ret.
  - apply keeps_bind; [apply Hf|]. intros r. apply IH.
Qed.

End Running.

(** ** The request transformer *)

Section RequestFacts.
Import Insomnia.
Variable JSON_parse : string -> option json.
Variable JSON_stringify : json -> string.

Lemma count_char_cons (c d : ascii) (s : string) :
  count_char c (String d s) = (if Ascii.eqb d c then 1 else 0) + count_char c s.
Proof. reflexivity. Qed.

(** The part before the first [;] is the base MIME type, and the only
    one. *)
Lemma base_of_before_first (mimeType base : string) :
  base_of mimeType base <-> base = Str.before_first ";" mimeType.
Proof.
  split.
  - intros [Hnone Hsplit]. revert mimeType Hsplit.
    induction base as [|c base IH]; intros mimeType Hsplit.
    + destruct Hsplit as [->|(parameters & ->)]; reflexivity.
    + rewrite count_char_cons in Hnone.
      destruct (Ascii.eqb c ";") eqn:Hc; [discriminate|].
      destruct Hsplit as [->|(parameters & ->)]; cbn [append Str.before_first];
        rewrite Hc; f_equal.
      * apply IH; [exact Hnone|now left].
      * apply IH; [exact Hnone|right; now exists parameters].
  - intros ->. induction mimeType as [|c m [IH1 IH2]].
    + split; [reflexivity|now left].
    + cbn [Str.before_first]. destruct (Ascii.eqb_spec c ";") as [->|Hc].
      * split; [reflexivity|]. right. now exists m.
      * split.
        { rewrite count_char_cons. apply Ascii.eqb_neq in Hc. now rewrite Hc. }
        destruct IH2 as [E|(parameters & E)].
        -- left. now rewrite <- E.
        -- right. exists parameters. cbn [append]. now rewrite <- E.
Qed.

Lemma null_mimeType_get (request : Resource.t) :
  get_body_mimeType request = None <-> null_mimeType request.
Proof.
  unfold get_body_mimeType, null_mimeType. split.
  - destruct (Resource.body request) as [b|]; [|discriminate].
    destruct (Body.mimeType b) eqn:E; try discriminate. intros _. now exists b.
  - intros (b & -> & ->). reflexivity.
Qed.

Lemma no_mimeType_get (request : Resource.t) :
  no_mimeType request -> get_body_mimeType request = Some "".
Proof.
  unfold get_body_mimeType. intros [->|(b & -> & ->)]; reflexivity.
Qed.

(** The body block throws on a [null] MIME type and returns on every
    other; it leaves the promise and the builder log alone. *)
Lemma body_runs (request : Resource.t) (w : world) :
  match get_body_mimeType request with
  | None =>
      transformInsomniaRequestItem_body JSON_parse JSON_stringify request w
      = (Throw (TypeError "Cannot read properties of null (reading 'split')"), w)
  | Some _ =>
      exists typed_body w',
        transformInsomniaRequestItem_body JSON_parse JSON_stringify request w
        = (Normal typed_body, w')
        /\ settled w' = settled w /\ entered w' = entered w
  end.
Proof.
  unfold transformInsomniaRequestItem_body.
  destruct (get_body_mimeType request) as [text|]; [|reflexivity].
  repeat match goal with |- context [if ?b then _ else _] => destruct b end;
    try (eexists; eexists; split; [reflexivity|split; reflexivity]).
  all: erewrite bind_normal by apply mapM_uuid;
    eexists; eexists; split; [reflexivity|split; reflexivity].
Qed.

(** The transformer up to its body block: the item is made of the
    identifiers drawn so far and of what the body block returns, and what
    the body block throws is thrown on. *)
Lemma transform_runs (request : Resource.t) (index : nat) (allRequests : list Resource.t)
      (w : world) :
  let after_headers := S (next_uid w) + length (Resource.headers request) in
  let after_query := after_headers + length (Resource.parameters request) in
  let first := after_query + length (Resource.pathParameters request) in
  transformInsomniaRequestItem JSON_parse JSON_stringify request index allRequests w
  = match transformInsomniaRequestItem_body JSON_parse JSON_stringify request
            (World first (settled w) (entered w)) with
    | (Normal typed_body, w') =>
        (Normal
           (Bruno.Leaf (next_uid w)
              (addSuffixToDuplicateName request index allRequests)
              (fst typed_body)
              (Bruno.Request.make (normalizeVariables (Resource.url request))
                 (Resource.method request)
                 (transformInsomniaRequestItem_auth request)
                 (numbered (fun uid header =>
                              Bruno.KeyValue.make uid (Pair.name header)
                                (normalizeVariables (Pair.value header))
                                (Pair.description header) (negb (Pair.disabled header)))
                           (S (next_uid w)) (Resource.headers request))
                 (numbered (fun uid param =>
                              Bruno.Param.make uid (Pair.name param)
                                (Some (normalizeVariables (Pair.value param)))
                                (Pair.description param) "query"
                                (negb (Pair.disabled param)))
                           after_headers (Resource.parameters request)
                  ++ numbered (fun uid param =>
                                 Bruno.Param.make uid (Pair.name param) (Pair.value param)
                                   (Some "") "path" true)
                              after_query (Resource.pathParameters request))
                 (snd typed_body))), w')
    | (Throw e, w') => (Throw e, w')
    end.
Proof.
  intros after_headers after_query first.
  unfold transformInsomniaRequestItem.
  erewrite bind_normal by apply uuid_run.
  do 3 (erewrite bind_normal by apply mapM_uuid). cbn [next_uid settled entered].
  unfold bind at 1. fold after_headers. fold after_query. fold first.
  destruct (transformInsomniaRequestItem_body JSON_parse JSON_stringify request
              (World first (settled w) (entered w))) as [[tb|e] w']; reflexivity.
Qed.

(** What the transformer returns is a request item. *)
Lemma transform_inv (request : Resource.t) (index : nat) (allRequests : list Resource.t)
      (w w' : world) (item : Bruno.item) :
  transformInsomniaRequestItem JSON_parse JSON_stringify request index allRequests w
  = (Normal item, w') ->
  exists type request',
    item = Bruno.Leaf (next_uid w) (addSuffixToDuplicateName request index allRequests)
                      type request'
    /\ Bruno.Request.auth request' = transformInsomniaRequestItem_auth request.
Proof.
  rewrite transform_runs. cbv zeta.
  destruct (transformInsomniaRequestItem_body _ _ _ _) as [[tb|e] w1]; [|discriminate].
  intros H. injection H as <- _. eexists. eexists. split; reflexivity.
Qed.

(** The transformer returns unless the MIME type is [null]. *)
Lemma transform_returns (request : Resource.t) (index : nat) (allRequests : list Resource.t)
      (w : world) :
  ~ null_mimeType request ->
  exists item w',
    transformInsomniaRequestItem JSON_parse JSON_stringify request index allRequests w
    = (Normal item, w').
Proof.
  intros Hmime. rewrite transform_runs. cbv zeta.
  match goal with
  | |- context [transformInsomniaRequestItem_body _ _ _ ?w1] =>
      pose proof (body_runs request w1) as Hbody
  end.
  destruct (get_body_mimeType request) eqn:Hget.
  - destruct Hbody as (tb & w' & -> & _). eexists. eexists. reflexivity.
  - elim Hmime. now apply null_mimeType_get.
Qed.

Lemma transform_throws (request : Resource.t) (index : nat) (allRequests : list Resource.t)
      (w : world) :
  null_mimeType request ->
  exists w',
    transformInsomniaRequestItem JSON_parse JSON_stringify request index allRequests w
    = (Throw (TypeError "Cannot read properties of null (reading 'split')"), w').
Proof.
  intros Hmime. apply null_mimeType_get in Hmime. rewrite transform_runs. cbv zeta.
  match goal with
  | |- context [transformInsomniaRequestItem_body _ _ _ ?w1] =>
      pose proof (body_runs request w1) as Hbody
  end.
  rewrite Hmime in Hbody. rewrite Hbody. eexists. reflexivity.
Qed.

(** C6. The authentication mapping is total. For every request the
    authentication block gives mode [basic] with rewritten username and
    password for type [basic], mode [bearer] with a rewritten token for
    type [bearer], and mode [none] with [basic] and [bearer] null for
    every other type, an absent one included; that record is the [auth]
    of the item whenever the transformer returns one, which it does
    unless the MIME type of the body is [null]. *)
Theorem auth_mapping_total (request : Resource.t) (index : nat)
        (allRequests : list Resource.t) (w : world) :
  (forall a,
      Resource.authentication request = Some a ->
      Authentication.type a = Some "basic" ->
      transformInsomniaRequestItem_auth request
      = Bruno.Auth.make "basic"
          (Some (Bruno.Basic.make (normalizeVariables (Authentication.username a))
                                  (normalizeVariables (Authentication.password a))))
          None None)
  /\ (forall a,
         Resource.authentication request = Some a ->
         Authentication.type a = Some "bearer" ->
         transformInsomniaRequestItem_auth request
         = Bruno.Auth.make "bearer" None
             (Some (Bruno.Bearer.make (normalizeVariables (Authentication.token a))))
             None)
  /\ (authentication_type request <> Some "basic" ->
      authentication_type request <> Some "bearer" ->
      transformInsomniaRequestItem_auth request = Bruno.Auth.make "none" None None None)
  /\ (forall item w',
         transformInsomniaRequestItem JSON_parse JSON_stringify request index allRequests w
         = (Normal item, w') ->
         exists uid name type request',
           item = Bruno.Leaf uid name type request'
           /\ Bruno.Request.auth request' = transformInsomniaRequestItem_auth request)
  /\ (~ null_mimeType request ->
      exists item w',
        transformInsomniaRequestItem JSON_parse JSON_stringify request index allRequests w
        = (Normal item, w')).
Proof.
  unfold transformInsomniaRequestItem_auth, get_authentication, authentication_type.
  repeat match goal with |- _ /\ _ => split end.
  - intros a -> ->.
    now destruct (Authentication.username a), (Authentication.password a).
  - intros a -> ->. now destruct (Authentication.token a).
  - destruct (Resource.authentication request) as [a|]; [|reflexivity].
    intros Hbasic Hbearer.
    destruct (Authentication.type a) as [t|]; [|reflexivity].
    destruct (String.eqb_spec t "basic") as [->|_]; [now elim Hbasic|].
    destruct (String.eqb_spec t "bearer") as [->|_]; [now elim Hbearer|].
    reflexivity.
  - intros item w' H. apply transform_inv in H as (type & request' & -> & Hauth).
    now exists (next_uid w), (addSuffixToDuplicateName request index allRequests),
               type, request'.
  - apply transform_returns.
Qed.

Lemma body_table (request : Resource.t) (b : Body.t) (mimeType : string)
      (w w' : world) (typed_body : string * Bruno.Body.t) :
  Resource.body request = Some b ->
  Body.mimeType b = Js.Value mimeType ->
  transformInsomniaRequestItem_body JSON_parse JSON_stringify request w
  = (Normal typed_body, w') ->
  body_as_tabulated JSON_parse JSON_stringify b mimeType (next_uid w)
                    (fst typed_body) (snd typed_body).
Proof.
  intros Hbody Hmime Hrun base Hbase. apply base_of_before_first in Hbase.
  unfold transformInsomniaRequestItem_body, get_body_mimeType, body_text, body_params
    in Hrun.
  rewrite Hbody, Hmime in Hrun. rewrite <- Hbase in Hrun. clear Hbase. cbv zeta.
  repeat match goal with |- _ /\ _ => split end.
  1-7: intros ->; simpl in Hrun.
  - now injection Hrun as <- _.
  - erewrite bind_normal in Hrun by apply mapM_uuid. now injection Hrun as <- _.
  - erewrite bind_normal in Hrun by apply mapM_uuid. now injection Hrun as <- _.
  - now injection Hrun as <- _.
  - now injection Hrun as <- _.
  - now injection Hrun as <- _.
  - injection Hrun as <- _. simpl. split; [reflexivity|].
    eexists. split; [reflexivity|]. unfold graphql_of, parseGraphQL. split.
    + now intros ->.
    + now intros properties ->.
  - intros Hunknown.
    assert (Hneq : forall t, In t known_mimeTypes -> String.eqb base t = false).
    { intros t Hin. apply String.eqb_neq. intros ->. now apply Hunknown. }
    rewrite !Hneq in Hrun by (simpl; tauto).
    simpl in Hrun. now injection Hrun as <- _.
Qed.

(** C5, amended. For every request whose MIME type is a text, the item
    type and the body are those of the table: each of the seven known
    base MIME types gives its mode and its payload, [application/graphql]
    also turns the item into a graphql-request, a body text that is not
    JSON giving an empty query and empty variables, and every other base
    MIME type gives mode [none] with no payload. A request without MIME
    type gets mode [none] with no payload too. *)
Theorem body_mapping_total (request : Resource.t) (index : nat)
        (allRequests : list Resource.t) (w : world) :
  (forall b mimeType,
      Resource.body request = Some b ->
      Body.mimeType b = Js.Value mimeType ->
      exists uid name type request' w',
        transformInsomniaRequestItem JSON_parse JSON_stringify request index allRequests w
        = (Normal (Bruno.Leaf uid name type request'), w')
        /\ body_as_tabulated JSON_parse JSON_stringify b mimeType
             (S (next_uid w) + length (Resource.headers request)
              + length (Resource.parameters request)
              + length (Resource.pathParameters request))
             type (Bruno.Request.body request'))
  /\ (no_mimeType request ->
      exists uid name request' w',
        transformInsomniaRequestItem JSON_parse JSON_stringify request index allRequests w
        = (Normal (Bruno.Leaf uid name "http-request" request'), w')
        /\ Bruno.Request.body request' = empty_body).
Proof.
  split.
  - intros b mimeType Hbody Hmime. rewrite transform_runs. cbv zeta.
    match goal with
    | |- context [transformInsomniaRequestItem_body _ _ _ ?w1] =>
        pose proof (body_runs request w1) as Hrun;
        pose proof (fun tb w' => @body_table request b mimeType w1 w' tb Hbody Hmime)
          as Htable
    end.
    unfold get_body_mimeType in Hrun. rewrite Hbody, Hmime in Hrun.
    destruct Hrun as (tb & w' & E & _). rewrite E.
    do 5 eexists. split; [reflexivity|]. exact (Htable tb w' E).
  - intros Hnone. rewrite transform_runs. cbv zeta.
    unfold transformInsomniaRequestItem_body. rewrite (no_mimeType_get Hnone).
    cbn. do 4 eexists. split; reflexivity.
Qed.

End RequestFacts.

(** ** The tree builder *)

Section TreeFacts.

Import Insomnia.

Variable JSON_parse : string -> option json.
Variable JSON_stringify : json -> string.

Lemma partitioned_ordered (level : list Bruno.item) :
  partitioned level -> folders_before_requests level.
Proof.
  intros (folders & leaves & -> & Hf & Hl) i j folder leaf Hi Hfolder Hj Hleaf.
  destruct (Nat.lt_ge_cases i (length folders)) as [Hin|Hout].
  - destruct (Nat.lt_ge_cases j (length folders)) as [Hjn|Hjout]; [|lia].
    rewrite nth_error_app1 in Hj by exact Hjn.
    apply nth_error_In in Hj. rewrite Forall_forall in Hf.
    rewrite (Hf _ Hj) in Hleaf. discriminate.
  - rewrite nth_error_app2 in Hi by exact Hout.
    apply nth_error_In in Hi. rewrite Forall_forall in Hl.
    rewrite (Hl _ Hi) in Hfolder. discriminate.
Qed.

(** What [requests.map(transformInsomniaRequestItem)] returns holds
    requests only. *)
Lemma leaves_only (requests all : list Resource.t) (w w' : world) (out : list Bruno.item) :
  Arr.mapM (fun request index =>
              transformInsomniaRequestItem JSON_parse JSON_stringify request index all)
           requests w = (Normal out, w') ->
  Forall (fun i => Bruno.Item.is_folder i = false) out /\ flat_map levels out = [].
Proof.
  intros H. apply mapM_from_inv in H.
  induction H as [|x y l out' (i & w1 & w2 & Hy) _ [IH1 IH2]]; [now split|].
  apply transform_inv in Hy as (type & request' & -> & _).
  simpl. split; [now constructor|exact IH2].
Qed.

Lemma partitioned_app_leaves (level leaves : list Bruno.item) :
  partitioned level ->
  Forall (fun i => Bruno.Item.is_folder i = false) leaves ->
  partitioned (level ++ leaves).
Proof.
  intros (fs & ls & -> & Hf & Hl) Hleaves.
  exists fs, (ls ++ leaves). rewrite app_assoc. split; [reflexivity|].
  split; [exact Hf|]. now apply Forall_app.
Qed.

Lemma createFolderStructure_partitioned :
  forall (stack : nat) (resources : list Resource.t) (parentId : option string)
         (w w' : world) (root : list Bruno.item),
    createFolderStructure JSON_parse JSON_stringify stack resources parentId w
    = (Normal root, w') ->
    Forall partitioned (all_levels root).
Proof.
  induction stack as [|stack IH]; intros resources parentId w w' root H; simpl in H.
  - discriminate.
  - apply bind_normal_inv in H as ([] & w1 & _ & H).
    apply bind_normal_inv in H as (folders & w2 & Hfolders & H).
    apply bind_normal_inv in H as (leaves & w3 & Hleaves & H).
    injection H as <- _.
    apply leaves_only in Hleaves as [Hleaf Hflat].
    apply mapM_from_inv in Hfolders.
    assert (Forall (fun i => Bruno.Item.is_folder i = true) folders
            /\ Forall partitioned (flat_map levels folders)) as [Hfold Hdeep].
    { clear Hleaf Hflat.
      induction Hfolders as [|g y l out' (i & v1 & v2 & Hy) _ [IH1 IH2]]; [now split|].
      apply bind_normal_inv in Hy as (uid & v3 & _ & Hy).
      apply bind_normal_inv in Hy as (below & v4 & Hbelow & Hy).
      apply bind_normal_inv in Hy as (inner & v5 & Hinner & Hy).
      injection Hy as <- _.
      apply IH in Hbelow. apply leaves_only in Hinner as [Hin1 Hin2].
      unfold all_levels in Hbelow. apply Forall_cons_iff in Hbelow as [Hb1 Hb2].
      split; [now constructor|]. simpl.
      constructor; [now apply partitioned_app_leaves|].
      rewrite flat_map_app, Hin2, app_nil_r.
      apply Forall_app. now split. }
    unfold all_levels. constructor.
    + exists folders, leaves. now repeat split.
    + now rewrite flat_map_app, Hflat, app_nil_r.
Qed.

(** C8. Whatever the resource list and its order, in every [items] list
    the tree builder emits, the root level included, every folder stands
    strictly before every request. *)
Theorem folders_precede_requests
        (stack : nat) (resources : list Resource.t) (parentId : option string)
        (w w' : world) (root : list Bruno.item) :
  createFolderStructure JSON_parse JSON_stringify stack resources parentId w
  = (Normal root, w') ->
  forall level, In level (all_levels root) -> folders_before_requests level.
Proof.
  intros H level Hin. apply partitioned_ordered.
  apply createFolderStructure_partitioned in H.
  rewrite Forall_forall in H. now apply H.
Qed.

Lemma keeps_transform (request : Resource.t) (index : nat) (all : list Resource.t) :
  keeps_promise (transformInsomniaRequestItem JSON_parse JSON_stringify request index all).
Proof.
  intros w r w' H. rewrite transform_runs in H. cbv zeta in H.
  match type of H with
  | context [transformInsomniaRequestItem_body _ _ _ ?w1] =>
      pose proof (body_runs JSON_parse JSON_stringify request w1) as Hbody
  end.
  destruct (get_body_mimeType request).
  - destruct Hbody as (tb & w1 & E & Hs & _). rewrite E in H.
    injection H as _ <-. exact Hs.
  - rewrite Hbody in H. now injection H as _ <-.
Qed.

Lemma keeps_createFolderStructure :
  forall (stack : nat) (resources : list Resource.t) (parentId : option string),
    keeps_promise (createFolderStructure JSON_parse JSON_stringify stack resources parentId).
Proof.
  induction stack as [|stack IH]; intros resources parentId; simpl.
  - apply keeps_throw.
  - apply keeps_bind; [apply keeps_enter|]. intros _.
    apply keeps_bind.
    + apply keeps_mapM_from. intros folder i.
      apply keeps_bind; [apply keeps_uuid|]. intros uid.
      apply keeps_bind; [apply IH|]. intros below.
      apply keeps_bind; [|intros; apply keeps_ret].
      apply keeps_mapM_from. intros; apply keeps_transform.
    + intros folders.
      apply keeps_bind; [|intros; apply keeps_ret].
      apply keeps_mapM_from. intros; apply keeps_transform.
Qed.

Lemma is_child_inv (kind : string) (parentId : option string) (resource : Resource.t) :
  is_child kind parentId resource = true ->
  Resource._type resource = kind
  /\ Resource.parentId resource = parentId.
Proof.
  unfold is_child, same_id. intros H. apply andb_prop in H as [Hk Hp].
  apply String.eqb_eq in Hk. split; [exact Hk|].
  destruct (Resource.parentId resource) as [p|], parentId as [q|]; try discriminate.
  - apply String.eqb_eq in Hp. now subst.
  - reflexivity.
Qed.

Lemma createFolderStructure_total (rank : string -> nat) (resources : list Resource.t) :
  ranked "request_group" rank resources ->
  mimeTypes_not_null resources ->
  forall (stack : nat) (parent : string) (w : world),
    rank parent < stack ->
    exists root w',
      createFolderStructure JSON_parse JSON_stringify stack resources (Some parent) w
      = (Normal root, w').
Proof.
  intros Hrank Hmime. induction stack as [|stack IH]; intros parent w Hlt; [lia|].
  assert (Hleaves : forall (parentId : option string) (v : world),
             exists leaves v',
               Arr.mapM (fun request index =>
                           transformInsomniaRequestItem JSON_parse JSON_stringify
                             request index
                             (filter (is_child "request" parentId) resources))
                        (filter (is_child "request" parentId) resources) v
               = (Normal leaves, v')).
  { intros parentId v. apply mapM_from_total. apply Forall_forall.
    intros request Hin i v0. apply filter_In in Hin as [Hin Hchild].
    apply is_child_inv in Hchild as [Hkind _].
    apply transform_returns. now apply Hmime. }
  simpl. erewrite bind_normal by reflexivity.
  match goal with
  | |- context [bind ?c _ ?w0] =>
      assert (exists folders w1, c w0 = (Normal folders, w1)) as (folders & w1 & E1)
  end; [|erewrite bind_normal by exact E1].
  { apply mapM_from_total. apply Forall_forall. intros folder Hin i v.
    apply filter_In in Hin as [Hin Hchild]. apply is_child_inv in Hchild as [Hkind Hparent].
    erewrite bind_normal by apply uuid_run.
    edestruct (IH (Resource._id folder)) as (below & v1 & E).
    { specialize (Hrank _ _ Hin Hkind Hparent). lia. }
    erewrite bind_normal by exact E.
    edestruct Hleaves as (leaves & v2 & E2). erewrite bind_normal by exact E2.
    eexists. eexists. reflexivity. }
  edestruct Hleaves as (leaves & w2 & E2). erewrite bind_normal by exact E2.
  eexists. eexists. reflexivity.
Qed.

(** X3. On a forest of request groups none of whose requests has a
    [null] MIME type, a stack deeper than the rank of the parent is
    enough for the tree builder to return. *)
Lemma createFolderStructure_returns (rank : string -> nat) (resources : list Resource.t) :
  ranked "request_group" rank resources ->
  mimeTypes_not_null resources ->
  forall (stack : nat) (parent : string) (w : world),
    rank parent < stack ->
    exists root w',
      createFolderStructure JSON_parse JSON_stringify stack resources (Some parent) w
      = (Normal root, w').
Proof.
  intros Hrank Hmime stack parent w Hlt.
  destruct (@createFolderStructure_total rank resources Hrank Hmime stack parent w Hlt)
    as (root & w' & E).
  now exists root, w'.
Qed.

End TreeFacts.

(** ** The environment builder *)

Section EnvironmentFacts.

Import Insomnia.

Lemma json_null_dec (v : json) : {v = JNull} + {v <> JNull}.
Proof. destruct v; (now left) || (right; discriminate). Qed.

Lemma createEnvironments_preorder :
  forall (stack : nat) (resources : list Resource.t) (parentId : option string)
         (w w' : world) (out : list Bruno.Environment.t),
    createEnvironments stack resources parentId w = (Normal out, w') ->
    exists forest,
      env_forest stack resources parentId = Some forest
      /\ Forall2 made_for (flat_map preorder forest) out.
Proof.
  induction stack as [|stack IH]; intros resources parentId w w' out H; simpl in H.
  - discriminate.
  - apply bind_normal_inv in H as ([] & w1 & _ & H).
    apply (reduceM_pieces
             (fun environment piece =>
                exists children,
                  env_forest stack resources (Some (Resource._id environment)) = Some children
                  /\ Forall2 made_for (preorder (EnvNode environment children)) piece))
      in H.
    + destruct H as (pieces & Hall & ->). simpl.
      induction Hall as [|environment piece l pieces' (children & Hc & Hr) _ IHall].
      * exists []. split; [reflexivity|constructor].
      * destruct IHall as (forest & Hforest & Hrender).
        exists (EnvNode environment children :: forest). simpl.
        rewrite Hc, Hforest. split; [reflexivity|].
        change (Forall2 made_for (preorder (EnvNode environment children)
                                 ++ flat_map preorder forest)
                        (piece ++ concat pieces')).
        now apply Forall2_app.
    + clear H. intros acc environment v r v' H.
      apply bind_normal_inv in H as (variables & v1 & Hvars & H).
      apply bind_normal_inv in H as (uid & v2 & _ & H).
      apply bind_normal_inv in H as (below & v3 & Hbelow & H).
      injection H as <- _. eexists. split; [reflexivity|].
      apply IH in Hbelow as (children & Hc & Hr).
      exists children. split; [exact Hc|]. simpl. constructor; [|exact Hr].
      reflexivity.
Qed.

Lemma variable_of_entry_outcome (entry : string * json) (w : world) :
  (snd entry = JNull ->
   variable_of_entry entry w
   = (Throw toString_error, World (S (next_uid w)) (settled w) (entered w)))
  /\ (snd entry <> JNull ->
      exists v, variable_of_entry entry w
                = (Normal v, World (S (next_uid w)) (settled w) (entered w))).
Proof.
  unfold variable_of_entry. erewrite bind_normal by apply uuid_run.
  split.
  - now intros ->.
  - intros Hv. destruct (snd entry); try (eexists; reflexivity). now elim Hv.
Qed.

Lemma environment_variables_throws (environment : Resource.t) (w : world) :
  has_null_value environment ->
  exists w', environment_variables environment w = (Throw toString_error, w').
Proof.
  unfold environment_variables, Arr.mapM, has_null_value.
  generalize 0 as index. revert w.
  induction (Flat.flatten (data_or_empty environment)) as [|entry l IH];
    intros w index Hex; [inversion Hex|]. simpl.
  destruct (variable_of_entry_outcome entry w) as [Hnull Hvalue].
  destruct (json_null_dec (snd entry)) as [Hv|Hv].
  - eexists. erewrite bind_throw by exact (Hnull Hv). reflexivity.
  - destruct (Hvalue Hv) as (v & E). erewrite bind_normal by exact E.
    apply Exists_cons in Hex as [Hhead|Htail]; [contradiction|].
    edestruct (IH (World (S (next_uid w)) (settled w) (entered w)) (S index) Htail)
      as (w' & E').
    exists w'. now erewrite bind_throw by exact E'.
Qed.


Lemma keeps_environment_variables (environment : Resource.t) :
  keeps_promise (environment_variables environment).
Proof.
  apply keeps_mapM_from. intros entry _. unfold variable_of_entry.
  apply keeps_bind; [apply keeps_uuid|]. intros uid.
  destruct (Js.toString (snd entry)); [apply keeps_ret|apply keeps_throw].
Qed.

Lemma keeps_createEnvironments :
  forall (stack : nat) (resources : list Resource.t) (parentId : option string),
    keeps_promise (createEnvironments stack resources parentId).
Proof.
  induction stack as [|stack IH]; intros resources parentId; simpl.
  - apply keeps_throw.
  - apply keeps_bind; [apply keeps_enter|]. intros _.
    apply keeps_reduceM. intros result environment.
    apply keeps_bind; [apply keeps_environment_variables|]. intros variables.
    apply keeps_bind; [apply keeps_uuid|]. intros uid.
    apply keeps_bind; [apply IH|]. intros below. apply keeps_ret.
Qed.

(** An environment with a [null] below [parentId] makes the environment
    builder throw, whatever the stack. *)
Lemma createEnvironments_throws (resources : list Resource.t) :
  forall (parentId : option string) (environment : Resource.t),
    env_below resources parentId environment ->
    has_null_value environment ->
    forall (stack : nat) (w : world),
      exists e w', createEnvironments stack resources parentId w = (Throw e, w').
Proof.
  induction 1 as [parentId environment Hin Hchild
                 |parentId parent environment Hin Hchild _ IH]; intros Hnull stack w.
  - destruct stack as [|stack]; simpl; [now exists stack_overflow, w|].
    erewrite bind_normal by reflexivity.
    apply reduceM_throws. apply Exists_exists. exists environment.
    split; [now apply filter_In|]. intros acc v.
    destruct (environment_variables_throws v Hnull) as (v' & E).
    exists toString_error, v'. now erewrite bind_throw by exact E.
  - destruct stack as [|stack]; simpl; [now exists stack_overflow, w|].
    erewrite bind_normal by reflexivity.
    apply reduceM_throws. apply Exists_exists. exists parent.
    split; [now apply filter_In|]. intros acc v.
    destruct (environment_variables parent v) as [[variables|e] v1] eqn:E.
    + erewrite bind_normal by exact E. erewrite bind_normal by apply uuid_run.
      edestruct (IH Hnull stack) as (e & v2 & E2).
      exists e, v2. erewrite bind_throw by exact E2. reflexivity.
    + exists e, v1. now erewrite bind_throw by exact E.
Qed.



End EnvironmentFacts.

(** ** The conversion *)

Section ConversionFacts.

Import Insomnia.

Variable JSON_parse : string -> option json.
Variable JSON_stringify : json -> string.

Lemma find_workspace_none (resources : list Resource.t) :
  Forall (fun resource => Resource._type resource <> "workspace") resources ->
  find (has_type "workspace") resources = None.
Proof.
  induction 1 as [|resource l Hr _ IH]; simpl; [reflexivity|].
  unfold has_type at 1. now apply String.eqb_neq in Hr as ->.
Qed.

Lemma objects_of_list (resources : list Resource.t) :
  objects (List.map Some resources) = resources.
Proof. induction resources as [|r l IH]; simpl; [reflexivity|now rewrite IH]. Qed.

Lemma entries_of_objects (entries : list (option Resource.t)) :
  ~ In None entries -> entries = List.map Some (objects entries).
Proof.
  induction entries as [|[r|] l IH]; intros Hnone; simpl.
  - reflexivity.
  - f_equal. apply IH. intros Hin. apply Hnone. now right.
  - elim Hnone. now left.
Qed.

(** Over objects, [find] and [filter] with a callback that reads [_type]
    are the plain ones. *)
Lemma findM_objects (test : Resource.t -> bool) (resources : list Resource.t) (w : world) :
  Arr.findM (on_entry test) (List.map Some resources) w
  = (Normal (option_map Some (find test resources)), w).
Proof.
  induction resources as [|r l IH]; simpl; [reflexivity|].
  unfold bind at 1. simpl. destruct (test r); [reflexivity|exact IH].
Qed.

Lemma filterM_objects (test : Resource.t -> bool) (resources : list Resource.t) (w : world) :
  Arr.filterM (on_entry test) (List.map Some resources) w
  = (Normal (List.map Some (filter test resources)), w).
Proof.
  induction resources as [|r l IH]; simpl; [reflexivity|].
  unfold bind at 1. simpl. unfold bind at 1. rewrite IH.
  now destruct (test r).
Qed.

(** A [null] among the entries makes [filter] throw. *)
Lemma filterM_null (test : Resource.t -> bool) (entries : list (option Resource.t))
      (w : world) :
  In None entries ->
  Arr.filterM (on_entry test) entries w
  = (Throw (TypeError "Cannot read properties of null (reading '_type')"), w).
Proof.
  induction entries as [|[r|] l IH]; intros Hin; simpl.
  - destruct Hin.
  - destruct Hin as [Hin|Hin]; [discriminate|].
    unfold bind at 1. simpl. unfold bind at 1. now rewrite (IH Hin).
  - reflexivity.
Qed.

(** [find] returns an object it accepted, or nothing after it has read
    every entry, or throws at a [null]; the world stays as it is. *)
Lemma findM_outcome (test : Resource.t -> bool) (entries : list (option Resource.t))
      (w : world) :
  (exists resource,
      Arr.findM (on_entry test) entries w = (Normal (Some (Some resource)), w))
  \/ (Arr.findM (on_entry test) entries w = (Normal None, w) /\ ~ In None entries)
  \/ Arr.findM (on_entry test) entries w
     = (Throw (TypeError "Cannot read properties of null (reading '_type')"), w).
Proof.
  induction entries as [|[r|] l IH]; simpl.
  - right. left. split; [reflexivity|tauto].
  - unfold bind at 1. simpl. destruct (test r).
    + left. now exists r.
    + destruct IH as [(r' & E)|[[E Hnone]|E]].
      * left. now exists r'.
      * right. left. split; [exact E|]. intros [H|H]; [discriminate|tauto].
      * right. right. exact E.
  - right. right. reflexivity.
Qed.

(** The conversion of a document whose [resources] is no array. *)
Lemma conversion_no_array (stack : nat) (data : Document.t) (w : world) :
  Document.resources data = Document.NoArray ->
  settled (parseInsomniaCollection JSON_parse JSON_stringify stack data w)
  = Some (Rejected parsing_failed)
  /\ entered (parseInsomniaCollection JSON_parse JSON_stringify stack data w) = entered w.
Proof.
  intros Hno. unfold parseInsomniaCollection, executor, try_catch.
  erewrite bind_normal by apply uuid_run.
  erewrite bind_normal by reflexivity.
  rewrite Hno. split; reflexivity.
Qed.

(** The conversion of a list of objects: [find] and [filter] run without
    a throw. *)
Lemma conversion_of_entries (stack : nat) (data : Document.t) (w : world)
      (entries : list (option Resource.t)) :
  Document.resources data = Document.Missing /\ entries = []
  \/ Document.resources data = Document.Array entries ->
  ~ In None entries ->
  let w0 := World (S (next_uid w)) None (entered w) in
  let resources := objects entries in
  let environments := filter (has_type "environment") resources in
  let requestsAndFolders :=
    filter (fun resource => has_type "request" resource || has_type "request_group" resource)
           resources in
  match find (has_type "workspace") resources with
  | None =>
      settled (parseInsomniaCollection JSON_parse JSON_stringify stack data w)
      = Some (Rejected not_found)
      /\ entered (parseInsomniaCollection JSON_parse JSON_stringify stack data w)
         = entered w
  | Some workspace =>
      match createEnvironments stack environments (Some (Resource._id workspace)) w0 with
      | (Throw _, _) =>
          settled (parseInsomniaCollection JSON_parse JSON_stringify stack data w)
          = Some (Rejected parsing_failed)
      | (Normal envs, w1) =>
          match createFolderStructure JSON_parse JSON_stringify stack requestsAndFolders
                  (Some (Resource._id workspace)) w1 with
          | (Throw _, _) =>
              settled (parseInsomniaCollection JSON_parse JSON_stringify stack data w)
              = Some (Rejected parsing_failed)
          | (Normal items, _) =>
              settled (parseInsomniaCollection JSON_parse JSON_stringify stack data w)
              = Some (Resolved (Bruno.Collection.make (Resource.name workspace) (next_uid w)
                                  "1" items envs))
          end
      end
  end.
Proof.
  intros Hdata Hnone w0 resources environments requestsAndFolders.
  assert (Hentries : entries = List.map Some resources) by now apply entries_of_objects.
  unfold parseInsomniaCollection, executor, try_catch.
  erewrite bind_normal by apply uuid_run.
  erewrite bind_normal by reflexivity.
  cbn [next_uid settled entered Bruno.Collection.uid Bruno.Collection.version].
  change (World (S (next_uid w)) None (entered w)) with w0.
  assert (Hget : (match Document.resources data with
                  | Document.Missing => ret []
                  | Document.NoArray =>
                      throw (TypeError "insomniaResources.find is not a function")
                  | Document.Array entries => ret entries
                  end) w0 = (Normal entries, w0)).
  { destruct Hdata as [[-> ->]| ->]; reflexivity. }
  erewrite bind_normal by exact Hget. rewrite Hentries.
  erewrite bind_normal by apply findM_objects.
  destruct (find (has_type "workspace") resources) as [workspace|]; simpl option_map; cbv iota.
  - erewrite bind_normal by reflexivity. erewrite bind_normal by reflexivity.
    erewrite bind_normal by apply filterM_objects.
    erewrite bind_normal by apply filterM_objects.
    rewrite !objects_of_list.
    fold environments requestsAndFolders.
    destruct (createEnvironments stack environments (Some (Resource._id workspace)) w0)
      as [[envs|e] w1] eqn:E.
    + pose proof (keeps_createEnvironments _ _ _ _ E) as K1. simpl in K1.
      erewrite bind_normal by exact E.
      destruct (createFolderStructure JSON_parse JSON_stringify stack requestsAndFolders
                  (Some (Resource._id workspace)) w1) as [[items|e] w2] eqn:E2.
      * pose proof (keeps_createFolderStructure _ _ _ _ _ _ E2) as K2.
        erewrite bind_normal by exact E2.
        unfold resolve, settle. rewrite K2, K1. reflexivity.
      * pose proof (keeps_createFolderStructure _ _ _ _ _ _ E2) as K2.
        erewrite bind_throw by exact E2.
        unfold reject, settle. rewrite K2, K1. reflexivity.
    + pose proof (keeps_createEnvironments _ _ _ _ E) as K1. simpl in K1.
      erewrite bind_throw by exact E.
      unfold reject, settle. rewrite K1. reflexivity.
  - split; reflexivity.
Qed.

(** A [null] among the entries of [resources] makes [find] or the first
    [filter] throw. *)
Lemma conversion_null_entry (stack : nat) (data : Document.t) (w : world)
      (entries : list (option Resource.t)) :
  Document.resources data = Document.Array entries ->
  In None entries ->
  settled (parseInsomniaCollection JSON_parse JSON_stringify stack data w)
  = Some (Rejected parsing_failed)
  /\ entered (parseInsomniaCollection JSON_parse JSON_stringify stack data w) = entered w.
Proof.
  intros Hdata Hnull. unfold parseInsomniaCollection, executor, try_catch.
  erewrite bind_normal by apply uuid_run.
  erewrite bind_normal by reflexivity.
  cbn [next_uid settled entered]. rewrite Hdata.
  erewrite bind_normal by reflexivity.
  match goal with
  | |- context [bind (Arr.findM ?p entries) _ ?w0] =>
      destruct (findM_outcome (has_type "workspace") entries w0)
        as [(workspace & E)|[[E Hnone]|E]]
  end.
  - erewrite bind_normal by exact E.
    erewrite bind_normal by reflexivity. erewrite bind_normal by reflexivity.
    erewrite bind_throw by (now apply filterM_null).
    split; reflexivity.
  - now elim Hnone.
  - erewrite bind_throw by exact E. split; reflexivity.
Qed.

Lemma conversion_without_workspace (stack : nat) (data : Document.t) (w : world) :
  (Document.resources data = Document.Missing
   \/ exists resources,
       Document.resources data = Document.Array (List.map Some resources)
       /\ Forall (fun resource => Resource._type resource <> "workspace") resources) ->
  settled (parseInsomniaCollection JSON_parse JSON_stringify stack data w)
  = Some (Rejected not_found)
  /\ entered (parseInsomniaCollection JSON_parse JSON_stringify stack data w) = entered w.
Proof.
  intros [Hmissing|(resources & Hdata & Hnone)].
  - assert (Hno : ~ In None (@nil (option Resource.t))) by (intros []).
    exact (@conversion_of_entries stack data w [] (or_introl (conj Hmissing eq_refl)) Hno).
  - apply find_workspace_none in Hnone.
    assert (Hno : ~ In None (List.map Some resources)).
    { intros Hin. apply in_map_iff in Hin as (r & Hr & _). discriminate. }
    pose proof (@conversion_of_entries stack data w _ (or_intror Hdata) Hno) as H.
    cbv zeta in H. rewrite objects_of_list, Hnone in H. exact H.
Qed.

(** C9, amended. A document whose [resources] property is absent, or is
    a list of resource objects none of which is of type workspace, is
    rejected with the message that the collection was not found, not with
    the message of a parsing error; neither builder is entered, and the
    promise is not resolved. *)
Theorem missing_workspace_rejects (stack : nat) (data : Document.t) (w : world) :
  (Document.resources data = Document.Missing
   \/ exists resources,
       Document.resources data = Document.Array (List.map Some resources)
       /\ Forall (fun resource => Resource._type resource <> "workspace") resources) ->
  settled (parseInsomniaCollection JSON_parse JSON_stringify stack data w)
  = Some (Rejected not_found)
  /\ entered (parseInsomniaCollection JSON_parse JSON_stringify stack data w) = entered w.
Proof.
  intros Hdata. now apply conversion_without_workspace.
Qed.

Lemma env_below_environments (resources : list Resource.t) (parentId : option string)
      (environment : Resource.t) :
  env_below resources parentId environment ->
  env_below (filter (has_type "environment") resources) parentId environment.
Proof.
  assert (Hin : forall r p, In r resources -> is_child "environment" p r = true ->
                            In r (filter (has_type "environment") resources)).
  { intros r p Hr Hc. apply filter_In. split; [exact Hr|].
    unfold is_child in Hc. apply andb_prop in Hc as [Hk _]. exact Hk. }
  induction 1 as [p e He Hc|p parent e Hp Hc _ IH].
  - apply env_child; eauto.
  - eapply env_descendant; eauto.
Qed.

Lemma null_entry_dec (entries : list (option Resource.t)) :
  In None entries \/ ~ In None entries.
Proof.
  induction entries as [|[r|] l [IH|IH]]; simpl.
  - right. tauto.
  - left. now right.
  - right. intros [H|H]; [discriminate|tauto].
  - left. now left.
  - left. now left.
Qed.

(** C10, amended. When the resources of the document hold a workspace
    and an environment below it (through environments only) whose
    flattened data holds a [null], the text coercion of that environment
    throws a TypeError and the conversion is rejected with the message of
    a parsing error, whatever the stack. *)
Theorem null_environment_value_rejects
        (stack : nat) (data : Document.t) (w : world)
        (entries : list (option Resource.t)) (workspace environment : Resource.t) :
  Document.resources data = Document.Array entries ->
  find (has_type "workspace") (objects entries) = Some workspace ->
  env_below (objects entries) (Some (Resource._id workspace)) environment ->
  has_null_value environment ->
  (forall v, exists v',
      environment_variables environment v
      = (Throw (TypeError "Cannot read properties of null (reading 'toString')"), v'))
  /\ settled (parseInsomniaCollection JSON_parse JSON_stringify stack data w)
     = Some (Rejected parsing_failed).
Proof.
  intros Hdata Hfind Hbelow Hnull. split.
  - intros v. exact (environment_variables_throws v Hnull).
  - destruct (null_entry_dec entries) as [Hentry|Hentry].
    + now apply (@conversion_null_entry stack data w entries).
    + apply env_below_environments in Hbelow.
      pose proof (@conversion_of_entries stack data w entries (or_intror Hdata) Hentry)
        as H.
      cbv zeta in H. rewrite Hfind in H.
      match type of H with
      | context [createEnvironments ?s ?rs ?p ?w0] =>
          destruct (createEnvironments_throws Hbelow Hnull s w0) as (e & w1 & E)
      end.
      rewrite E in H. exact H.
Qed.

(** Whatever the document, the promise ends rejected with one of the
    two messages, or resolved. *)
Lemma conversion_settled (stack : nat) (data : Document.t) (w : world) :
  (exists message,
      settled (parseInsomniaCollection JSON_parse JSON_stringify stack data w)
      = Some (Rejected message))
  \/ (exists collection,
         settled (parseInsomniaCollection JSON_parse JSON_stringify stack data w)
         = Some (Resolved collection)).
Proof.
  destruct (Document.resources data) as [| |entries] eqn:Hdata.
  - assert (Hno : ~ In None (@nil (option Resource.t))) by (intros []).
    pose proof (@conversion_of_entries stack data w [] (or_introl (conj Hdata eq_refl)) Hno)
      as H.
    cbv zeta in H. simpl in H. destruct H as [-> _]. left. eexists. reflexivity.
  - destruct (@conversion_no_array stack data w Hdata) as [-> _].
    left. eexists. reflexivity.
  - destruct (null_entry_dec entries) as [Hentry|Hentry].
    + destruct (@conversion_null_entry stack data w entries Hdata Hentry) as [-> _].
      left. eexists. reflexivity.
    + pose proof (@conversion_of_entries stack data w entries (or_intror Hdata) Hentry)
        as H.
      cbv zeta in H.
      destruct (find (has_type "workspace") (objects entries)) as [workspace|].
      * destruct (createEnvironments _ _ _ _) as [[envs|e] w1];
          [|rewrite H; left; eexists; reflexivity].
        destruct (createFolderStructure _ _ _ _ _ _) as [[items|e] w2];
          rewrite H; [right|left]; eexists; reflexivity.
      * destruct H as [-> _]. left. eexists. reflexivity.
Qed.

(** X4. The promise of a conversion is settled when the executor has run,
    whatever the document and the stack: the conversion resolves or
    rejects, and is never left pending. *)
Theorem conversion_always_settles (stack : nat) (data : Document.t) (w : world) :
  settled (parseInsomniaCollection JSON_parse JSON_stringify stack data w) <> None.
Proof.
  destruct (conversion_settled stack data w) as [(message & ->)|(collection & ->)];
    discriminate.
Qed.

End ConversionFacts.

(** ** The end-to-end scenario and the variable rewriter on given inputs *)

Section Scenarios.

Import Insomnia.

Variable JSON_parse : string -> option json.
Variable JSON_stringify : json -> string.

(** C1, on the code. The conversion of the minimal export resolves, with
    the environment as the claim has it, and with the folder Auth holding
    the request item twice: once from the nested call of the tree builder
    for the folder and once more from the folder's own [requests.map]. *)
Theorem minimal_export_request_twice (stack : nat) :
  settled (parseInsomniaCollection JSON_parse JSON_stringify (S (S stack))
             minimal_export boot)
  = Some (Resolved
            (Bruno.Collection.make "My API" 0 "1"
               [Bruno.Folder 3 "Auth" [login_item 4; login_item 5]]
               [Bruno.Environment.make 2 "Base"
                  [Bruno.EnvVar.make 1 "token" "x" true false "text"]])).
Proof. reflexivity. Qed.

End Scenarios.

(** C3, on the code. Two spans of one text are not rewritten
    independently: the text of the first span occurs inside the second, the
    first replacement rewrites that occurrence too, and the second span, no
    longer found, keeps its blanks. The spans of the text are as the claim
    reads them. *)
Theorem normalizeVariables_spans_interfere :
  Regex.match_regexVariable "{{ a }} {{ b {{ a }}" = ["{{ a }}"; "{{ b {{ a }}"]
  /\ Regex.replaceAll_regexToUnderscore (Regex.replaceAll_regexToRemove "{{ b {{ a }}")
     = "{{b{{a}}"
  /\ normalizeVariables (Some "{{ a }} {{ b {{ a }}") = "{{a}} {{ b {{a}}".
Proof. repeat split. Qed.

(** C4, on the code. The rewriter gives [{{foo_bar_baz_0}}] for the
    claim's example and the empty text for an absent or empty input, and it
    is not idempotent: rewriting the output of the input below changes it
    again. *)
Theorem normalizeVariables_not_idempotent :
  normalizeVariables (Some "{{ foo.bar_baz[0] }}") = "{{foo_bar_baz_0}}"
  /\ normalizeVariables None = ""
  /\ normalizeVariables (Some "") = ""
  /\ normalizeVariables (Some "{{ a }} {{ b {{ a }}") = "{{a}} {{ b {{a}}"
  /\ normalizeVariables (Some "{{a}} {{ b {{a}}") = "{{a}} {{b{{a}}".
Proof. repeat split. Qed.

(** ** The variable rewriter on plain spans *)

(** The loop of [normalizeVariables] replaces each matched text all over
    the value. This part shows that the loop rewrites every span where it
    stands when no span holds a dollar sign or an opening brace of its own;
    the two theorems on given inputs above show what it does otherwise. *)

Section StringFacts.

Lemma append_assoc (a b c : string) : ((a ++ b) ++ c = a ++ (b ++ c))%string.
Proof. induction a as [|x a IH]; simpl; [reflexivity|now rewrite IH]. Qed.

Lemma append_nil_r (a : string) : (a ++ EmptyString = a)%string.
Proof. induction a as [|x a IH]; simpl; [reflexivity|now rewrite IH]. Qed.

Lemma length_append (a b : string) :
  String.length (a ++ b) = String.length a + String.length b.
Proof. induction a as [|x a IH]; simpl; [reflexivity|now rewrite IH]. Qed.

Lemma append_inv_head (a b c : string) : (a ++ b = a ++ c)%string -> b = c.
Proof. induction a as [|x a IH]; simpl; intros H; [exact H|]. injection H as H. auto. Qed.

Lemma prefix_append (p rest : string) : String.prefix p (p ++ rest) = true.
Proof.
  induction p as [|x p IH]; simpl; [now destruct rest|].
  destruct (ascii_dec x x) as [_|N]; [exact IH|now elim N].
Qed.

Lemma prefix_cons (a b : ascii) (p s : string) :
  String.prefix (String a p) (String b s)
  = if Ascii.eqb a b then String.prefix p s else false.
Proof.
  cbn [String.prefix]. destruct (ascii_dec a b) as [->|N].
  - now rewrite Ascii.eqb_refl.
  - now apply Ascii.eqb_neq in N as ->.
Qed.

Lemma prefix_nil (s : string) : String.prefix EmptyString s = true.
Proof. now destruct s. Qed.

Lemma prefix_inv (p s : string) :
  String.prefix p s = true -> exists rest, s = (p ++ rest)%string.
Proof.
  revert p. induction s as [|y s IH]; intros [|x p] H; simpl in H.
  - now exists EmptyString.
  - discriminate.
  - now exists (String y s).
  - destruct (ascii_dec x y) as [->|_]; [|discriminate].
    destruct (IH p H) as (rest & ->). now exists rest.
Qed.

(** Two prefixes of one text: one is a prefix of the other. *)
Lemma append_eq_split (a b c d : string) :
  (a ++ b = c ++ d)%string ->
  exists x, (a = c ++ x /\ d = x ++ b)%string \/ (c = a ++ x /\ b = x ++ d)%string.
Proof.
  revert c. induction a as [|y a IH]; intros c H; simpl in H.
  - exists c. right. now split.
  - destruct c as [|z c]; simpl in H.
    + exists (String y a). left. now split.
    + injection H as -> H. destruct (IH c H) as (x & [[-> ->]|[-> ->]]); exists x.
      * left. now split.
      * right. now split.
Qed.

Lemma drop_append (a rest : string) : Str.drop (String.length a) (a ++ rest) = rest.
Proof. induction a as [|x a IH]; simpl; [now destruct rest|exact IH]. Qed.

Lemma count_char_append (c : ascii) (a b : string) :
  count_char c (a ++ b) = count_char c a + count_char c b.
Proof. induction a as [|x a IH]; simpl; [reflexivity|rewrite IH; lia]. Qed.

Lemma clean_append (a b : string) : clean (a ++ b) = clean a && clean b.
Proof.
  induction a as [|x a IH]; simpl; [reflexivity|]. rewrite IH. now rewrite andb_assoc.
Qed.

End StringFacts.

Section RegexFacts.

Lemma prefix2_inv (a b c : ascii) (s : string) :
  String.prefix (String a (String b EmptyString)) (String c s) = true ->
  c = a /\ exists rest, s = String b rest.
Proof.
  intros H. apply prefix_inv in H as (rest & E). simpl in E.
  injection E as -> ->. split; [reflexivity|now exists rest].
Qed.

Lemma lazy_close_here (rest : string) :
  Regex.lazy_close ("}}" ++ rest) = Some ("}}", rest).
Proof.
  change ("}}" ++ rest)%string with (String "}" (String "}" rest)).
  cbn [Regex.lazy_close].
  change (String "}" (String "}" rest)) with ("}}" ++ rest)%string.
  now rewrite prefix_append.
Qed.

Lemma lazy_close_split (s m rest : string) :
  Regex.lazy_close s = Some (m, rest) -> s = (m ++ rest)%string.
Proof.
  revert m rest. induction s as [|c s IH]; intros m rest H; [discriminate|].
  cbn [Regex.lazy_close] in H.
  destruct (String.prefix "}}" (String c s)) eqn:Hp.
  - apply prefix2_inv in Hp as (-> & r & ->). now injection H as <- <-.
  - destruct (Regex.is_line_terminator c); [discriminate|].
    destruct (Regex.lazy_close s) as [[m' rest']|]; [|discriminate].
    injection H as <- <-. simpl. now rewrite (IH m' rest' eq_refl).
Qed.

Lemma lazy_close_closes (s m rest : string) :
  Regex.lazy_close s = Some (m, rest) -> exists body, m = (body ++ "}}")%string.
Proof.
  revert m rest. induction s as [|c s IH]; intros m rest H; [discriminate|].
  cbn [Regex.lazy_close] in H.
  destruct (String.prefix "}}" (String c s)).
  - injection H as <- _. now exists EmptyString.
  - destruct (Regex.is_line_terminator c); [discriminate|].
    destruct (Regex.lazy_close s) as [[m' rest']|]; [|discriminate].
    injection H as <- _. destruct (IH m' rest' eq_refl) as (body & ->).
    now exists (String c body).
Qed.

(** What a lazy match consumed does not depend on what follows it. *)
Lemma lazy_close_stable (s m rest : string) :
  Regex.lazy_close s = Some (m, rest) ->
  forall rest', Regex.lazy_close (m ++ rest') = Some (m, rest').
Proof.
  revert m rest. induction s as [|c s IH]; intros m rest H rest'; [discriminate|].
  cbn [Regex.lazy_close] in H.
  destruct (String.prefix "}}" (String c s)) eqn:Hp.
  - injection H as <- <-. apply lazy_close_here.
  - destruct (Regex.is_line_terminator c) eqn:Ht; [discriminate|].
    destruct (Regex.lazy_close s) as [[m' rest0]|] eqn:Hs; [|discriminate].
    injection H as <- <-.
    pose proof (lazy_close_split _ Hs) as ->.
    change (String c m' ++ rest')%string with (String c (m' ++ rest')).
    cbn [Regex.lazy_close]. rewrite Ht, (IH m' rest0 eq_refl rest').
    destruct (String.prefix "}}" (String c (m' ++ rest'))) eqn:Hp'; [|reflexivity].
    exfalso. apply prefix2_inv in Hp' as (-> & r & E).
    assert (exists t, (m' ++ rest0)%string = String "}" t) as (t & Et).
    { destruct m' as [|d m'']; simpl in E |- *.
      - destruct (lazy_close_closes _ Hs) as (body & Hb). destruct body; discriminate Hb.
      - injection E as -> _. eauto. }
    rewrite Et in Hp.
    change (String "}" (String "}" t)) with ("}}" ++ t)%string in Hp.
    rewrite prefix_append in Hp. discriminate.
Qed.

(** A lazy match stops at the first pair of closing braces at the latest. *)
Lemma lazy_close_bound (x y m rest : string) :
  Regex.lazy_close (x ++ "}}" ++ y) = Some (m, rest) ->
  String.length m <= String.length x + 2.
Proof.
  revert m rest. induction x as [|c x IH]; intros m rest H.
  - change (EmptyString ++ "}}" ++ y)%string with ("}}" ++ y)%string in H.
    rewrite lazy_close_here in H. injection H as <- _. simpl. lia.
  - change (String c x ++ "}}" ++ y)%string with (String c (x ++ "}}" ++ y)) in H.
    cbn [Regex.lazy_close] in H.
    destruct (String.prefix "}}" (String c (x ++ "}}" ++ y))).
    + injection H as <- _. simpl. lia.
    + destruct (Regex.is_line_terminator c); [discriminate|].
      destruct (Regex.lazy_close (x ++ "}}" ++ y)) as [[m' rest']|] eqn:Hs; [|discriminate].
      injection H as <- _. specialize (IH m' rest' eq_refl). simpl. lia.
Qed.

Lemma dirty_line_terminator (c : ascii) :
  Regex.is_line_terminator c = true -> dirty c = true.
Proof.
  unfold Regex.is_line_terminator, dirty, Regex.is_space.
  destruct (nat_of_ascii c) as [|[|[|[|[|[|[|[|[|[|[|[|[|[|n]]]]]]]]]]]]]];
    try discriminate; reflexivity.
Qed.

(** Clean text in front of two closing braces is matched lazily. *)
Lemma lazy_close_clean (x y : string) :
  clean x = true -> exists m rest, Regex.lazy_close (x ++ "}}" ++ y) = Some (m, rest).
Proof.
  induction x as [|c x IH]; intros Hc.
  - change (EmptyString ++ "}}" ++ y)%string with ("}}" ++ y)%string.
    rewrite lazy_close_here. eauto.
  - change (String c x ++ "}}" ++ y)%string with (String c (x ++ "}}" ++ y)).
    cbn [Regex.lazy_close]. simpl in Hc. apply andb_prop in Hc as [Hd Hx].
    destruct (String.prefix "}}" (String c (x ++ "}}" ++ y))); [eauto|].
    destruct (Regex.is_line_terminator c) eqn:Ht.
    + apply dirty_line_terminator in Ht. rewrite Ht in Hd. discriminate.
    + destruct (IH Hx) as (m & rest & ->). eauto.
Qed.

Lemma at_inv (s m : string) :
  Regex.regexVariable_at s = Some m ->
  exists body rest,
    m = ("{{" ++ body ++ "}}")%string
    /\ s = (m ++ rest)%string
    /\ Regex.lazy_close (body ++ "}}" ++ rest) = Some ((body ++ "}}")%string, rest).
Proof.
  unfold Regex.regexVariable_at. intros H.
  destruct (String.prefix "{{" s) eqn:Hp; [|discriminate].
  apply prefix_inv in Hp as (t & ->).
  change (Str.drop 2 ("{{" ++ t)) with t in H.
  destruct (Regex.lazy_close t) as [[m' rest]|] eqn:Hs; [|discriminate].
  injection H as <-.
  destruct (lazy_close_closes _ Hs) as (body & ->).
  pose proof (lazy_close_split _ Hs) as ->.
  exists body, rest. split; [reflexivity|]. split.
  - simpl. now rewrite !append_assoc.
  - rewrite append_assoc in Hs. exact Hs.
Qed.

Lemma at_stable (s m : string) :
  Regex.regexVariable_at s = Some m ->
  forall rest, Regex.regexVariable_at (m ++ rest) = Some m.
Proof.
  intros H rest'. destruct (at_inv _ H) as (body & rest & -> & _ & Hs).
  unfold Regex.regexVariable_at.
  change (("{{" ++ body ++ "}}") ++ rest')%string
    with ("{{" ++ ((body ++ "}}") ++ rest'))%string.
  rewrite prefix_append.
  change (Str.drop 2 ("{{" ++ (body ++ "}}") ++ rest')) with ((body ++ "}}") ++ rest')%string.
  rewrite <- append_assoc in Hs.
  now rewrite (lazy_close_stable _ Hs rest').
Qed.

Lemma at_is_span (s m : string) : Regex.regexVariable_at s = Some m -> is_span m.
Proof.
  intros H. unfold is_span. rewrite <- (append_nil_r m) at 1. exact (at_stable _ H _).
Qed.

(** Two spans that start at the same place are the same span. *)
Lemma span_prefix_unique (u v x y : string) :
  is_span u -> is_span v -> (u ++ x = v ++ y)%string -> u = v.
Proof.
  intros Hu Hv E.
  pose proof (at_stable _ Hu x) as Hux. pose proof (at_stable _ Hv y) as Hvy.
  rewrite E in Hux. congruence.
Qed.

End RegexFacts.

Section RewritingFacts.

Lemma remove_keep (c : ascii) (t : string) :
  Ascii.eqb c "_" = false ->
  Regex.is_space c || Ascii.eqb c "]" = false ->
  Regex.replaceAll_regexToRemove (String c t)
  = String c (Regex.replaceAll_regexToRemove t).
Proof.
  intros Hu Hk. cbn [Regex.replaceAll_regexToRemove]. rewrite Hu, Hk.
  now destruct t.
Qed.

(** The cases of the removal pass, as an induction principle. *)
Lemma remove_cases (P : string -> string -> Prop) :
  P EmptyString EmptyString ->
  (forall rest,
      P rest (Regex.replaceAll_regexToRemove rest) ->
      P (String "_" (String "." rest)) (Regex.replaceAll_regexToRemove rest)) ->
  (forall c s,
      String.prefix "_." (String c s) = false ->
      Regex.is_space c || Ascii.eqb c "]" = true ->
      P s (Regex.replaceAll_regexToRemove s) ->
      P (String c s) (Regex.replaceAll_regexToRemove s)) ->
  (forall c s,
      String.prefix "_." (String c s) = false ->
      Regex.is_space c || Ascii.eqb c "]" = false ->
      P s (Regex.replaceAll_regexToRemove s) ->
      P (String c s) (String c (Regex.replaceAll_regexToRemove s))) ->
  forall s, P s (Regex.replaceAll_regexToRemove s).
Proof.
  intros Hnil Hpair Hdrop Hkeep s.
  assert (H : forall n t, String.length t <= n -> P t (Regex.replaceAll_regexToRemove t)).
  { induction n as [|n IH]; intros t Hlen.
    - destruct t; [exact Hnil|simpl in Hlen; lia].
    - destruct t as [|c t]; [exact Hnil|]. simpl in Hlen.
      destruct (String.prefix "_." (String c t)) eqn:Hp.
      + apply prefix2_inv in Hp as (-> & rest & ->).
        change (Regex.replaceAll_regexToRemove (String "_" (String "." rest)))
          with (Regex.replaceAll_regexToRemove rest).
        apply Hpair. apply IH. simpl in Hlen. lia.
      + assert (Hstep : Regex.replaceAll_regexToRemove (String c t)
                        = if Regex.is_space c || Ascii.eqb c "]"
                          then Regex.replaceAll_regexToRemove t
                          else String c (Regex.replaceAll_regexToRemove t)).
        { cbn [Regex.replaceAll_regexToRemove]. destruct t as [|d t]; [reflexivity|].
          destruct (Ascii.eqb_spec c "_") as [->|_]; [|reflexivity].
          destruct (Ascii.eqb_spec d ".") as [->|_]; [|reflexivity].
          change (String "_" (String "." t)) with ("_." ++ t)%string in Hp.
          rewrite prefix_append in Hp. discriminate Hp. }
        rewrite Hstep.
        destruct (Regex.is_space c || Ascii.eqb c "]") eqn:Hk.
        * apply Hdrop; [exact Hp|exact Hk|]. apply IH. lia.
        * apply Hkeep; [exact Hp|exact Hk|]. apply IH. lia. }
  exact (H (String.length s) s (le_n _)).
Qed.

Lemma dirty_split (c : ascii) :
  dirty c = (Regex.is_space c || Ascii.eqb c "]") || (Ascii.eqb c "." || Ascii.eqb c "[").
Proof. unfold dirty. now rewrite !orb_assoc. Qed.

Lemma underscore_clean (s : string) :
  (forall c, count_char c s > 0 -> Regex.is_space c || Ascii.eqb c "]" = false) ->
  clean (Regex.replaceAll_regexToUnderscore s) = true.
Proof.
  induction s as [|c s IH]; intros H; [reflexivity|]. simpl.
  rewrite IH.
  - rewrite andb_true_r. apply negb_true_iff.
    assert (Hc : Regex.is_space c || Ascii.eqb c "]" = false).
    { apply H. simpl. rewrite Ascii.eqb_refl. lia. }
    destruct (Ascii.eqb c "." || Ascii.eqb c "[") eqn:Hd; [reflexivity|].
    now rewrite dirty_split, Hc, Hd.
  - intros d Hd. apply H. simpl. lia.
Qed.

Lemma remove_no_blank (s : string) (c : ascii) :
  count_char c (Regex.replaceAll_regexToRemove s) > 0 ->
  Regex.is_space c || Ascii.eqb c "]" = false.
Proof.
  revert c.
  apply (remove_cases
           (fun _ out => forall c, count_char c out > 0 ->
                                   Regex.is_space c || Ascii.eqb c "]" = false)).
  - simpl. intros c H. lia.
  - auto.
  - auto.
  - intros d t _ Hk IH c H. simpl in H.
    destruct (Ascii.eqb_spec d c) as [->|_]; [exact Hk|]. apply IH. simpl in H. lia.
Qed.

(** The rewritten text holds none of the characters the rewriting
    removes or replaces. *)
Lemma rewritten_clean (u : string) : clean (rewritten u) = true.
Proof. unfold rewritten. apply underscore_clean. apply remove_no_blank. Qed.

Lemma clean_head (c : ascii) (s : string) :
  clean (String c s) = true -> dirty c = false /\ clean s = true.
Proof. simpl. intros H. apply andb_prop in H as [Hd Hs]. now apply negb_true_iff in Hd. Qed.

Lemma remove_of_clean (u : string) :
  clean u = true -> Regex.replaceAll_regexToRemove u = u.
Proof.
  apply (remove_cases (fun s out => clean s = true -> out = s)).
  - reflexivity.
  - intros rest _ H. apply clean_head in H as [_ H]. apply clean_head in H as [H _].
    discriminate H.
  - intros c s _ Hk _ H. apply clean_head in H as [H _].
    rewrite dirty_split, Hk in H. discriminate.
  - intros c s _ _ IH H. apply clean_head in H as [_ H]. now rewrite IH.
Qed.

Lemma underscore_of_clean (u : string) :
  clean u = true -> Regex.replaceAll_regexToUnderscore u = u.
Proof.
  induction u as [|c u IH]; intros H; [reflexivity|].
  apply clean_head in H as [Hd H]. simpl. rewrite (IH H).
  rewrite dirty_split in Hd. apply orb_false_elim in Hd as [_ ->]. reflexivity.
Qed.

(** Clean text is a fixed point of the rewriting. *)
Lemma rewritten_of_clean (u : string) : clean u = true -> rewritten u = u.
Proof.
  intros H. unfold rewritten. rewrite (remove_of_clean _ H). now apply underscore_of_clean.
Qed.

Lemma rewritten_idempotent (u : string) : rewritten (rewritten u) = rewritten u.
Proof. apply rewritten_of_clean, rewritten_clean. Qed.

End RewritingFacts.

Section ShapeFacts.

Lemma remove_step (c : ascii) (t : string) :
  String.prefix "_." (String c t) = false ->
  Regex.replaceAll_regexToRemove (String c t)
  = if Regex.is_space c || Ascii.eqb c "]"
    then Regex.replaceAll_regexToRemove t
    else String c (Regex.replaceAll_regexToRemove t).
Proof.
  intros Hp. cbn [Regex.replaceAll_regexToRemove]. destruct t as [|d t]; [reflexivity|].
  destruct (Ascii.eqb_spec c "_") as [->|_]; [|reflexivity].
  destruct (Ascii.eqb_spec d ".") as [->|_]; [|reflexivity].
  change (String "_" (String "." t)) with ("_." ++ t)%string in Hp.
  rewrite prefix_append in Hp. discriminate Hp.
Qed.

Lemma prefix_pair_false (c d : ascii) (t : string) :
  String.prefix "_." (String c (String d t)) = false -> c <> "_"%char \/ d <> "."%char.
Proof.
  intros H. destruct (Ascii.eqb_spec c "_") as [->|N]; [|now left].
  destruct (Ascii.eqb_spec d ".") as [->|N]; [|now right].
  change (String "_" (String "." t)) with ("_." ++ t)%string in H.
  rewrite prefix_append in H. discriminate.
Qed.

Lemma prefix_pair_other (c : ascii) (t : string) :
  (c <> "_"%char \/ String.prefix "." t = false) ->
  String.prefix "_." (String c t) = false.
Proof.
  intros H. rewrite prefix_cons.
  destruct (Ascii.eqb_spec "_" c) as [<-|_]; [|reflexivity].
  destruct H as [H|H]; [now elim H|]. exact H.
Qed.

(** The removal pass works on the two halves of a text apart, unless it
    would join an underscore to a dot across them. *)
Lemma remove_append (x y : string) :
  String.prefix "." y = false ->
  Regex.replaceAll_regexToRemove (x ++ y)
  = (Regex.replaceAll_regexToRemove x ++ Regex.replaceAll_regexToRemove y)%string.
Proof.
  intros Hy.
  apply (remove_cases
           (fun s out => Regex.replaceAll_regexToRemove (s ++ y)
                         = (out ++ Regex.replaceAll_regexToRemove y)%string)).
  - reflexivity.
  - intros rest IH. exact IH.
  - intros c s Hp Hk IH.
    change (String c s ++ y)%string with (String c (s ++ y)).
    rewrite remove_step, Hk; [exact IH|].
    apply prefix_pair_other. left. intros ->. discriminate Hk.
  - intros c s Hp Hk IH.
    change (String c s ++ y)%string with (String c (s ++ y)).
    rewrite remove_step, Hk; [simpl; now rewrite IH|].
    apply prefix_pair_other.
    destruct s as [|d s]; [now right|].
    apply prefix_pair_false in Hp as [Hc|Hd]; [now left|right].
    cbn [append]. rewrite prefix_cons.
    destruct (Ascii.eqb_spec "." d) as [<-|_]; [now elim Hd|reflexivity].
Qed.

Lemma underscore_append (x y : string) :
  Regex.replaceAll_regexToUnderscore (x ++ y)
  = (Regex.replaceAll_regexToUnderscore x ++ Regex.replaceAll_regexToUnderscore y)%string.
Proof. induction x as [|c x IH]; simpl; [reflexivity|now rewrite IH]. Qed.

(** The rewriting of a span in braces works on its body. *)
Lemma rewritten_braces (body : string) :
  rewritten ("{{" ++ body ++ "}}") = ("{{" ++ rewritten body ++ "}}")%string.
Proof.
  unfold rewritten.
  change ("{{" ++ body ++ "}}")%string with (String "{" (String "{" (body ++ "}}"))).
  rewrite !remove_keep by reflexivity.
  rewrite remove_append by reflexivity.
  change (Regex.replaceAll_regexToRemove "}}") with "}}".
  cbn [Regex.replaceAll_regexToUnderscore]. rewrite underscore_append. reflexivity.
Qed.

Lemma underscore_count (c : ascii) (s : string) :
  Ascii.eqb c "_" = false -> Ascii.eqb c "." = false -> Ascii.eqb c "[" = false ->
  count_char c (Regex.replaceAll_regexToUnderscore s) = count_char c s.
Proof.
  intros Hu Hdot Hbr. induction s as [|d s IH]; [reflexivity|].
  cbn [Regex.replaceAll_regexToUnderscore count_char]. rewrite IH. f_equal.
  destruct (Ascii.eqb d "." || Ascii.eqb d "[") eqn:E; [|reflexivity].
  rewrite (Ascii.eqb_sym "_" c), Hu.
  apply orb_prop in E as [E|E]; apply Ascii.eqb_eq in E as ->.
  - now rewrite (Ascii.eqb_sym "." c), Hdot.
  - now rewrite (Ascii.eqb_sym "[" c), Hbr.
Qed.

Lemma remove_count (c : ascii) (u : string) :
  Regex.is_space c || Ascii.eqb c "]" = false ->
  Ascii.eqb c "_" = false -> Ascii.eqb c "." = false ->
  count_char c (Regex.replaceAll_regexToRemove u) = count_char c u.
Proof.
  intros Hk Hu Hdot.
  apply (remove_cases (fun s out => count_char c out = count_char c s)).
  - reflexivity.
  - intros rest IH. cbn [count_char]. rewrite IH.
    now rewrite (Ascii.eqb_sym "_" c), Hu, (Ascii.eqb_sym "." c), Hdot.
  - intros d s _ Hkd IH. cbn [count_char]. rewrite IH.
    destruct (Ascii.eqb_spec d c) as [->|_]; [congruence|reflexivity].
  - intros d s _ _ IH. cbn [count_char]. now rewrite IH.
Qed.

(** A character that the rewriting neither removes, replaces nor writes
    occurs as often after it as before. *)
Lemma rewritten_count (c : ascii) (u : string) :
  dirty c = false -> Ascii.eqb c "_" = false ->
  count_char c (rewritten u) = count_char c u.
Proof.
  intros Hd Hu. rewrite dirty_split in Hd. apply orb_false_elim in Hd as [Hk Hr].
  apply orb_false_elim in Hr as [Hdot Hbr].
  unfold rewritten. rewrite underscore_count by assumption.
  now apply remove_count.
Qed.

Lemma rewritten_braced (u : string) : braced u -> braced (rewritten u).
Proof.
  intros (body & -> & Hb). exists (rewritten body). split; [apply rewritten_braces|].
  now rewrite rewritten_count.
Qed.

Lemma rewritten_no_dollar (u : string) :
  count_char "$" u = 0 -> count_char "$" (rewritten u) = 0.
Proof. intros H. now rewrite rewritten_count. Qed.

(** A plain span the regular expression matches is a span in braces. *)
Lemma plain_span_braced (u : string) : is_span u -> plain_span u -> braced u.
Proof.
  intros Hu [_ Hc]. destruct (at_inv _ Hu) as (body & rest & E & _ & _).
  exists body. split; [exact E|]. rewrite E in Hc.
  change ("{{" ++ body ++ "}}")%string with (String "{" (String "{" (body ++ "}}"))) in Hc.
  simpl in Hc. rewrite count_char_append in Hc. simpl in Hc. lia.
Qed.

End ShapeFacts.

Section SegmentFacts.

Lemma matches_as_segments (s : string) (skip : nat) :
  Regex.match_regexVariable_from s skip = spans_of (segments_from s skip).
Proof.
  revert skip. induction s as [|c s IH]; intros skip; [reflexivity|].
  cbn [Regex.match_regexVariable_from segments_from].
  destruct skip as [|k]; [|apply IH].
  destruct (Regex.regexVariable_at (String c s)); cbn [spans_of]; now rewrite IH.
Qed.

Lemma rewrite_spans_as_segments (s : string) (skip : nat) :
  rewrite_spans_from s skip
  = flat (List.map (rewrite_if (fun _ => true)) (segments_from s skip)).
Proof.
  revert skip. induction s as [|c s IH]; intros skip; [reflexivity|].
  cbn [rewrite_spans_from segments_from].
  destruct skip as [|k]; [|apply IH].
  destruct (Regex.regexVariable_at (String c s)); cbn [List.map rewrite_if flat];
    now rewrite IH.
Qed.

Lemma segments_skip (a rest : string) :
  segments_from (a ++ rest) (String.length a) = segments_from rest 0.
Proof. induction a as [|c a IH]; [reflexivity|exact IH]. Qed.

Lemma segments_span (s m : string) :
  Regex.regexVariable_at s = Some m ->
  exists rest, s = (m ++ rest)%string /\ segments s = Span m :: segments rest.
Proof.
  intros H. destruct (at_inv _ H) as (body & rest & Em & Es & _).
  exists rest. split; [exact Es|]. unfold segments.
  remember (String "{" (body ++ "}}")) as m1 eqn:E1.
  assert (Em1 : m = String "{" m1) by (now subst).
  rewrite Es in H |- *. rewrite Em1 in H |- *.
  change (String "{" m1 ++ rest)%string with (String "{" (m1 ++ rest)) in H |- *.
  cbn [segments_from]. rewrite H.
  replace (String.length (String "{" m1) - 1) with (String.length m1)
    by (simpl; lia).
  now rewrite segments_skip.
Qed.

Lemma segments_lit (c : ascii) (s : string) :
  Regex.regexVariable_at (String c s) = None ->
  segments (String c s) = Lit c :: segments s.
Proof. intros H. unfold segments. cbn [segments_from]. now rewrite H. Qed.

(** The cases of the cut into segments, as an induction principle. *)
Lemma segments_cases (P : string -> list segment -> Prop) :
  P EmptyString [] ->
  (forall m rest,
      Regex.regexVariable_at (m ++ rest) = Some m ->
      P rest (segments rest) -> P (m ++ rest)%string (Span m :: segments rest)) ->
  (forall c s,
      Regex.regexVariable_at (String c s) = None ->
      P s (segments s) -> P (String c s) (Lit c :: segments s)) ->
  forall s, P s (segments s).
Proof.
  intros Hnil Hspan Hlit s.
  assert (H : forall n t, String.length t <= n -> P t (segments t)).
  { induction n as [|n IH]; intros t Hlen.
    - destruct t; [exact Hnil|simpl in Hlen; lia].
    - destruct t as [|c t]; [exact Hnil|].
      destruct (Regex.regexVariable_at (String c t)) as [m|] eqn:Hat.
      + destruct (segments_span _ Hat) as (rest & E & ->). rewrite E in Hat |- *.
        apply Hspan; [exact Hat|]. apply IH.
        destruct (at_inv _ Hat) as (body & _ & Em & _).
        apply (f_equal String.length) in E. rewrite length_append, Em in E.
        simpl in E, Hlen. lia.
      + rewrite segments_lit by exact Hat. apply Hlit; [exact Hat|]. apply IH.
        simpl in Hlen. lia. }
  exact (H (String.length s) s (le_n _)).
Qed.

Lemma flat_segments (s : string) : flat (segments s) = s.
Proof.
  apply (segments_cases (fun s l => flat l = s)).
  - reflexivity.
  - intros m rest _ IH. cbn [flat]. now rewrite IH.
  - intros c t _ IH. cbn [flat]. now rewrite IH.
Qed.

Lemma segments_spans (s : string) : Forall is_span (spans_of (segments s)).
Proof.
  apply (segments_cases (fun _ l => Forall is_span (spans_of l))).
  - constructor.
  - intros m rest H IH. cbn [spans_of]. constructor; [exact (at_is_span _ H)|exact IH].
  - intros c t _ IH. exact IH.
Qed.

Lemma segments_head_lit (s : string) (d : ascii) (l : list segment) :
  segments s = Lit d :: l -> exists t, s = String d t.
Proof.
  destruct s as [|c s]; [discriminate|].
  destruct (Regex.regexVariable_at (String c s)) as [m|] eqn:Hat.
  - destruct (segments_span _ Hat) as (rest & _ & ->). discriminate.
  - rewrite segments_lit by exact Hat. intros H. injection H as -> _. eauto.
Qed.

Lemma lazy_close_cons (c : ascii) (s : string) :
  Regex.is_line_terminator c = false ->
  Regex.lazy_close s <> None -> Regex.lazy_close (String c s) <> None.
Proof.
  intros Ht Hs. cbn [Regex.lazy_close].
  destruct (String.prefix "}}" (String c s)); [discriminate|]. rewrite Ht.
  destruct (Regex.lazy_close s) as [[m rest]|]; [discriminate|now elim Hs].
Qed.

(** Where the segments say that closing braces can be reached, the lazy
    match finds them. *)
Lemma closable_lazy_close (s : string) :
  closable (segments s) = true -> Regex.lazy_close s <> None.
Proof.
  apply (segments_cases (fun s l => closable l = true -> Regex.lazy_close s <> None)).
  - discriminate.
  - intros m rest Hat _ _. destruct (at_inv _ Hat) as (body & rest' & -> & E & Hs).
    apply append_inv_head in E as <-.
    change (("{{" ++ body ++ "}}") ++ rest)%string
      with (String "{" (String "{" ((body ++ "}}") ++ rest))).
    rewrite append_assoc.
    apply lazy_close_cons; [reflexivity|]. apply lazy_close_cons; [reflexivity|].
    now rewrite Hs.
  - intros c t _ IH H. cbn [closable] in H.
    destruct (segments t) as [|[d|v] l] eqn:Et.
    + destruct (Regex.is_line_terminator c); discriminate.
    + destruct (Ascii.eqb c "}" && Ascii.eqb d "}") eqn:Hcd.
      * apply andb_prop in Hcd as [Hc Hd].
        apply Ascii.eqb_eq in Hc as ->. apply Ascii.eqb_eq in Hd as ->.
        destruct (segments_head_lit _ Et) as (t' & ->).
        change (String "}" (String "}" t')) with ("}}" ++ t')%string.
        now rewrite lazy_close_here.
      * destruct (Regex.is_line_terminator c) eqn:Ht; [discriminate|].
        apply lazy_close_cons; [exact Ht|]. now apply IH.
    + destruct (Regex.is_line_terminator c) eqn:Ht; [discriminate|].
      apply lazy_close_cons; [exact Ht|]. now apply IH.
Qed.

Lemma at_open (s : string) :
  Regex.lazy_close s <> None -> Regex.regexVariable_at ("{{" ++ s) <> None.
Proof.
  intros H. unfold Regex.regexVariable_at. rewrite prefix_append.
  change (Str.drop 2 ("{{" ++ s)) with s.
  destruct (Regex.lazy_close s) as [[m rest]|]; [discriminate|now elim H].
Qed.

(** No match starts at a character that the cut leaves between spans. *)
Lemma segments_quiet (s : string) : quiet_lits (segments s).
Proof.
  apply (segments_cases (fun _ l => quiet_lits l)).
  - exact I.
  - intros m rest _ IH. exact IH.
  - intros c t Hat IH. cbn [quiet_lits]. split; [|exact IH].
    destruct (opens (Lit c :: segments t)) eqn:Ho; [exfalso|reflexivity].
    cbn [opens] in Ho. destruct (segments t) as [|[d|v] l] eqn:Et; [discriminate| |].
    + apply andb_prop in Ho as [Hcd Hl]. apply andb_prop in Hcd as [Hc Hd].
      apply Ascii.eqb_eq in Hc as ->. apply Ascii.eqb_eq in Hd as ->.
      destruct (segments_head_lit _ Et) as (t' & ->).
      destruct (Regex.regexVariable_at (String "{" t')) as [m|] eqn:Hat'.
      * destruct (segments_span _ Hat') as (rest & _ & E). congruence.
      * rewrite segments_lit in Et by exact Hat'. injection Et as <-.
        apply closable_lazy_close in Hl.
        exact (at_open _ Hl Hat).
    + apply Ascii.eqb_eq in Ho as ->.
      destruct t as [|c' t']; [discriminate|].
      destruct (Regex.regexVariable_at (String c' t')) as [m|] eqn:Hat';
        [|rewrite segments_lit in Et by exact Hat'; discriminate].
      destruct (at_inv _ Hat') as (body & rest & -> & Es & Hs).
      rewrite Es in Hat.
      change (String "{" (("{{" ++ body ++ "}}") ++ rest))
        with ("{{" ++ String "{" ((body ++ "}}") ++ rest))%string in Hat.
      apply (at_open (String "{" ((body ++ "}}") ++ rest))); [|exact Hat].
      apply lazy_close_cons; [reflexivity|]. rewrite append_assoc, Hs. discriminate.
Qed.

End SegmentFacts.

Section ReplaceFacts.

Lemma substitution_plain (r matched before after : string) :
  count_char "$" r = 0 -> StringReplace.substitution r matched before after = r.
Proof.
  induction r as [|c r IH]; intros H; [reflexivity|].
  cbn [count_char] in H.
  destruct (Ascii.eqb c "$") eqn:Hc; [lia|].
  cbn [StringReplace.substitution]. rewrite Hc, IH by lia. now destruct r.
Qed.

Lemma scan_skip (p r : string) (a t seen : string) :
  StringReplace.scan p r seen (a ++ t) (String.length a)
  = StringReplace.scan p r (Str.rev_append a seen) t 0.
Proof.
  revert seen. induction a as [|c a IH]; intros seen; [reflexivity|].
  cbn [append String.length StringReplace.scan Str.rev_append]. apply IH.
Qed.

Lemma scan_hit (c : ascii) (p r t seen : string) :
  count_char "$" r = 0 ->
  StringReplace.scan (String c p) r seen (String c p ++ t) 0
  = (r ++ StringReplace.scan (String c p) r (Str.rev_append (String c p) seen) t 0)%string.
Proof.
  intros Hr. cbn [append StringReplace.scan].
  change (String c (p ++ t)) with (String c p ++ t)%string.
  rewrite prefix_append, substitution_plain by exact Hr.
  replace (String.length (String c p) - 1) with (String.length p) by (simpl; lia).
  now rewrite scan_skip.
Qed.

Lemma scan_hit_nonempty (p r t seen : string) :
  Str.is_empty p = false -> count_char "$" r = 0 ->
  StringReplace.scan p r seen (p ++ t) 0
  = (r ++ StringReplace.scan p r (Str.rev_append p seen) t 0)%string.
Proof. destruct p as [|c p]; [discriminate|]. intros _. apply scan_hit. Qed.

Lemma scan_miss (p r seen : string) (c : ascii) (t : string) :
  String.prefix p (String c t) = false ->
  StringReplace.scan p r seen (String c t) 0
  = String c (StringReplace.scan p r (String c seen) t 0).
Proof. intros H. cbn [StringReplace.scan]. now rewrite H. Qed.

(** Replacing a text by itself changes nothing. *)
Lemma scan_same (c : ascii) (p : string) :
  count_char "$" (String c p) = 0 ->
  forall t seen, StringReplace.scan (String c p) (String c p) seen t 0 = t.
Proof.
  intros Hp.
  assert (H : forall n t, String.length t <= n ->
                          forall seen, StringReplace.scan (String c p) (String c p) seen t 0 = t).
  { induction n as [|n IH]; intros t Hlen seen.
    - destruct t; [reflexivity|simpl in Hlen; lia].
    - destruct t as [|d t]; [reflexivity|].
      destruct (String.prefix (String c p) (String d t)) eqn:Hpre.
      + apply prefix_inv in Hpre as (rest & E). rewrite E in Hlen |- *.
        rewrite scan_hit by exact Hp. rewrite IH; [reflexivity|].
        rewrite length_append in Hlen. simpl in Hlen. lia.
      + rewrite scan_miss by exact Hpre. rewrite IH; [reflexivity|].
        simpl in Hlen. lia. }
  intros t seen. exact (H (String.length t) t (le_n _) seen).
Qed.

Lemma scan_through (v r u t : string) :
  (forall pre x, u = (pre ++ x)%string -> x <> EmptyString ->
                 String.prefix v (x ++ t) = false) ->
  forall seen,
    StringReplace.scan v r seen (u ++ t) 0
    = (u ++ StringReplace.scan v r (Str.rev_append u seen) t 0)%string.
Proof.
  induction u as [|c u IH]; intros Hfree seen; [reflexivity|].
  cbn [append Str.rev_append]. rewrite scan_miss.
  - rewrite IH; [reflexivity|]. intros pre x E Hx.
    apply (Hfree (String c pre) x); [now rewrite E|exact Hx].
  - apply (Hfree EmptyString (String c u)); [reflexivity|discriminate].
Qed.

(** The body of a matched span, read on from any segment list that
    starts with it, reaches its closing braces. *)
Lemma closable_of_prefix (body x : string) :
  Regex.lazy_close (body ++ "}}" ++ x) = Some ((body ++ "}}")%string, x) ->
  forall l, flat l = (body ++ "}}" ++ x)%string -> closable l = true.
Proof.
  induction body as [|e body IH]; intros Hs l Hl.
  - destruct l as [|[d|u] l]; [discriminate| |reflexivity].
    cbn [flat append] in Hl. injection Hl as -> Hl.
    destruct l as [|[d|u] l]; [discriminate| |reflexivity].
    cbn [flat] in Hl. injection Hl as -> _. reflexivity.
  - change (String e body ++ "}}" ++ x)%string with (String e (body ++ "}}" ++ x)) in Hs, Hl.
    change (String e body ++ "}}")%string with (String e (body ++ "}}")) in Hs.
    cbn [Regex.lazy_close] in Hs.
    destruct (String.prefix "}}" (String e (body ++ "}}" ++ x))) eqn:Hp.
    { injection Hs as _ Hs _.
      apply (f_equal String.length) in Hs. rewrite length_append in Hs.
      simpl in Hs. lia. }
    destruct (Regex.is_line_terminator e) eqn:Ht; [discriminate|].
    destruct (Regex.lazy_close (body ++ "}}" ++ x)) as [[m rest]|] eqn:Hs';
      [|discriminate].
    injection Hs as -> ->.
    destruct l as [|[d|u] l]; [discriminate| |reflexivity].
    cbn [flat] in Hl. injection Hl as -> Hl.
    specialize (IH eq_refl l Hl). cbn [closable]. rewrite Ht, IH.
    destruct l as [|[d|u] l]; try reflexivity.
    now destruct (Ascii.eqb e "}" && Ascii.eqb d "}").
Qed.

Lemma span_body (v : string) :
  is_span v ->
  exists body,
    v = ("{{" ++ body ++ "}}")%string
    /\ forall x, Regex.lazy_close (body ++ "}}" ++ x) = Some ((body ++ "}}")%string, x).
Proof.
  intros Hv. destruct (at_inv _ Hv) as (body & rest & E & _ & Hs).
  exists body. split; [exact E|]. intros x.
  rewrite <- append_assoc in Hs |- *. exact (lazy_close_stable _ Hs x).
Qed.

(** A matched span does not occur at a character between spans. *)
Lemma lit_no_occurrence (v : string) (c : ascii) (l : list segment) :
  is_span v -> opens (Lit c :: l) = false ->
  String.prefix v (String c (flat l)) = false.
Proof.
  intros Hv Ho. destruct (String.prefix v (String c (flat l))) eqn:Hp; [exfalso|reflexivity].
  apply prefix_inv in Hp as (x & E).
  destruct (@span_body v Hv) as (body & -> & Hs).
  change (("{{" ++ body ++ "}}") ++ x)%string
    with (String "{" (String "{" ((body ++ "}}") ++ x))) in E.
  injection E as -> E. rewrite append_assoc in E.
  cbn [opens] in Ho. destruct l as [|[d|u] l]; [discriminate| |discriminate].
  cbn [flat] in E. injection E as -> E.
  rewrite (@closable_of_prefix body x (Hs x) l E) in Ho. discriminate.
Qed.

End ReplaceFacts.

Section RoundFacts.

Lemma clean_false_append (a b : string) : clean a = false -> clean (a ++ b) = false.
Proof. intros H. now rewrite clean_append, H. Qed.

(** A dirty matched span does not occur inside another span of the text. *)
Lemma span_no_occurrence (u v t : string) :
  ok_span u -> is_span v -> clean v = false -> u <> v ->
  forall pre x, u = (pre ++ x)%string -> x <> EmptyString ->
                String.prefix v (x ++ t) = false.
Proof.
  intros [(bu & Eu & Hbu) Hkind] Hv Hdirty Hne pre x E Hx.
  destruct (String.prefix v (x ++ t)) eqn:Hp; [exfalso|reflexivity].
  apply prefix_inv in Hp as (y & Ey).
  destruct (@span_body v Hv) as (bv & Ev & Hs).
  destruct pre as [|p0 pre].
  - simpl in E. subst x. destruct Hkind as [Hu|Hu].
    + apply Hne. exact (@span_prefix_unique u v t y Hu Hv Ey).
    + destruct (append_eq_split _ _ _ _ Ey) as (z & [[E1 E2]|[E1 E2]]).
      * rewrite E1, clean_append, Hdirty in Hu. discriminate.
      * apply Hne. rewrite E1.
        assert (Hz : z = EmptyString).
        { rewrite Ev, Eu in E1.
          change ("{{" ++ bv ++ "}}")%string with ("{{" ++ (bv ++ "}}"))%string in E1.
          change (("{{" ++ bu ++ "}}") ++ z)%string
            with ("{{" ++ ((bu ++ "}}") ++ z))%string in E1.
          apply append_inv_head in E1. rewrite append_assoc in E1.
          pose proof (Hs EmptyString) as H0. rewrite append_nil_r in H0.
          rewrite E1 in H0 at 1. apply lazy_close_bound in H0.
          apply (f_equal String.length) in E1.
          rewrite !length_append in E1, H0. simpl in E1, H0.
          rewrite ?length_append in E1. simpl in E1.
          destruct z; [reflexivity|simpl in E1; lia]. }
        rewrite Hz. now rewrite append_nil_r.
  - rewrite Ev in Ey.
    change (("{{" ++ bv ++ "}}") ++ y)%string
      with (String "{" (String "{" ((bv ++ "}}") ++ y))) in Ey.
    rewrite Eu in E.
    change ("{{" ++ bu ++ "}}")%string with (String "{" (String "{" (bu ++ "}}"))) in E.
    cbn [append] in E. injection E as _ E.
    assert (Hcount : forall a b : string, (a ++ b)%string = (bu ++ "}}")%string ->
                                       count_char "{" b = 0).
    { intros a b Eab. apply (f_equal (count_char "{")) in Eab.
      rewrite !count_char_append, Hbu in Eab. simpl in Eab. lia. }
    destruct x as [|x0 x]; [now elim Hx|].
    cbn [append] in Ey. injection Ey as -> Ey.
    destruct pre as [|p1 pre]; cbn [append] in E.
    + injection E as E. rewrite <- E in Ey.
      destruct bu as [|b0 bu]; [discriminate|].
      cbn [append] in Ey. injection Ey as -> _.
      cbn [count_char] in Hbu. simpl in Hbu. lia.
    + injection E as _ E. symmetry in E. apply Hcount in E.
      cbn [count_char] in E. simpl in E. lia.
Qed.

Lemma replace_same (v : string) (l : list segment) :
  List.map (replace_span v v) l = l.
Proof.
  induction l as [|[c|u] l IH]; cbn [List.map replace_span]; [reflexivity| |].
  - now rewrite IH.
  - rewrite IH. destruct (String.eqb_spec u v) as [->|_]; reflexivity.
Qed.

(** Replacing a dirty matched span all over a text replaces the segments
    that are this span, and nothing else. *)
Lemma scan_in_segments (v r : string) :
  is_span v -> clean v = false -> count_char "$" r = 0 ->
  forall l,
    Forall ok_span (spans_of l) -> quiet_lits l ->
    forall seen,
      StringReplace.scan v r seen (flat l) 0 = flat (List.map (replace_span v r) l).
Proof.
  intros Hv Hdirty Hr.
  destruct (@span_body v Hv) as (bv & Ev & _).
  induction l as [|[c|u] l IH]; intros Hok Hq seen; [reflexivity| |].
  - cbn [quiet_lits] in Hq. destruct Hq as [Ho Hq].
    cbn [flat List.map replace_span]. rewrite scan_miss.
    + now rewrite IH.
    + now apply lit_no_occurrence.
  - cbn [spans_of] in Hok. apply Forall_cons_iff in Hok as [Hu Hok].
    cbn [quiet_lits] in Hq. cbn [flat List.map replace_span].
    destruct (String.eqb_spec u v) as [->|Hne].
    + cbn [flat]. rewrite scan_hit_nonempty; [|now rewrite Ev|exact Hr].
      f_equal. now apply IH.
    + cbn [flat]. rewrite scan_through.
      * f_equal. now apply IH.
      * now apply span_no_occurrence.
Qed.

Lemma span_not_empty (v : string) : is_span v -> Str.is_empty v = false.
Proof. intros Hv. destruct (@span_body v Hv) as (bv & -> & _). reflexivity. Qed.

End RoundFacts.

Section LoopFacts.

Lemma closable_rewrite (chosen : string -> bool) (l : list segment) :
  closable (List.map (rewrite_if chosen) l) = closable l.
Proof.
  induction l as [|[c|u] l IH]; [reflexivity| |].
  - cbn [List.map rewrite_if closable]. rewrite IH.
    destruct l as [|[d|w] l]; cbn [List.map rewrite_if]; try reflexivity.
    now destruct (chosen w).
  - cbn [List.map rewrite_if]. now destruct (chosen u).
Qed.

Lemma opens_rewrite (chosen : string -> bool) (l : list segment) :
  opens (List.map (rewrite_if chosen) l) = opens l.
Proof.
  destruct l as [|[c|u] l]; [reflexivity| |].
  - destruct l as [|[d|w] l]; cbn [List.map rewrite_if opens]; [reflexivity| |].
    + fold (List.map (rewrite_if chosen) l). now rewrite closable_rewrite.
    + now destruct (chosen w).
  - cbn [List.map rewrite_if]. now destruct (chosen u).
Qed.

Lemma quiet_rewrite (chosen : string -> bool) (l : list segment) :
  quiet_lits l -> quiet_lits (List.map (rewrite_if chosen) l).
Proof.
  induction l as [|[c|u] l IH]; intros H; [exact I| |].
  - destruct H as [Ho H]. cbn [List.map rewrite_if quiet_lits]. split; [|now apply IH].
    change (Lit c :: List.map (rewrite_if chosen) l)
      with (List.map (rewrite_if chosen) (Lit c :: l)).
    now rewrite opens_rewrite.
  - cbn [List.map rewrite_if]. destruct (chosen u); cbn [quiet_lits]; now apply IH.
Qed.

Lemma ok_rewrite (chosen : string -> bool) (l : list segment) :
  Forall (fun u => is_span u /\ plain_span u) (spans_of l) ->
  Forall ok_span (spans_of (List.map (rewrite_if chosen) l)).
Proof.
  induction l as [|[c|u] l IH]; intros H; [constructor| |].
  - now apply IH.
  - cbn [spans_of] in H. apply Forall_cons_iff in H as [[Hu Hp] H].
    pose proof (plain_span_braced Hu Hp) as Hb.
    cbn [List.map rewrite_if]. destruct (chosen u); cbn [spans_of]; constructor.
    + split; [now apply rewritten_braced|right; apply rewritten_clean].
    + now apply IH.
    + split; [exact Hb|now left].
    + now apply IH.
Qed.

Lemma among_snoc (chosen : list string) (v u : string) :
  among (chosen ++ [v]) u = among chosen u || String.eqb u v.
Proof. unfold among. rewrite existsb_app. simpl. now rewrite orb_false_r. Qed.

(** Replacing [v] by its rewriting, in a text where the spans of [chosen]
    are already rewritten, rewrites the spans of [chosen] and [v]. *)
Lemma replace_after_rewrite (chosen : list string) (v : string) (l : list segment) :
  List.map (replace_span v (rewritten v)) (List.map (rewrite_if (among chosen)) l)
  = List.map (rewrite_if (among (chosen ++ [v]))) l.
Proof.
  rewrite map_map. apply map_ext. intros [c|u]; [reflexivity|].
  cbn [rewrite_if]. rewrite among_snoc.
  destruct (among chosen u); cbn [orb replace_span].
  - destruct (String.eqb_spec (rewritten u) v) as [<-|_]; [|reflexivity].
    now rewrite rewritten_idempotent.
  - destruct (String.eqb_spec u v) as [->|_]; reflexivity.
Qed.

Lemma replaceAll_same (t v : string) :
  Str.is_empty v = false -> count_char "$" v = 0 ->
  StringReplace.replaceAll t v v = t.
Proof.
  intros Hv Hd. unfold StringReplace.replaceAll. rewrite Hv.
  destruct v as [|c v]; [discriminate|]. now apply scan_same.
Qed.

(** One round of the loop on a text under rewriting. *)
Lemma round_in_segments (v : string) (l : list segment) :
  is_span v -> plain_span v ->
  Forall ok_span (spans_of l) -> quiet_lits l ->
  rewrite_round (flat l) v = flat (List.map (replace_span v (rewritten v)) l).
Proof.
  intros Hv [Hd Hb] Hok Hq. unfold rewrite_round.
  destruct (clean v) eqn:Hc.
  - rewrite (rewritten_of_clean _ Hc), replace_same.
    apply replaceAll_same; [now apply span_not_empty|exact Hd].
  - unfold StringReplace.replaceAll. rewrite (span_not_empty Hv).
    apply scan_in_segments; try assumption. now apply rewritten_no_dollar.
Qed.

Lemma loop_in_segments (l : list segment) :
  Forall (fun u => is_span u /\ plain_span u) (spans_of l) ->
  quiet_lits l ->
  forall todo chosen,
    Forall (fun u => is_span u /\ plain_span u) todo ->
    fold_left rewrite_round todo (flat (List.map (rewrite_if (among chosen)) l))
    = flat (List.map (rewrite_if (among (chosen ++ todo))) l).
Proof.
  intros Hspans Hq. induction todo as [|v todo IH]; intros chosen Htodo.
  - now rewrite app_nil_r.
  - apply Forall_cons_iff in Htodo as [[Hv Hp] Htodo]. cbn [fold_left].
    rewrite round_in_segments;
      [|exact Hv|exact Hp|now apply ok_rewrite|now apply quiet_rewrite].
    rewrite replace_after_rewrite, IH by exact Htodo.
    now rewrite <- app_assoc.
Qed.

Lemma rewrite_if_none (l : list segment) :
  List.map (rewrite_if (among [])) l = l.
Proof.
  induction l as [|[c|u] l IH]; cbn [List.map rewrite_if among existsb];
    [reflexivity| |]; now rewrite IH.
Qed.

Lemma among_self (chosen : list string) (u : string) :
  In u chosen -> among chosen u = true.
Proof.
  intros H. unfold among. apply existsb_exists. exists u.
  split; [exact H|apply String.eqb_refl].
Qed.

Lemma rewrite_if_all (chosen : list string) (l : list segment) :
  incl (spans_of l) chosen ->
  List.map (rewrite_if (among chosen)) l = List.map (rewrite_if (fun _ => true)) l.
Proof.
  induction l as [|[c|u] l IH]; intros H; [reflexivity| |].
  - cbn [List.map rewrite_if]. now rewrite IH.
  - cbn [List.map rewrite_if]. rewrite among_self by (apply H; now left).
    rewrite IH; [reflexivity|]. intros w Hw. apply H. now right.
Qed.

Lemma normalizeVariables_loop (s : string) :
  normalizeVariables (Some s) = fold_left rewrite_round (Regex.match_regexVariable s) s.
Proof. reflexivity. Qed.

(** On a text whose spans are plain, the loop rewrites every span of the
    text cut into segments. *)
Lemma loop_rewrites_segments (s : string) :
  Forall plain_span (Regex.match_regexVariable s) ->
  fold_left rewrite_round (Regex.match_regexVariable s) s
  = flat (List.map (rewrite_if (fun _ => true)) (segments s)).
Proof.
  intros Hplain. unfold Regex.match_regexVariable in *.
  rewrite matches_as_segments in *. fold (segments s) in *.
  assert (Hspans : Forall (fun u => is_span u /\ plain_span u) (spans_of (segments s))).
  { pose proof (segments_spans s) as Hs. rewrite Forall_forall in *. intros u Hu. auto. }
  rewrite <- (flat_segments s) at 2. rewrite <- (rewrite_if_none (segments s)) at 2.
  rewrite loop_in_segments;
    [|exact Hspans|apply segments_quiet|exact Hspans].
  now rewrite rewrite_if_all by apply incl_refl.
Qed.

(** X1. On a text whose spans are plain, the rewriter rewrites every span
    where it stands and keeps the text between the spans. *)
Theorem normalizeVariables_plain_spans (s : string) :
  Forall plain_span (Regex.match_regexVariable s) ->
  normalizeVariables (Some s) = rewrite_spans s.
Proof.
  intros Hplain. rewrite normalizeVariables_loop, loop_rewrites_segments by exact Hplain.
  unfold rewrite_spans. now rewrite rewrite_spans_as_segments.
Qed.

End LoopFacts.

Section IdempotenceFacts.

Lemma braced_head (u : string) : braced u -> exists t, u = String "{" t.
Proof. intros (body & -> & _). now eexists. Qed.

(** Where the lazy match finds closing braces, the segments say so. *)
Lemma lazy_close_closable (l : list segment) :
  Forall braced (spans_of l) ->
  Regex.lazy_close (flat l) <> None -> closable l = true.
Proof.
  induction l as [|[c|u] l IH]; intros Hb Hs; [now elim Hs| |reflexivity].
  cbn [spans_of] in Hb. cbn [flat] in Hs. cbn [Regex.lazy_close] in Hs.
  cbn [closable].
  destruct (String.prefix "}}" (String c (flat l))) eqn:Hp.
  - apply prefix2_inv in Hp as (-> & rest & E).
    destruct l as [|[d|u] l]; [discriminate| |].
    + cbn [flat] in E. injection E as -> _. reflexivity.
    + apply Forall_cons_iff in Hb as [Hu _]. destruct (braced_head Hu) as (t & ->).
      discriminate E.
  - destruct (Regex.is_line_terminator c) eqn:Ht; [now elim Hs|].
    rewrite IH.
    + destruct l as [|[d|u] l]; try reflexivity.
      now destruct (Ascii.eqb c "}" && Ascii.eqb d "}").
    + exact Hb.
    + intros E. rewrite E in Hs. now elim Hs.
Qed.

Lemma at_none_of_quiet (c : ascii) (l : list segment) :
  Forall braced (spans_of l) ->
  opens (Lit c :: l) = false ->
  Regex.regexVariable_at (String c (flat l)) = None.
Proof.
  intros Hb Ho. unfold Regex.regexVariable_at.
  destruct (String.prefix "{{" (String c (flat l))) eqn:Hp; [|reflexivity].
  apply prefix2_inv in Hp as (-> & rest & E). rewrite E.
  change (Str.drop 2 (String "{" (String "{" rest))) with rest.
  destruct (Regex.lazy_close rest) as [[m r]|] eqn:Hs; [exfalso|reflexivity].
  cbn [opens] in Ho. destruct l as [|[d|u] l]; [discriminate| |discriminate].
  cbn [flat] in E. injection E as -> E. cbn [spans_of] in Hb.
  rewrite lazy_close_closable in Ho; [discriminate|exact Hb|].
  rewrite E, Hs. discriminate.
Qed.

Lemma at_none_other (c : ascii) (t : string) :
  Ascii.eqb c "{" = false -> Regex.regexVariable_at (String c t) = None.
Proof.
  intros Hc. unfold Regex.regexVariable_at. rewrite prefix_cons.
  now rewrite Ascii.eqb_sym, Hc.
Qed.

Lemma segments_no_brace (z t : string) :
  count_char "{" z = 0 -> spans_of (segments (z ++ t)) = spans_of (segments t).
Proof.
  induction z as [|c z IH]; intros H; [reflexivity|].
  cbn [count_char] in H. destruct (Ascii.eqb c "{") eqn:Hc; [lia|].
  cbn [append]. rewrite segments_lit by now apply at_none_other.
  cbn [spans_of]. apply IH. lia.
Qed.

(** In a text whose spans are all rewritten, what the regular expression
    matches is clean. *)
Lemma matches_of_rewritten (l : list segment) :
  quiet_lits l ->
  Forall (fun u => braced u /\ clean u = true /\ count_char "$" u = 0) (spans_of l) ->
  Forall (fun m => clean m = true /\ count_char "$" m = 0 /\ Str.is_empty m = false)
         (spans_of (segments (flat l))).
Proof.
  induction l as [|[c|u] l IH]; intros Hq Hok; [constructor| |].
  - cbn [quiet_lits] in Hq. destruct Hq as [Ho Hq]. cbn [spans_of] in Hok.
    cbn [flat]. rewrite segments_lit.
    + cbn [spans_of]. now apply IH.
    + apply at_none_of_quiet; [|exact Ho].
      eapply Forall_impl; [|exact Hok]. now intros a [H _].
  - cbn [quiet_lits] in Hq. cbn [spans_of] in Hok.
    apply Forall_cons_iff in Hok as [(Hb & Hc & Hd) Hok].
    destruct Hb as (bu & Eu & Hbu). cbn [flat].
    assert (Hcb : clean bu = true).
    { rewrite Eu in Hc.
      change ("{{" ++ bu ++ "}}")%string with ("{{" ++ (bu ++ "}}"))%string in Hc.
      rewrite !clean_append in Hc. apply andb_prop in Hc as [_ Hc].
      now apply andb_prop in Hc as [Hc _]. }
    destruct (lazy_close_clean bu (flat l) Hcb) as (m' & rest & Hs).
    assert (Hat : Regex.regexVariable_at (u ++ flat l) = Some ("{{" ++ m')%string).
    { unfold Regex.regexVariable_at. rewrite Eu.
      change (("{{" ++ bu ++ "}}") ++ flat l)%string
        with ("{{" ++ ((bu ++ "}}") ++ flat l))%string.
      rewrite prefix_append.
      change (Str.drop 2 ("{{" ++ (bu ++ "}}") ++ flat l))
        with ((bu ++ "}}") ++ flat l)%string.
      now rewrite append_assoc, Hs. }
    assert (exists z, (bu ++ "}}")%string = (m' ++ z)%string
                      /\ rest = (z ++ flat l)%string) as (z & Ez & Erest).
    { pose proof (lazy_close_split _ Hs) as E. rewrite <- append_assoc in E.
      destruct (append_eq_split _ _ _ _ E) as (z & [[E1 E2]|[E1 E2]]).
      - exists z. now split.
      - apply lazy_close_bound in Hs. pose proof (f_equal String.length E1) as Hlen.
        rewrite !length_append in Hlen. simpl in Hlen.
        destruct z; [|simpl in Hlen; lia].
        exists EmptyString. rewrite append_nil_r in E1. split.
        + now rewrite append_nil_r.
        + now rewrite E2. }
    destruct (segments_span _ Hat) as (rest0 & E0 & ->).
    assert (rest0 = rest) as ->.
    { rewrite Eu in E0.
      change (("{{" ++ bu ++ "}}") ++ flat l)%string
        with ("{{" ++ ((bu ++ "}}") ++ flat l))%string in E0.
      rewrite Ez, !append_assoc in E0. rewrite <- Erest in E0.
      change (("{{" ++ m') ++ rest0)%string with ("{{" ++ (m' ++ rest0))%string in E0.
      apply append_inv_head in E0. now apply append_inv_head in E0. }
    cbn [spans_of]. constructor.
    + rewrite Eu in Hc, Hd.
      change ("{{" ++ bu ++ "}}")%string with ("{{" ++ (bu ++ "}}"))%string in Hc, Hd.
      rewrite Ez in Hc, Hd.
      rewrite !clean_append in Hc. rewrite !count_char_append in Hd.
      apply andb_prop in Hc as [H1 Hc]. apply andb_prop in Hc as [H2 _].
      split; [|split; [|reflexivity]].
      * rewrite clean_append. now rewrite H1, H2.
      * rewrite count_char_append. lia.
    + rewrite Erest, segments_no_brace.
      * now apply IH.
      * apply (f_equal (count_char "{")) in Ez.
        rewrite !count_char_append, Hbu in Ez. simpl in Ez. lia.
Qed.

Lemma loop_on_clean (t : string) (ms : list string) :
  Forall (fun m => clean m = true /\ count_char "$" m = 0 /\ Str.is_empty m = false) ms ->
  fold_left rewrite_round ms t = t.
Proof.
  induction 1 as [|m ms (Hc & Hd & He) _ IH]; [reflexivity|].
  cbn [fold_left]. unfold rewrite_round at 2.
  rewrite (rewritten_of_clean _ Hc), replaceAll_same by assumption. exact IH.
Qed.

(** X2. On a text whose spans are plain, rewriting the output of the
    rewriter changes nothing. *)
Theorem normalizeVariables_idempotent_on_plain_spans (s : string) :
  Forall plain_span (Regex.match_regexVariable s) ->
  normalizeVariables (Some (normalizeVariables (Some s))) = normalizeVariables (Some s).
Proof.
  intros Hplain.
  rewrite (normalizeVariables_loop s), (loop_rewrites_segments s Hplain).
  rewrite normalizeVariables_loop.
  unfold Regex.match_regexVariable in *. rewrite matches_as_segments in *.
  fold (segments s) in *.
  match goal with
  | |- context [segments_from ?t 0] => fold (segments t)
  end.
  apply loop_on_clean. apply matches_of_rewritten.
  - apply quiet_rewrite, segments_quiet.
  - pose proof (segments_spans s) as Hs.
    induction (segments s) as [|[c|u] l IH]; [constructor| |].
    + now apply IH.
    + cbn [spans_of] in *. apply Forall_cons_iff in Hplain as [Hp Hplain].
      apply Forall_cons_iff in Hs as [Hu Hs]. cbn [List.map rewrite_if spans_of].
      constructor; [|now apply IH].
      split; [apply rewritten_braced; now apply plain_span_braced|].
      split; [apply rewritten_clean|]. apply rewritten_no_dollar. now destruct Hp.
Qed.

End IdempotenceFacts.

(** ** Distinct display names *)

Section DistinctNames.
Import Insomnia.

Lemma string_of_uint_no_underscore (d : Decimal.uint) :
  count_char "_" (NilZero.string_of_uint d) = 0.
Proof.
  assert (H : forall u, count_char "_" (NilEmpty.string_of_uint u) = 0)
    by (induction u; simpl; auto).
  destruct d; try apply H; reflexivity.
Qed.

Lemma to_uint_not_nil (n : nat) : Nat.to_uint n <> Decimal.Nil.
Proof.
  intros H. pose proof (Unsigned.of_to n) as E. rewrite H in E.
  simpl in E. subst n. discriminate H.
Qed.

Lemma of_nat_inj (n m : nat) : Str.of_nat n = Str.of_nat m -> n = m.
Proof.
  unfold Str.of_nat. intros H.
  apply (f_equal NilZero.uint_of_string) in H.
  rewrite !NilZero.usu in H by apply to_uint_not_nil.
  injection H as H. apply (f_equal Nat.of_uint) in H.
  now rewrite !Unsigned.of_to in H.
Qed.

Lemma last_underscore (a b d e : string) :
  count_char "_" d = 0 -> count_char "_" e = 0 ->
  (a ++ "_" ++ d = b ++ "_" ++ e)%string -> a = b /\ d = e.
Proof.
  intros Hd He. revert b.
  induction a as [|x a IH]; intros [|y b] H; simpl in H.
  - injection H as H. now split.
  - injection H as <- H. rewrite H in Hd.
    rewrite count_char_append in Hd. simpl in Hd. lia.
  - injection H as -> H. rewrite <- H in He.
    rewrite count_char_append in He. simpl in He. lia.
  - injection H as -> H. destruct (IH _ H) as [-> ->]. now split.
Qed.

Lemma map_from_length {A B : Type} (f : A -> nat -> B) (l : list A) :
  forall index, length (Arr.map_from f index l) = length l.
Proof. induction l as [|x l IH]; intros index; simpl; [reflexivity|now rewrite IH]. Qed.

Lemma map_from_nth {A B : Type} (f : A -> nat -> B) :
  forall (l : list A) (index k : nat) (x : A),
    nth_error l k = Some x ->
    nth_error (Arr.map_from f index l) k = Some (f x (index + k)).
Proof.
  induction l as [|y l IH]; intros index [|k] x H; simpl in *; try discriminate.
  - injection H as ->. now rewrite Nat.add_0_r.
  - rewrite (IH (S index) k x H). f_equal. f_equal. lia.
Qed.

(** A sibling counts among the namesakes of every later sibling. *)
Lemma namesakes_grow (nm : string) :
  forall (l : list Resource.t) (i j : nat) (x : Resource.t),
    i < j -> nth_error l i = Some x -> Resource.name x = nm ->
    length (filter (fun o => String.eqb (Resource.name o) nm) (firstn i l))
    < length (filter (fun o => String.eqb (Resource.name o) nm) (firstn j l)).
Proof.
  induction l as [|y l IH]; intros [|i] [|j] x Hlt Hx Hnm; simpl in *;
    try discriminate; try lia.
  - injection Hx as ->. rewrite Hnm, String.eqb_refl. simpl. lia.
  - assert (Hij : i < j) by lia. specialize (IH i j x Hij Hx Hnm).
    destruct (String.eqb (Resource.name y) nm); simpl; lia.
Qed.

(** X5. When no sibling is named like another sibling followed by an
    underscore and a positive number, the display names of the siblings
    are pairwise distinct. *)
Theorem displayNames_distinct (siblings : list Resource.t) :
  suffix_free siblings -> NoDup (displayNames siblings).
Proof.
  intros Hfree. apply NoDup_nth_error. intros i j Hi E.
  unfold displayNames, Arr.map in *. rewrite map_from_length in Hi.
  destruct (nth_error siblings i) as [x|] eqn:Hx;
    [|apply nth_error_None in Hx; lia].
  rewrite (map_from_nth _ siblings 0 i Hx) in E. simpl in E.
  destruct (nth_error siblings j) as [y|] eqn:Hy.
  2:{ apply nth_error_None in Hy.
      assert (Hnone : nth_error (Arr.map_from
                (fun item index => addSuffixToDuplicateName item index siblings) 0 siblings) j = None)
        by (apply nth_error_None; now rewrite map_from_length).
      rewrite Hnone in E. discriminate. }
  rewrite (map_from_nth _ siblings 0 j Hy) in E. simpl in E. injection E as E.
  rewrite !addSuffix_rule in E. unfold earlier_namesakes in E.
  assert (Hsame : Resource.name x = Resource.name y ->
                  length (filter (fun o => String.eqb (Resource.name o) (Resource.name x))
                                 (firstn i siblings))
                  = length (filter (fun o => String.eqb (Resource.name o) (Resource.name y))
                                   (firstn j siblings)) ->
                  i = j).
  { intros Hn Hc. rewrite <- Hn in Hc.
    destruct (Nat.lt_trichotomy i j) as [Hlt|[Heq|Hgt]]; [|exact Heq|].
    - pose proof (namesakes_grow siblings Hlt Hx eq_refl). lia.
    - pose proof (namesakes_grow siblings Hgt Hy (eq_sym Hn)). lia. }
  destruct (length (filter _ (firstn i siblings))) as [|n] eqn:Hn;
    destruct (length (filter _ (firstn j siblings))) as [|m] eqn:Hm.
  - apply Hsame; [exact E|congruence].
  - exfalso. apply (Hfree x y m); [eapply nth_error_In; eassumption..|exact E].
  - exfalso. apply (Hfree y x n); [eapply nth_error_In; eassumption..|now symmetry].
  - apply last_underscore in E as [En Ed];
      try apply string_of_uint_no_underscore.
    apply of_nat_inj in Ed. apply Hsame; [exact En|congruence].
Qed.

End DistinctNames.

(** ** Headers and parameters of a request *)

Section RequestFields.
Import Insomnia.
Variable JSON_parse : string -> option json.
Variable JSON_stringify : json -> string.

Lemma numbered_fields {A B C : Type} (build : nat -> A -> B) (fields : B -> C) (g : A -> C) :
  (forall uid x, fields (build uid x) = g x) ->
  forall (l : list A) (first : nat),
    List.map fields (numbered build first l) = List.map g l.
Proof.
  intros H. unfold numbered.
  induction l as [|x l IH]; intros first; simpl; [reflexivity|].
  now rewrite H, IH.
Qed.

(** X6. Whenever the transformer returns an item, which it does unless
    the MIME type of the body is [null], the item keeps the headers, the
    query parameters and the path parameters of the request in number and
    order. A header and a query parameter keep their name and description,
    get their value rewritten and are enabled unless disabled; a path
    parameter keeps its name and its value as it is, gets an empty
    description and is always enabled; the query parameters come before
    the path parameters. The url is rewritten and the method is kept. *)
Theorem headers_and_params_kept (request : Resource.t) (index : nat)
        (allRequests : list Resource.t) (w : world) :
  (forall (item : Bruno.item) (w' : world),
      transformInsomniaRequestItem JSON_parse JSON_stringify request index allRequests w
      = (Normal item, w') ->
      exists uid type request',
        item = Bruno.Leaf uid (addSuffixToDuplicateName request index allRequests)
                          type request'
        /\ Bruno.Request.url request' = normalizeVariables (Resource.url request)
        /\ Bruno.Request.method request' = Resource.method request
        /\ List.map header_fields (Bruno.Request.headers request')
           = List.map (fun header =>
                         (Pair.name header, normalizeVariables (Pair.value header),
                          Pair.description header, negb (Pair.disabled header)))
                      (Resource.headers request)
        /\ List.map param_fields (Bruno.Request.params request')
           = List.map (fun param =>
                         (Pair.name param, Some (normalizeVariables (Pair.value param)),
                          Pair.description param, "query", negb (Pair.disabled param)))
                      (Resource.parameters request)
             ++ List.map (fun param =>
                            (Pair.name param, Pair.value param, Some "", "path", true))
                         (Resource.pathParameters request))
  /\ (~ null_mimeType request ->
      exists item w',
        transformInsomniaRequestItem JSON_parse JSON_stringify request index allRequests w
        = (Normal item, w')).
Proof.
  split; [|apply transform_returns].
  intros item w' H. rewrite transform_runs in H. cbv zeta in H.
  destruct (transformInsomniaRequestItem_body _ _ _ _) as [[tb|e] w1]; [|discriminate].
  injection H as <- _. do 3 eexists. split; [reflexivity|]. simpl.
  split; [reflexivity|]. split; [reflexivity|].
  split.
  - now apply numbered_fields.
  - rewrite map_app. f_equal; now apply numbered_fields.
Qed.

End RequestFields.

(** ** The shape of the tree *)

Section TreeShape.
Import Insomnia.
Variable JSON_parse : string -> option json.
Variable JSON_stringify : json -> string.

(** What an indexed loop returns, element by element: each result comes
    from its element at its index. *)
Lemma mapM_from_indexed {A B : Type} (f : A -> nat -> M B) :
  forall (l : list A) (index : nat) (w w' : world) (out : list B),
    Arr.mapM_from f index l w = (Normal out, w') ->
    Forall2 (fun xi y => exists w1 w2, f (fst xi) (snd xi) w1 = (Normal y, w2))
            (combine l (seq index (length l))) out.
Proof.
  induction l as [|x l IH]; intros index w w' out H; simpl in H.
  - injection H as <- _. constructor.
  - apply bind_normal_inv in H as (y & w1 & Hy & H).
    apply bind_normal_inv in H as (ys & w2 & Hys & H).
    injection H as <- _. simpl. constructor; eauto.
Qed.

Lemma map_from_combine {A B : Type} (f : A -> nat -> B) :
  forall (l : list A) (index : nat),
    Arr.map_from f index l
    = List.map (fun xi => f (fst xi) (snd xi)) (combine l (seq index (length l))).
Proof.
  induction l as [|x l IH]; intros index; simpl; [reflexivity|now rewrite IH].
Qed.

Lemma Forall2_map_eq {A B C : Type} (R : A -> B -> Prop) (g : A -> C) (h : B -> C) :
  (forall a b, R a b -> h b = g a) ->
  forall l out, Forall2 R l out -> List.map h out = List.map g l.
Proof.
  intros Hr l out H. induction H as [|a b l out Hab _ IH]; simpl; [reflexivity|].
  now rewrite (Hr _ _ Hab), IH.
Qed.

(** The request items of a sibling list carry the display names of the
    siblings, in order. *)
Lemma leaves_names (requests : list Resource.t) (w w' : world) (out : list Bruno.item) :
  Arr.mapM (fun request index =>
              transformInsomniaRequestItem JSON_parse JSON_stringify request index requests)
           requests w = (Normal out, w') ->
  List.map Bruno.Item.name out = displayNames requests.
Proof.
  intros H. apply mapM_from_indexed in H.
  unfold displayNames, Arr.map. rewrite map_from_combine.
  eapply Forall2_map_eq; [|exact H].
  intros [x i] y (w1 & w2 & Hy). simpl in *.
  now apply transform_inv in Hy as (type & request' & -> & _).
Qed.

(** One level of the tree builder: the folders of the request groups
    parented to [parentId], then the items of the requests parented to it. *)
Lemma createFolderStructure_level (stack : nat) (resources : list Resource.t)
      (parentId : option string) (w w' : world) (root : list Bruno.item) :
  createFolderStructure JSON_parse JSON_stringify stack resources parentId w
  = (Normal root, w') ->
  exists stack' folders leaves,
    stack = S stack' /\ root = folders ++ leaves
    /\ List.map Bruno.Item.name leaves
       = displayNames (filter (is_child "request" parentId) resources)
    /\ Forall (fun i => Bruno.Item.is_folder i = false) leaves
    /\ Forall2 (fun gi folder =>
                  exists uid below own v v' u u',
                    folder
                    = Bruno.Folder uid
                        (addSuffixToDuplicateName (fst gi) (snd gi)
                           (filter (is_child "request_group" parentId) resources))
                        (below ++ own)
                    /\ createFolderStructure JSON_parse JSON_stringify stack' resources
                         (Some (Resource._id (fst gi))) v = (Normal below, v')
                    /\ Arr.mapM (fun request index =>
                                   transformInsomniaRequestItem JSON_parse JSON_stringify
                                     request index
                                     (filter (is_child "request" (Some (Resource._id (fst gi))))
                                             resources))
                                (filter (is_child "request" (Some (Resource._id (fst gi))))
                                        resources) u = (Normal own, u'))
               (combine (filter (is_child "request_group" parentId) resources)
                        (seq 0 (length (filter (is_child "request_group" parentId) resources))))
               folders.
Proof.
  destruct stack as [|stack]; intros H; simpl in H; [discriminate|].
  apply bind_normal_inv in H as ([] & w1 & _ & H).
  apply bind_normal_inv in H as (folders & w2 & Hfolders & H).
  apply bind_normal_inv in H as (leaves & w3 & Hleaves & H).
  injection H as <- _.
  exists stack, folders, leaves. split; [reflexivity|]. split; [reflexivity|].
  split; [exact (leaves_names _ _ Hleaves)|].
  split; [exact (proj1 (leaves_only _ _ _ _ _ Hleaves))|].
  apply mapM_from_indexed in Hfolders.
  eapply Forall2_impl; [|exact Hfolders].
  intros [g i] folder (v1 & v2 & Hf). simpl in *.
  apply bind_normal_inv in Hf as (uid & v3 & _ & Hf).
  apply bind_normal_inv in Hf as (below & v4 & Hbelow & Hf).
  apply bind_normal_inv in Hf as (own & v5 & Hown & Hf).
  injection Hf as <- _. exists uid, below, own, v3, v4, v4, v5. now repeat split.
Qed.

Lemma Forall2_In_l {A B : Type} (R : A -> B -> Prop) (l : list A) (out : list B) :
  Forall2 R l out -> Forall2 (fun a b => In a l /\ R a b) l out.
Proof.
  induction 1 as [|a b l out Hab _ IH]; constructor.
  - split; [now left|exact Hab].
  - eapply Forall2_impl; [|exact IH]. intros x y [Hin Hxy]. split; [now right|exact Hxy].
Qed.

Lemma no_levels_in_leaves (l : list Bruno.item) :
  Forall (fun i => Bruno.Item.is_folder i = false) l -> flat_map levels l = [].
Proof.
  induction 1 as [|[uid nm items|uid nm ty rq] l Hx _ IH]; simpl; [reflexivity|discriminate|exact IH].
Qed.

Lemma folders_of_level (resources : list Resource.t) (parentId : option string)
      (R : Resource.t * nat -> Bruno.item -> Prop) (folders : list Bruno.item) :
  Forall2 R (combine (filter (is_child "request_group" parentId) resources)
                     (seq 0 (length (filter (is_child "request_group" parentId) resources))))
          folders ->
  Forall2 (fun gi folder =>
             (In (fst gi) resources /\ Resource._type (fst gi) = "request_group")
             /\ R gi folder)
          (combine (filter (is_child "request_group" parentId) resources)
                   (seq 0 (length (filter (is_child "request_group" parentId) resources))))
          folders.
Proof.
  intros H. apply Forall2_In_l in H.
  eapply Forall2_impl; [|exact H]. intros [g i] folder [Hin Hr]. split; [|exact Hr].
  apply in_combine_l in Hin. apply filter_In in Hin as [Hin Hchild].
  apply is_child_inv in Hchild as [Hk _]. now split.
Qed.

Lemma createFolderStructure_twice :
  forall (stack : nat) (resources : list Resource.t) (parentId : option string)
         (w w' : world) (root : list Bruno.item),
    createFolderStructure JSON_parse JSON_stringify stack resources parentId w
    = (Normal root, w') ->
    Forall (requests_twice resources) (flat_map levels root).
Proof.
  induction stack as [|stack IH]; intros resources parentId w w' root H;
    [discriminate|].
  apply createFolderStructure_level in H
    as (stack' & folders & leaves & Hs & -> & _ & Hleaf & Hfolders).
  injection Hs as <-.
  rewrite flat_map_app, (no_levels_in_leaves Hleaf), app_nil_r.
  apply folders_of_level in Hfolders.
  induction Hfolders as [|[g i] folder l out Hfolder _ IHf]; [constructor|].
  destruct Hfolder as ([Hin Hkind] & uid & below & own & v & v' & u & u' & -> & Hbelow & Hown).
  simpl in *. constructor; [|apply Forall_app; split; [|exact IHf]].
  - pose proof Hbelow as Hlevel.
    apply createFolderStructure_level in Hlevel
      as (s' & subfolders & first & _ & -> & Hfirst & Hfl & Hsub).
    exists g, subfolders, first, own. split; [exact Hin|]. split; [exact Hkind|].
    split; [now rewrite <- app_assoc|].
    split.
    { clear - Hsub. induction Hsub as [|gi f l out (uid & b & o & ? & ? & ? & ? & -> & _) _ IHs];
        now constructor. }
    split; [apply Forall_app; split; [exact Hfl|exact (proj1 (leaves_only _ _ _ _ _ Hown))]|].
    split; [exact Hfirst|exact (leaves_names _ _ Hown)].
  - rewrite flat_map_app.
    rewrite (no_levels_in_leaves (proj1 (leaves_only _ _ _ _ _ Hown))), app_nil_r.
    exact (IH _ _ _ _ _ Hbelow).
Qed.

(** X7. In every folder of the tree, at whatever depth, the items are the
    folders of the request group, then the items of its requests, then
    the items of the same requests once more, under the same display
    names. *)
Theorem folder_requests_listed_twice
        (stack : nat) (resources : list Resource.t) (parentId : option string)
        (w w' : world) (root : list Bruno.item) :
  createFolderStructure JSON_parse JSON_stringify stack resources parentId w
  = (Normal root, w') ->
  forall items, In items (flat_map levels root) -> requests_twice resources items.
Proof.
  intros H items Hin. apply createFolderStructure_twice in H.
  rewrite Forall_forall in H. now apply H.
Qed.

(** X8. The level the tree builder is asked for holds the folders of the
    request groups parented to the parent, under their display names,
    followed by the items of the requests parented to it, each once, under
    theirs: groups and requests are de-duplicated apart. *)
Theorem tree_level_names
        (stack : nat) (resources : list Resource.t) (parentId : option string)
        (w w' : world) (root : list Bruno.item) :
  createFolderStructure JSON_parse JSON_stringify stack resources parentId w
  = (Normal root, w') ->
  exists folders leaves,
    root = folders ++ leaves
    /\ Forall (fun i => Bruno.Item.is_folder i = true) folders
    /\ Forall (fun i => Bruno.Item.is_folder i = false) leaves
    /\ List.map Bruno.Item.name folders
       = displayNames (filter (is_child "request_group" parentId) resources)
    /\ List.map Bruno.Item.name leaves
       = displayNames (filter (is_child "request" parentId) resources).
Proof.
  intros H.
  apply createFolderStructure_level in H
    as (stack' & folders & leaves & _ & -> & Hnames & Hleaf & Hfolders).
  exists folders, leaves. split; [reflexivity|].
  split.
  { clear - Hfolders.
    induction Hfolders as [|gi f l out (uid & b & o & ? & ? & ? & ? & -> & _) _ IHs];
      now constructor. }
  split; [exact Hleaf|]. split; [|exact Hnames].
  unfold displayNames, Arr.map. rewrite map_from_combine.
  eapply Forall2_map_eq; [|exact Hfolders].
  now intros gi f (uid & b & o & ? & ? & ? & ? & -> & _).
Qed.

End TreeShape.

(** ** The environments that are converted *)

Section ReachFacts.

Import Insomnia.

Lemma map_option_inv {A B : Type} (f : A -> option B) :
  forall (l : list A) (ys : list B),
    map_option f l = Some ys -> Forall2 (fun x y => f x = Some y) l ys.
Proof.
  induction l as [|x l IH]; intros ys H; simpl in H.
  - injection H as <-. constructor.
  - destruct (f x) as [y|] eqn:Hx; [|discriminate].
    destruct (map_option f l) as [ys'|]; [|discriminate].
    injection H as <-. constructor; [exact Hx|now apply IH].
Qed.

Lemma Forall2_pick_r {A B : Type} (R : A -> B -> Prop) (l : list A) (ys : list B) :
  Forall2 R l ys -> forall y, In y ys -> exists x, In x l /\ R x y.
Proof.
  induction 1 as [|a b l ys Hab _ IH]; intros y Hin; [contradiction|].
  destruct Hin as [<-|Hin]; [exists a; split; [now left|exact Hab]|].
  destruct (IH y Hin) as (x & Hx & Hr). exists x. split; [now right|exact Hr].
Qed.

Lemma Forall2_pick_l {A B : Type} (R : A -> B -> Prop) (l : list A) (ys : list B) :
  Forall2 R l ys -> forall x, In x l -> exists y, In y ys /\ R x y.
Proof.
  induction 1 as [|a b l ys Hab _ IH]; intros x Hin; [contradiction|].
  destruct Hin as [<-|Hin]; [exists b; split; [now left|exact Hab]|].
  destruct (IH x Hin) as (y & Hy & Hr). exists y. split; [now right|exact Hr].
Qed.

(** The environments of the forest below [parentId] are those whose chain
    of parents ends at [parentId]. *)
Lemma env_forest_below (resources : list Resource.t) :
  forall (depth : nat) (parentId : option string) (forest : list env_tree),
    env_forest depth resources parentId = Some forest ->
    forall environment,
      In environment (flat_map preorder forest)
      <-> env_below resources parentId environment.
Proof.
  induction depth as [|depth IH]; intros parentId forest H environment; [discriminate|].
  simpl in H. apply map_option_inv in H. split.
  - intros Hin. apply in_flat_map in Hin as (tree & Htree & Hin).
    apply (Forall2_pick_r H) in Htree.
    destruct Htree as (child & Hchild & Ht).
    destruct (env_forest depth resources (Some (Resource._id child))) as [kids|] eqn:Hk;
      [|discriminate].
    injection Ht as <-. apply filter_In in Hchild as [Hc1 Hc2].
    simpl in Hin. destruct Hin as [<-|Hin].
    + now apply env_child.
    + apply env_descendant with (parent := child); [exact Hc1|exact Hc2|].
      now apply (IH _ _ Hk).
  - intros Hbelow. revert forest H.
    induction Hbelow as [parentId environment Hin Hchild
                        |parentId parent environment Hin Hchild Hbelow IHb];
      intros forest H.
    + assert (Hf : In environment (filter (is_child "environment" parentId) resources))
        by now apply filter_In.
      apply (Forall2_pick_l H) in Hf. destruct Hf as (tree & Htree & Ht).
      destruct (env_forest depth resources (Some (Resource._id environment))) as [kids|];
        [|discriminate].
      injection Ht as <-. apply in_flat_map. eexists. split; [exact Htree|]. now left.
    + assert (Hf : In parent (filter (is_child "environment" parentId) resources))
        by now apply filter_In.
      apply (Forall2_pick_l H) in Hf. destruct Hf as (tree & Htree & Ht).
      destruct (env_forest depth resources (Some (Resource._id parent))) as [kids|] eqn:Hk;
        [|discriminate].
      injection Ht as <-. apply in_flat_map. eexists. split; [exact Htree|].
      right. now apply (IH _ _ Hk).
Qed.

(** X9. The environments the builder converts are those below the parent
    it is asked for, each of them and no other, one target environment
    for each under its name: an environment whose chain of parents does
    not end at that parent is left out. *)
Theorem converted_environments_are_those_below
        (stack : nat) (resources : list Resource.t) (parentId : option string)
        (w w' : world) (out : list Bruno.Environment.t) :
  createEnvironments stack resources parentId w = (Normal out, w') ->
  exists sources,
    Forall2 made_for sources out
    /\ forall environment,
        In environment sources <-> env_below resources parentId environment.
Proof.
  intros H. apply createEnvironments_preorder in H as (forest & Hforest & Hrender).
  exists (flat_map preorder forest). split; [exact Hrender|].
  exact (env_forest_below _ _ _ Hforest).
Qed.

End ReachFacts.

Section DataFacts.

Import Insomnia.


End DataFacts.

(** ** The outcomes of a conversion *)

Section OutcomeFacts.
Import Insomnia.
Variable JSON_parse : string -> option json.
Variable JSON_stringify : json -> string.









Lemma no_null_of_list (resources : list Resource.t) :
  ~ In None (List.map Some resources).
Proof. intros Hin. apply in_map_iff in Hin as (r & Hr & _). discriminate. Qed.

(** The conversion of a list of resource objects with a workspace: what
    the promise becomes depends on the two builders only. *)
Lemma executor_with_workspace (stack : nat) (resources : list Resource.t) (w : world)
      (workspace : Resource.t) :
  find (has_type "workspace") resources = Some workspace ->
  let data := Document.of_list resources in
  let w0 := World (S (next_uid w)) None (entered w) in
  let environments := filter (has_type "environment") resources in
  let requestsAndFolders :=
    filter (fun resource => has_type "request" resource || has_type "request_group" resource)
           resources in
  match createEnvironments stack environments (Some (Resource._id workspace)) w0 with
  | (Throw _, _) =>
      settled (parseInsomniaCollection JSON_parse JSON_stringify stack data w)
      = Some (Rejected parsing_failed)
  | (Normal envs, w1) =>
      match createFolderStructure JSON_parse JSON_stringify stack requestsAndFolders
              (Some (Resource._id workspace)) w1 with
      | (Throw _, _) =>
          settled (parseInsomniaCollection JSON_parse JSON_stringify stack data w)
          = Some (Rejected parsing_failed)
      | (Normal items, _) =>
          settled (parseInsomniaCollection JSON_parse JSON_stringify stack data w)
          = Some (Resolved (Bruno.Collection.make (Resource.name workspace) (next_uid w)
                              "1" items envs))
      end
  end.
Proof.
  intros Hfind data w0 environments requestsAndFolders.
  pose proof (@conversion_of_entries JSON_parse JSON_stringify stack data w
                (List.map Some resources) (or_intror eq_refl) (no_null_of_list resources))
    as H.
  cbv zeta in H. rewrite objects_of_list, Hfind in H. exact H.
Qed.




(** X12. The outcomes of a conversion, for every document. When
    [resources] is [null] or another value that is no array, or an array
    with a [null] among its entries, the conversion is rejected as a
    parsing error. When it is absent, or a list of objects without
    workspace, the conversion is rejected with the message that the
    collection was not found. With a workspace among the objects it is
    rejected as a parsing error, or resolved with a collection that
    carries the name of the first workspace, the first identifier drawn
    and the version 1. *)
Theorem conversion_outcomes (stack : nat) (data : Document.t) (w : world) :
  match Document.resources data with
  | Document.NoArray =>
      settled (parseInsomniaCollection JSON_parse JSON_stringify stack data w)
      = Some (Rejected parsing_failed)
  | Document.Missing =>
      settled (parseInsomniaCollection JSON_parse JSON_stringify stack data w)
      = Some (Rejected not_found)
  | Document.Array entries =>
      if existsb is_null entries then
        settled (parseInsomniaCollection JSON_parse JSON_stringify stack data w)
        = Some (Rejected parsing_failed)
      else
        match find (has_type "workspace") (objects entries) with
        | None =>
            settled (parseInsomniaCollection JSON_parse JSON_stringify stack data w)
            = Some (Rejected not_found)
        | Some workspace =>
            settled (parseInsomniaCollection JSON_parse JSON_stringify stack data w)
            = Some (Rejected parsing_failed)
            \/ exists items environments,
                settled (parseInsomniaCollection JSON_parse JSON_stringify stack data w)
                = Some (Resolved (Bruno.Collection.make (Resource.name workspace)
                                    (next_uid w) "1" items environments))
        end
  end.
Proof.
  destruct (Document.resources data) as [| |entries] eqn:Hdata.
  - assert (Hno : ~ In None (@nil (option Resource.t))) by (intros []).
    exact (proj1 (@conversion_of_entries JSON_parse JSON_stringify stack data w []
                    (or_introl (conj Hdata eq_refl)) Hno)).
  - exact (proj1 (@conversion_no_array JSON_parse JSON_stringify stack data w Hdata)).
  - destruct (existsb is_null entries) eqn:Hex.
    + apply existsb_exists in Hex as ([r|] & Hin & Hr); [discriminate|].
      exact (proj1 (@conversion_null_entry JSON_parse JSON_stringify stack data w
                      entries Hdata Hin)).
    + assert (Hno : ~ In None entries).
      { intros Hin. assert (existsb is_null entries = true) as E
            by (apply existsb_exists; now exists None).
        congruence. }
      pose proof (@conversion_of_entries JSON_parse JSON_stringify stack data w entries
                    (or_intror Hdata) Hno) as H.
      cbv zeta in H.
      destruct (find (has_type "workspace") (objects entries)) as [workspace|].
      * destruct (createEnvironments _ _ _ _) as [[envs|e] w1]; [|now left].
        destruct (createFolderStructure _ _ _ _ _ _) as [[items|e] w2]; [|now left].
        right. now exists items, envs.
      * exact (proj1 H).
Qed.

Lemma no_child (kind : string) (parentId : option string) (keep : Resource.t -> bool)
      (resources : list Resource.t) :
  Forall (fun r => same_id (Resource.parentId r) parentId = false) resources ->
  filter (is_child kind parentId) (filter keep resources) = [].
Proof.
  induction 1 as [|r l Hr _ IH]; simpl; [reflexivity|].
  destruct (keep r); simpl; [|exact IH].
  unfold is_child at 1. rewrite Hr, andb_false_r. exact IH.
Qed.

(** X13. A document whose workspace has nothing parented to it resolves
    with an empty collection, no items and no environments, given one
    stack frame. *)
Theorem childless_workspace_resolves_empty (stack : nat) (resources : list Resource.t)
        (w : world) (workspace : Resource.t) :
  find (has_type "workspace") resources = Some workspace ->
  Forall (fun r => same_id (Resource.parentId r) (Some (Resource._id workspace)) = false)
         resources ->
  settled (parseInsomniaCollection JSON_parse JSON_stringify (S stack)
             (Document.of_list resources) w)
  = Some (Resolved (Bruno.Collection.make (Resource.name workspace) (next_uid w) "1" [] [])).
Proof.
  intros Hfind Hnone.
  pose proof (executor_with_workspace (S stack) resources w Hfind) as H. cbv zeta in H.
  pose proof (fun kind keep => @no_child kind _ keep _ Hnone) as Hn.
  simpl in H. rewrite !Hn in H. exact H.
Qed.

End OutcomeFacts.

(** ** The variable rewriter: texts without variables, lengths *)

Section BraceFacts.

Lemma no_match_without_opening (s : string) :
  count_char "{" s = 0 -> forall skip, Regex.match_regexVariable_from s skip = [].
Proof.
  induction s as [|c s IH]; intros H skip; [reflexivity|].
  cbn [count_char] in H. destruct (Ascii.eqb c "{") eqn:Hc; [lia|].
  cbn [Regex.match_regexVariable_from]. destruct skip as [|k]; [|apply IH; lia].
  rewrite at_none_other by exact Hc. apply IH. lia.
Qed.

Lemma lazy_close_unclosed (s : string) :
  count_char "}" s = 0 -> Regex.lazy_close s = None.
Proof.
  induction s as [|c s IH]; intros H; [reflexivity|].
  cbn [count_char] in H. destruct (Ascii.eqb c "}") eqn:Hc; [lia|].
  cbn [Regex.lazy_close]. rewrite prefix_cons, Ascii.eqb_sym, Hc.
  rewrite IH by lia. now destruct (Regex.is_line_terminator c).
Qed.

Lemma count_char_drop (c : ascii) (n : nat) :
  forall s, count_char c s = 0 -> count_char c (Str.drop n s) = 0.
Proof.
  induction n as [|n IH]; intros [|d s] H; simpl; try exact H; try reflexivity.
  apply IH. simpl in H. lia.
Qed.

Lemma no_match_without_closing (s : string) :
  count_char "}" s = 0 -> forall skip, Regex.match_regexVariable_from s skip = [].
Proof.
  induction s as [|c s IH]; intros H skip; [reflexivity|].
  assert (Hs : count_char "}" s = 0) by (cbn [count_char] in H; lia).
  cbn [Regex.match_regexVariable_from]. destruct skip as [|k]; [|now apply IH].
  unfold Regex.regexVariable_at.
  rewrite lazy_close_unclosed by now apply count_char_drop.
  destruct (String.prefix "{{" (String c s)); now apply IH.
Qed.

(** X14. A text without an opening brace, or without a closing brace,
    holds no variable and is returned as it is. *)
Theorem normalizeVariables_without_braces (s : string) :
  count_char "{" s = 0 \/ count_char "}" s = 0 ->
  normalizeVariables (Some s) = s.
Proof.
  intros H. unfold normalizeVariables, Regex.match_regexVariable.
  destruct H as [H|H];
    [rewrite no_match_without_opening by exact H
    |rewrite no_match_without_closing by exact H]; reflexivity.
Qed.

(** X15. The rewriting of one matched text leaves none of the characters
    it removes or replaces (blanks, brackets, dots), and rewriting its
    result changes nothing. *)
Theorem span_rewriting_clean_and_idempotent (variable : string) :
  clean (Regex.replaceAll_regexToUnderscore (Regex.replaceAll_regexToRemove variable))
  = true
  /\ Regex.replaceAll_regexToUnderscore
       (Regex.replaceAll_regexToRemove
          (Regex.replaceAll_regexToUnderscore (Regex.replaceAll_regexToRemove variable)))
     = Regex.replaceAll_regexToUnderscore (Regex.replaceAll_regexToRemove variable).
Proof.
  split.
  - apply (rewritten_clean variable).
  - apply (rewritten_idempotent variable).
Qed.

Lemma remove_length (s : string) :
  String.length (Regex.replaceAll_regexToRemove s) <= String.length s.
Proof.
  apply (remove_cases (fun s r => String.length r <= String.length s));
    simpl; intros; lia.
Qed.

Lemma underscore_length (s : string) :
  String.length (Regex.replaceAll_regexToUnderscore s) = String.length s.
Proof. induction s as [|c s IH]; simpl; [reflexivity|now rewrite IH]. Qed.

Lemma rewritten_length (u : string) : String.length (rewritten u) <= String.length u.
Proof. unfold rewritten. rewrite underscore_length. apply remove_length. Qed.

Lemma rewrite_if_length (chosen : string -> bool) (l : list segment) :
  String.length (flat (List.map (rewrite_if chosen) l)) <= String.length (flat l).
Proof.
  induction l as [|[c|u] l IH]; cbn [List.map rewrite_if flat]; [lia|simpl; lia|].
  destruct (chosen u); rewrite !length_append; [|lia].
  pose proof (rewritten_length u). lia.
Qed.

(** X16. On a text whose spans are plain, the rewriter never lengthens
    the text. *)
Theorem normalizeVariables_never_lengthens (s : string) :
  Forall plain_span (Regex.match_regexVariable s) ->
  String.length (normalizeVariables (Some s)) <= String.length s.
Proof.
  intros Hplain. rewrite normalizeVariables_loop, loop_rewrites_segments by exact Hplain.
  rewrite <- (flat_segments s) at 2. apply rewrite_if_length.
Qed.

End BraceFacts.

Section CleanFacts.

(** X22. A text whose matched spans hold none of the characters the
    rewriting removes or replaces, and no dollar sign, is returned as it
    is. *)
Theorem normalizeVariables_fixes_clean_spans (s : string) :
  Forall (fun variable => clean variable = true /\ count_char "$" variable = 0)
         (Regex.match_regexVariable s) ->
  normalizeVariables (Some s) = s.
Proof.
  intros Hclean. rewrite normalizeVariables_loop. apply loop_on_clean.
  unfold Regex.match_regexVariable in *. rewrite matches_as_segments in *.
  fold (segments s) in *.
  pose proof (segments_spans s) as Hspans.
  induction (spans_of (segments s)) as [|m ms IH]; [constructor|].
  apply Forall_cons_iff in Hclean as [[Hc Hd] Hclean].
  apply Forall_cons_iff in Hspans as [Hm Hspans].
  constructor; [|now apply IH].
  split; [exact Hc|]. split; [exact Hd|]. now apply span_not_empty.
Qed.

End CleanFacts.

(** ** The file picker *)

Section PickerFacts.

Variable isWindowsOS : bool.

Lemma split_length (c : ascii) (s : string) :
  length (Str.split c s) = S (count_char c s).
Proof.
  induction s as [|d s IH]; [reflexivity|]. cbn [Str.split count_char].
  destruct (Ascii.eqb d c); [simpl; now rewrite IH|].
  destruct (Str.split c s); simpl in *; lia.
Qed.

Lemma split_whole (c : ascii) (s : string) :
  count_char c s = 0 -> Str.split c s = [s].
Proof.
  induction s as [|d s IH]; intros H; [reflexivity|]. cbn [Str.split count_char] in *.
  destruct (Ascii.eqb d c); [simpl in H; lia|]. now rewrite IH by exact H.
Qed.

(** The last piece of a text: the text after its last separator. *)
Lemma last_piece (c d : ascii) (s : string) :
  last (Str.split c (String d s)) ""
  = if Nat.eqb (count_char c s) 0
    then (if Ascii.eqb d c then s else String d s)
    else last (Str.split c s) "".
Proof.
  pose proof (split_length c s) as Hlen. cbn [Str.split].
  destruct (Nat.eqb_spec (count_char c s) 0) as [H0|Hn].
  - rewrite split_whole by exact H0. now destruct (Ascii.eqb d c).
  - destruct (Str.split c s) as [|piece [|piece' pieces]]; simpl in Hlen; try lia.
    now destruct (Ascii.eqb d c).
Qed.

Lemma last_piece_spec (c : ascii) (s : string) :
  exists dir,
    s = (dir ++ last (Str.split c s) "")%string
    /\ count_char c (last (Str.split c s) "") = 0
    /\ (dir = "" \/ exists d, dir = (d ++ String c "")%string).
Proof.
  induction s as [|d s (dir & Es & Hc & Hd)].
  - exists "". now repeat split; try left.
  - rewrite last_piece. destruct (Nat.eqb_spec (count_char c s) 0) as [H0|Hn].
    + destruct (Ascii.eqb_spec d c) as [->|Hdc].
      * exists (String c ""). split; [reflexivity|]. split; [exact H0|].
        right. now exists "".
      * exists "". split; [reflexivity|]. split; [|now left].
        cbn [count_char]. apply Ascii.eqb_neq in Hdc. now rewrite Hdc.
    + exists (String d dir). split; [simpl; now rewrite <- Es|]. split; [exact Hc|].
      right. destruct Hd as [->|(d0 & ->)].
      * simpl in Es. rewrite <- Es in Hc. contradiction.
      * now exists (String d d0).
Qed.

Lemma last_piece_joined (c : ascii) (name : string) :
  count_char c name = 0 ->
  forall dir, last (Str.split c (dir ++ String c name)) "" = name.
Proof.
  intros Hname. induction dir as [|d dir IH].
  - cbn [append]. rewrite last_piece, Hname, Ascii.eqb_refl. reflexivity.
  - cbn [append]. rewrite last_piece, count_char_append. cbn [count_char].
    rewrite Ascii.eqb_refl.
    replace (Nat.eqb (count_char c dir + (1 + count_char c name)) 0) with false
      by (symmetry; apply Nat.eqb_neq; lia).
    exact IH.
Qed.

(** X17. The file name shown is the part of the value after its last
    separator: the value is a directory part, empty or ending in the
    separator, followed by the file name, which holds no separator. *)
Theorem filename_is_last_component (value : option string) :
  exists dir,
    match value with Some v => v | None => "" end
    = (dir ++ RawFilePickerEditor.filename isWindowsOS value)%string
    /\ count_char (RawFilePickerEditor.separator isWindowsOS)
                  (RawFilePickerEditor.filename isWindowsOS value) = 0
    /\ (dir = ""
        \/ exists d, dir = (d ++ String (RawFilePickerEditor.separator isWindowsOS) "")%string).
Proof.
  destruct value as [[|c v]|]; cbn [RawFilePickerEditor.filename Str.is_empty];
    [exists ""; repeat split; now left|apply last_piece_spec
    |exists ""; repeat split; now left].
Qed.

(** X18. Joining a directory and a name with the separator and reading
    the file name back gives the name, when the name holds no separator; a
    value without separator is its own file name. *)
Theorem filename_of_joined_path (name : string) :
  count_char (RawFilePickerEditor.separator isWindowsOS) name = 0 ->
  RawFilePickerEditor.filename isWindowsOS (Some name) = name
  /\ forall dir,
      RawFilePickerEditor.filename isWindowsOS
        (Some (dir ++ String (RawFilePickerEditor.separator isWindowsOS) name)%string)
      = name.
Proof.
  intros Hname. split.
  - destruct name as [|c name]; [reflexivity|].
    cbn [RawFilePickerEditor.filename Str.is_empty].
    now rewrite split_whole by exact Hname.
  - intros dir. unfold RawFilePickerEditor.filename.
    rewrite last_piece_joined by exact Hname.
    now destruct dir.
Qed.

Lemma is_empty_spec (s : string) : Str.is_empty s = true <-> s = "".
Proof. destruct s; simpl; split; congruence. Qed.

(** X19. The picker offers to select a file exactly when the value is
    absent, empty or ends in the separator; otherwise it shows the clear
    button and the file name. The title is a dash, a blank and the file
    name. *)
Theorem picker_offers_selection (value : option string) :
  (RawFilePickerEditor.children (RawFilePickerEditor.render isWindowsOS value)
   = RawFilePickerEditor.SelectFile
   <-> (value = None \/ value = Some ""
        \/ exists dir,
            value = Some (dir ++ String (RawFilePickerEditor.separator isWindowsOS) "")%string))
  /\ (RawFilePickerEditor.children (RawFilePickerEditor.render isWindowsOS value)
      = RawFilePickerEditor.SelectFile
      \/ RawFilePickerEditor.children (RawFilePickerEditor.render isWindowsOS value)
         = RawFilePickerEditor.ClearAndName (RawFilePickerEditor.filename isWindowsOS value))
  /\ RawFilePickerEditor.tooltip (RawFilePickerEditor.render isWindowsOS value)
     = ("- " ++ RawFilePickerEditor.filename isWindowsOS value)%string.
Proof.
  split; [|split; [|reflexivity]].
  - cbn [RawFilePickerEditor.render RawFilePickerEditor.children].
    destruct (Str.is_empty (RawFilePickerEditor.filename isWindowsOS value)) eqn:He.
    + split; [intros _|reflexivity]. apply is_empty_spec in He.
      destruct value as [[|c v]|]; [now right; left| |now left].
      cbn [RawFilePickerEditor.filename Str.is_empty] in He.
      destruct (last_piece_spec (RawFilePickerEditor.separator isWindowsOS) (String c v))
        as (dir & Ev & _ & Hdir).
      rewrite He, append_nil_r in Ev. rewrite Ev.
      destruct Hdir as [->|(d & ->)]; [discriminate Ev|right; right; now exists d].
    + split; [discriminate|]. intros H. exfalso.
      assert (RawFilePickerEditor.filename isWindowsOS value = "") as E.
      { destruct H as [->|[->|(dir & ->)]]; try reflexivity.
        unfold RawFilePickerEditor.filename.
        rewrite last_piece_joined by reflexivity. now destruct dir. }
      rewrite E in He. discriminate.
  - cbn [RawFilePickerEditor.render RawFilePickerEditor.children].
    destruct (Str.is_empty _); [now left|now right].
Qed.

End PickerFacts.

(** ** The import pipeline *)

Section PipelineFacts.

Import Insomnia.

Variable JSON_parse : string -> option json.
Variable JSON_stringify : json -> string.
Variable jsyaml_load : string -> option json.
Variable as_export : json -> Document.t.
Variables Transformed Hydrated Validated : Type.
Variable transformItemsInCollection : Bruno.Collection.t -> promise Transformed.
Variable hydrateSeqInCollection : Transformed -> promise Hydrated.
Variable validateSchema : Hydrated -> promise Validated.

(** The promise of a conversion is fulfilled or rejected with one of the
    two messages. *)
Lemma conversion_promise (stack : nat) (data : Document.t) (w : world) :
  (exists collection,
      promise_of (settled (parseInsomniaCollection JSON_parse JSON_stringify stack data w))
      = Fulfilled collection)
  \/ (exists message,
         promise_of (settled (parseInsomniaCollection JSON_parse JSON_stringify stack data w))
         = RejectedWith (BrunoError message)).
Proof.
  destruct (conversion_settled JSON_parse JSON_stringify stack data w)
    as [(message & ->)|(collection & ->)]; [right|left]; eexists; reflexivity.
Qed.

(** X20. When the dialog has delivered a file and no stage of [./common]
    leaves its promise pending, the import settles: it is fulfilled, or
    rejected with an error whose message starts with the words
    [Import collection failed: ]. *)
Theorem import_settles (stack : nat) (event : fileReader_event) (w : world) :
  (forall collection, transformItemsInCollection collection <> Pending) ->
  (forall collection, hydrateSeqInCollection collection <> Pending) ->
  (forall collection, validateSchema collection <> Pending) ->
  (exists collection,
      importCollection JSON_parse JSON_stringify jsyaml_load as_export
        transformItemsInCollection hydrateSeqInCollection validateSchema
        stack (Fulfilled event) w
      = Fulfilled collection)
  \/ (exists message,
         importCollection JSON_parse JSON_stringify jsyaml_load as_export
           transformItemsInCollection hydrateSeqInCollection validateSchema
           stack (Fulfilled event) w
         = RejectedWith (BrunoError ("Import collection failed: " ++ message))).
Proof.
  intros Ht Hh Hv. unfold importCollection. cbn [and_then].
  destruct (readFile JSON_parse jsyaml_load event) as [parsedData|err|] eqn:Hread.
  2:{ right. eexists. reflexivity. }
  2:{ exfalso. unfold readFile in Hread.
      destruct event as [result|err]; [|discriminate].
      destruct (JSON_parse result); [discriminate|].
      destruct (jsyaml_load result); discriminate. }
  cbn [and_then].
  destruct (conversion_promise stack (as_export parsedData) w)
    as [(collection & ->)|(message & ->)]; [|right; eexists; reflexivity].
  cbn [and_then].
  destruct (transformItemsInCollection collection) as [c1|err|] eqn:E1;
    [|right; eexists; reflexivity|now elim (Ht collection)].
  cbn [and_then].
  destruct (hydrateSeqInCollection c1) as [c2|err|] eqn:E2;
    [|right; eexists; reflexivity|now elim (Hh c1)].
  cbn [and_then].
  destruct (validateSchema c2) as [c3|err|] eqn:E3;
    [left; now exists c3|right; eexists; reflexivity|now elim (Hv c2)].
Qed.

(** X21. The messages of a failed import, whatever the stages of
    [./common] would do: a file that is neither JSON nor YAML fails with
    the words [Import collection failed] twice, a reader error without
    message with [undefined] for its message, and a document whose
    [resources] are absent, or a list of resource objects without
    workspace, with the message that the collection was not found. *)
Theorem import_failure_messages (stack : nat) (w : world) :
  (forall text,
      JSON_parse text = None -> jsyaml_load text = None ->
      importCollection JSON_parse JSON_stringify jsyaml_load as_export
        transformItemsInCollection hydrateSeqInCollection validateSchema
        stack (Fulfilled (Onload text)) w
      = RejectedWith (BrunoError "Import collection failed: Import collection failed"))
  /\ (forall err,
         Err.message err = None ->
         importCollection JSON_parse JSON_stringify jsyaml_load as_export
           transformItemsInCollection hydrateSeqInCollection validateSchema
           stack (Fulfilled (Onerror err)) w
         = RejectedWith (BrunoError "Import collection failed: undefined"))
  /\ (forall event parsedData,
         readFile JSON_parse jsyaml_load event = Fulfilled parsedData ->
         (Document.resources (as_export parsedData) = Document.Missing
          \/ exists resources,
              Document.resources (as_export parsedData)
              = Document.Array (List.map Some resources)
              /\ Forall (fun resource => Resource._type resource <> "workspace")
                        resources) ->
         importCollection JSON_parse JSON_stringify jsyaml_load as_export
           transformItemsInCollection hydrateSeqInCollection validateSchema
           stack (Fulfilled event) w
         = RejectedWith
             (BrunoError
                "Import collection failed: Collection not found inside Insomnia export")).
Proof.
  split; [|split].
  - intros text Hjson Hyaml. unfold importCollection, readFile. cbn [and_then].
    rewrite Hjson, Hyaml. reflexivity.
  - intros err Hmessage. unfold importCollection, readFile, failure_message.
    cbn [and_then]. now rewrite Hmessage.
  - intros event parsedData Hread Hnone. unfold importCollection. cbn [and_then].
    rewrite Hread. cbn [and_then].
    rewrite (proj1 (@conversion_without_workspace JSON_parse JSON_stringify stack
                      (as_export parsedData) w Hnone)).
    reflexivity.
Qed.

End PipelineFacts.

(** * The properties on the sample documents *)

Section Samples.

Import Insomnia.

Lemma addSuffixToDuplicateName_spec_witness :
  displayNames Sample.namesakes = ["A"; "B"; "A_1"; "A_2"]
  /\ displayNames Sample.strangers = ["List"; "Get"].
Proof.
  split.
  - apply (proj1 (proj2 addSuffixToDuplicateName_spec)). reflexivity.
  - apply (proj2 (proj2 addSuffixToDuplicateName_spec) Sample.strangers).
    simpl. repeat constructor; simpl; intuition discriminate.
Defined.

Lemma auth_mapping_total_witness :
  transformInsomniaRequestItem_auth Sample.bearer_json
  = Bruno.Auth.make "bearer" None (Some (Bruno.Bearer.make "{{api_token}}")) None
  /\ exists item w',
      transformInsomniaRequestItem Sample.JSON_parse Sample.JSON_stringify
        Sample.bearer_json 0 [Sample.bearer_json] boot
      = (Normal item, w').
Proof.
  destruct (auth_mapping_total Sample.JSON_parse Sample.JSON_stringify
              Sample.bearer_json 0 [Sample.bearer_json] boot)
    as (_ & Hbearer & _ & _ & Hreturns).
  split.
  - rewrite (Hbearer _ eq_refl eq_refl). vm_compute. reflexivity.
  - apply Hreturns. intros (b & Hb & Hm). injection Hb as <-. discriminate Hm.
Defined.

Lemma body_mapping_total_witness :
  (exists uid name request' w',
      transformInsomniaRequestItem Sample.JSON_parse Sample.JSON_stringify
        Sample.bearer_json 0 [Sample.bearer_json] boot
      = (Normal (Bruno.Leaf uid name "http-request" request'), w')
      /\ Bruno.Request.body request'
         = Bruno.Body.make "json" (Some "[{{user_ids_0}}]") None None [] [] None)
  /\ (exists uid name request' w',
         transformInsomniaRequestItem Sample.JSON_parse Sample.JSON_stringify
           Sample.broken_graphql 0 [Sample.broken_graphql] boot
         = (Normal (Bruno.Leaf uid name "graphql-request" request'), w')
         /\ Bruno.Request.body request'
            = Bruno.Body.make "graphql" None None None [] []
                (Some (Bruno.GraphQL.make (Some (JStr "")) (Some ""))))
  /\ (exists uid name request' w',
         transformInsomniaRequestItem Sample.JSON_parse Sample.JSON_stringify
           Sample.bodiless 0 [Sample.bodiless] boot
         = (Normal (Bruno.Leaf uid name "http-request" request'), w')
         /\ Bruno.Request.body request'
            = Bruno.Body.make "none" None None None [] [] None).
Proof.
  split; [|split].
  - destruct (proj1 (body_mapping_total Sample.JSON_parse Sample.JSON_stringify
                       Sample.bearer_json 0 [Sample.bearer_json] boot)
                _ _ eq_refl eq_refl)
      as (uid & name & type & request' & w' & E & Htable).
    destruct (Htable "application/json") as (Hjson & _).
    { split; [reflexivity|]. right. now exists " charset=utf-8". }
    destruct (Hjson eq_refl) as [-> Hbody].
    exists uid, name, request', w'. split; [exact E|].
    rewrite Hbody. vm_compute. reflexivity.
  - destruct (proj1 (body_mapping_total Sample.JSON_parse Sample.JSON_stringify
                       Sample.broken_graphql 0 [Sample.broken_graphql] boot)
                _ _ eq_refl eq_refl)
      as (uid & name & type & request' & w' & E & Htable).
    destruct (Htable "application/graphql")
      as (_ & _ & _ & _ & _ & _ & Hgql & _).
    { split; [reflexivity|]. now left. }
    destruct (Hgql eq_refl) as (-> & graphql & Hbody & Hfail & _).
    exists uid, name, request', w'. split; [exact E|].
    rewrite Hbody, Hfail; reflexivity.
  - destruct (proj2 (body_mapping_total Sample.JSON_parse Sample.JSON_stringify
                       Sample.bodiless 0 [Sample.bodiless] boot))
      as (uid & name & request' & w' & E & Hbody).
    { now left. }
    exists uid, name, request', w'. split; [exact E|exact Hbody].
Defined.

(** C5 as stated fails: on a body whose MIME type is [null] the
    transformer throws, and the import of the document is rejected. *)
Lemma null_mimeType_fails_the_import :
  (exists b, Resource.body Sample.null_mime = Some b /\ Body.mimeType b = Js.Null)
  /\ transformInsomniaRequestItem Sample.JSON_parse Sample.JSON_stringify
       Sample.null_mime 0 [Sample.null_mime] boot
     = (Throw (TypeError "Cannot read properties of null (reading 'split')"),
        World 1 None [])
  /\ settled (parseInsomniaCollection Sample.JSON_parse Sample.JSON_stringify 3
                Sample.null_mime_export boot)
     = Some (Rejected "An error occurred while parsing the Insomnia collection").
Proof.
  split; [eexists; split; reflexivity|]. split; reflexivity.
Qed.


Lemma folders_precede_requests_witness :
  exists root w',
    createFolderStructure Sample.JSON_parse Sample.JSON_stringify 3
      Sample.leaves_first (Some "wrk_1") boot = (Normal root, w')
    /\ List.map Bruno.Item.type root = ["folder"; "http-request"]
    /\ Forall folders_before_requests (all_levels root).
Proof.
  do 2 eexists. split; [lazy; reflexivity|]. split; [reflexivity|].
  apply Forall_forall. intros level Hin.
  eapply (folders_precede_requests Sample.JSON_parse Sample.JSON_stringify
            3 Sample.leaves_first (Some "wrk_1") boot); [lazy; reflexivity|exact Hin].
Defined.

Lemma missing_workspace_rejects_witness :
  settled (parseInsomniaCollection Sample.JSON_parse Sample.JSON_stringify 3
             Sample.no_workspace boot)
  = Some (Rejected "Collection not found inside Insomnia export")
  /\ entered (parseInsomniaCollection Sample.JSON_parse Sample.JSON_stringify 3
                Sample.no_workspace boot) = [].
Proof.
  apply (missing_workspace_rejects Sample.JSON_parse Sample.JSON_stringify 3
           Sample.no_workspace boot).
  right. eexists. split; [reflexivity|]. repeat constructor; discriminate.
Defined.

(** C9 as stated fails: a resource list without workspace that holds a
    [null], and a [resources] property that is [null], are rejected with
    the message of a parsing error. *)
Lemma null_resource_rejected_as_parsing_error :
  Document.resources Sample.null_entry
  = Document.Array [ Some (Sample.bare "request_group" "fld_1" (Some "wrk_1") "Auth");
                     None ]
  /\ settled (parseInsomniaCollection Sample.JSON_parse Sample.JSON_stringify 3
                Sample.null_entry boot)
     = Some (Rejected "An error occurred while parsing the Insomnia collection")
  /\ settled (parseInsomniaCollection Sample.JSON_parse Sample.JSON_stringify 3
                Sample.null_resources boot)
     = Some (Rejected "An error occurred while parsing the Insomnia collection").
Proof.
  split; [reflexivity|]. split; reflexivity.
Qed.

Lemma null_environment_value_rejects_witness :
  (forall v, exists v',
      environment_variables Sample.null_sub v
      = (Throw (TypeError "Cannot read properties of null (reading 'toString')"), v'))
  /\ settled (parseInsomniaCollection Sample.JSON_parse Sample.JSON_stringify 3
                Sample.null_below boot)
     = Some (Rejected "An error occurred while parsing the Insomnia collection").
Proof.
  eapply (null_environment_value_rejects Sample.JSON_parse Sample.JSON_stringify 3
            Sample.null_below boot).
  - reflexivity.
  - reflexivity.
  - apply env_descendant with (parent := Sample.plain_base);
      [simpl; tauto|reflexivity|].
    apply env_child; [simpl; tauto|reflexivity].
  - apply Exists_cons_hd. reflexivity.
Defined.

(** C10 as stated fails: an environment with a [null] that is not below
    the workspace is never flattened, and the conversion resolves. *)
Lemma null_value_of_orphan_environment_ignored :
  Document.resources Sample.null_elsewhere
  = Document.Array [ Some (Sample.bare "workspace" "wrk_1" None "My API");
                     Some Sample.orphan ]
  /\ Resource._type Sample.orphan = "environment"
  /\ has_null_value Sample.orphan
  /\ settled (parseInsomniaCollection Sample.JSON_parse Sample.JSON_stringify 3
                Sample.null_elsewhere boot)
     = Some (Resolved (Bruno.Collection.make "My API" 0 "1" [] [])).
Proof.
  split; [reflexivity|]. split; [reflexivity|]. split; [|reflexivity].
  apply Exists_cons_hd. reflexivity.
Qed.

Lemma normalizeVariables_plain_spans_witness :
  normalizeVariables (Some "{{ _.host }}/users/{{ user.ids[0] }}?q=a.b")
  = rewrite_spans "{{ _.host }}/users/{{ user.ids[0] }}?q=a.b"
  /\ rewrite_spans "{{ _.host }}/users/{{ user.ids[0] }}?q=a.b"
     = "{{host}}/users/{{user_ids_0}}?q=a.b".
Proof.
  split; [|vm_compute; reflexivity].
  apply normalizeVariables_plain_spans.
  assert (H : Regex.match_regexVariable "{{ _.host }}/users/{{ user.ids[0] }}?q=a.b"
              = ["{{ _.host }}"; "{{ user.ids[0] }}"]) by (vm_compute; reflexivity).
  rewrite H. repeat (constructor; [split; vm_compute; reflexivity|]). constructor.
Defined.

Lemma normalizeVariables_idempotent_on_plain_spans_witness :
  normalizeVariables
    (Some (normalizeVariables (Some "{{ _.host }}/users/{{ user.ids[0] }}?q=a.b")))
  = normalizeVariables (Some "{{ _.host }}/users/{{ user.ids[0] }}?q=a.b").
Proof.
  apply normalizeVariables_idempotent_on_plain_spans.
  assert (H : Regex.match_regexVariable "{{ _.host }}/users/{{ user.ids[0] }}?q=a.b"
              = ["{{ _.host }}"; "{{ user.ids[0] }}"]) by (vm_compute; reflexivity).
  rewrite H. repeat (constructor; [split; vm_compute; reflexivity|]). constructor.
Defined.

Lemma createFolderStructure_returns_witness :
  exists root w',
    createFolderStructure Sample.JSON_parse Sample.JSON_stringify 3
      Sample.leaves_first (Some "wrk_1") boot = (Normal root, w').
Proof.
  apply createFolderStructure_returns
    with (rank := fun id => if String.eqb id "wrk_1" then 2
                            else if String.eqb id "fld_a" then 1 else 0).
  - intros resource parent Hin Hkind Hparent. simpl in Hin.
    decompose [or] Hin; subst; try contradiction; try discriminate Hkind;
      injection Hparent as <-; simpl; lia.
  - intros request Hin Hkind (b & Hb & _). simpl in Hin.
    decompose [or] Hin; subst; try contradiction; discriminate Hb.
  - simpl. lia.
Defined.

Lemma displayNames_distinct_witness :
  NoDup (displayNames Sample.namesakes)
  /\ displayNames Sample.namesakes = ["A"; "B"; "A_1"; "A_2"].
Proof.
  split; [|reflexivity]. apply displayNames_distinct.
  intros x y n Hx Hy. simpl in Hx, Hy.
  decompose [or] Hx; decompose [or] Hy; subst; try contradiction; simpl; discriminate.
Defined.

Lemma folder_requests_listed_twice_witness :
  exists root w',
    createFolderStructure Sample.JSON_parse Sample.JSON_stringify 3
      Sample.leaves_first (Some "wrk_1") boot = (Normal root, w')
    /\ List.map (List.map Bruno.Item.name) (all_levels root)
       = [["A"; "Ping"]; ["B"; "Shallow"; "Shallow"]; ["Deep"; "Deep"]]
    /\ Forall (requests_twice Sample.leaves_first) (flat_map levels root).
Proof.
  do 2 eexists. split; [lazy; reflexivity|]. split; [reflexivity|].
  apply Forall_forall. intros items Hin.
  eapply (folder_requests_listed_twice Sample.JSON_parse Sample.JSON_stringify
            3 Sample.leaves_first (Some "wrk_1") boot); [lazy; reflexivity|exact Hin].
Defined.

Lemma tree_level_names_witness :
  exists root w' folders leaves,
    createFolderStructure Sample.JSON_parse Sample.JSON_stringify 3
      Sample.leaves_first (Some "wrk_1") boot = (Normal root, w')
    /\ root = folders ++ leaves
    /\ Forall (fun i => Bruno.Item.is_folder i = true) folders
    /\ Forall (fun i => Bruno.Item.is_folder i = false) leaves
    /\ List.map Bruno.Item.name folders = ["A"]
    /\ List.map Bruno.Item.name leaves = ["Ping"].
Proof.
  destruct (createFolderStructure Sample.JSON_parse Sample.JSON_stringify 3
              Sample.leaves_first (Some "wrk_1") boot) as [[root|e] w'] eqn:E;
    [|vm_compute in E; discriminate E].
  destruct (tree_level_names Sample.JSON_parse Sample.JSON_stringify
              3 Sample.leaves_first (Some "wrk_1") boot E)
    as (folders & leaves & H1 & H2 & H3 & H4 & H5).
  exists root, w', folders, leaves. repeat split; assumption.
Defined.



Lemma childless_workspace_resolves_empty_witness :
  settled (parseInsomniaCollection Sample.JSON_parse Sample.JSON_stringify 1
             Sample.null_elsewhere boot)
  = Some (Resolved (Bruno.Collection.make "My API" 0 "1" [] [])).
Proof.
  apply (@childless_workspace_resolves_empty Sample.JSON_parse Sample.JSON_stringify 0
           [Sample.bare "workspace" "wrk_1" None "My API"; Sample.orphan] boot
           (Sample.bare "workspace" "wrk_1" None "My API")).
  - reflexivity.
  - repeat constructor.
Defined.

Lemma normalizeVariables_without_braces_witness :
  normalizeVariables (Some "https://example.com/v1/users?ids[0]=a.b c")
  = "https://example.com/v1/users?ids[0]=a.b c".
Proof.
  apply normalizeVariables_without_braces. left. vm_compute. reflexivity.
Defined.

Lemma normalizeVariables_never_lengthens_witness :
  String.length (normalizeVariables (Some "{{ _.host }}/users/{{ user.ids[0] }}?q=a.b"))
  <= String.length "{{ _.host }}/users/{{ user.ids[0] }}?q=a.b".
Proof.
  apply normalizeVariables_never_lengthens.
  assert (H : Regex.match_regexVariable "{{ _.host }}/users/{{ user.ids[0] }}?q=a.b"
              = ["{{ _.host }}"; "{{ user.ids[0] }}"]) by (vm_compute; reflexivity).
  rewrite H. repeat (constructor; [split; vm_compute; reflexivity|]). constructor.
Defined.

Lemma filename_of_joined_path_witness :
  RawFilePickerEditor.filename false (Some "/home/me/api/auth/login.bru") = "login.bru"
  /\ RawFilePickerEditor.filename true (Some "C:\api\auth\login.bru") = "login.bru"
  /\ RawFilePickerEditor.filename true (Some "login.bru") = "login.bru".
Proof.
  split; [|split].
  - apply (proj2 (@filename_of_joined_path false "login.bru" eq_refl) "/home/me/api/auth").
  - apply (proj2 (@filename_of_joined_path true "login.bru" eq_refl) "C:\api\auth").
  - apply (proj1 (@filename_of_joined_path true "login.bru" eq_refl)).
Defined.

Lemma import_settles_witness :
  (exists collection,
      importCollection Sample.JSON_parse Sample.JSON_stringify Sample.jsyaml_load
        Sample.as_export Sample.pass Sample.pass Sample.pass 3
        (Fulfilled (Onload "{}")) boot
      = Fulfilled collection)
  \/ (exists message,
         importCollection Sample.JSON_parse Sample.JSON_stringify Sample.jsyaml_load
           Sample.as_export Sample.pass Sample.pass Sample.pass 3
           (Fulfilled (Onload "{}")) boot
         = RejectedWith (BrunoError ("Import collection failed: " ++ message))).
Proof.
  apply import_settles; discriminate.
Defined.

Lemma import_failure_messages_witness :
  importCollection Sample.JSON_parse Sample.JSON_stringify Sample.jsyaml_load
    Sample.as_export Sample.pass Sample.pass Sample.pass 3
    (Fulfilled (Onload "[1, 2")) boot
  = RejectedWith (BrunoError "Import collection failed: Import collection failed")
  /\ importCollection Sample.JSON_parse Sample.JSON_stringify Sample.jsyaml_load
       Sample.as_export Sample.pass Sample.pass Sample.pass 3
       (Fulfilled (Onerror (Err.make None))) boot
     = RejectedWith (BrunoError "Import collection failed: undefined")
  /\ importCollection Sample.JSON_parse Sample.JSON_stringify Sample.jsyaml_load
       Sample.as_export Sample.pass Sample.pass Sample.pass 3
       (Fulfilled (Onload "{}")) boot
     = RejectedWith
         (BrunoError "Import collection failed: Collection not found inside Insomnia export").
Proof.
  destruct (@import_failure_messages Sample.JSON_parse Sample.JSON_stringify
              Sample.jsyaml_load Sample.as_export _ _ _
              Sample.pass Sample.pass Sample.pass 3 boot) as (H1 & H2 & H3).
  split; [|split].
  - apply H1; reflexivity.
  - apply H2; reflexivity.
  - apply (H3 (Onload "{}") (JObj [])); [reflexivity|now left].
Defined.

Lemma converted_environments_are_those_below_witness :
  exists out w' sources,
    createEnvironments 3 Sample.environments (Some "wrk_1") boot = (Normal out, w')
    /\ List.map Bruno.Environment.name out = ["Base"; "Staging"; "Other"]
    /\ Forall2 made_for sources out
    /\ forall environment,
        In environment sources
        <-> env_below Sample.environments (Some "wrk_1") environment.
Proof.
  destruct (createEnvironments 3 Sample.environments (Some "wrk_1") boot)
    as [[out|e] w'] eqn:E; [|vm_compute in E; discriminate E].
  destruct (converted_environments_are_those_below _ _ _ _ E) as (sources & Hr & Hs).
  exists out, w', sources. split; [reflexivity|]. split; [|now split].
  vm_compute in E. injection E as <- _. reflexivity.
Defined.

Lemma normalizeVariables_fixes_clean_spans_witness :
  normalizeVariables (Some "{{base_url}}/users/{{user_id}}?q=a.b c")
  = "{{base_url}}/users/{{user_id}}?q=a.b c".
Proof.
  apply normalizeVariables_fixes_clean_spans.
  assert (H : Regex.match_regexVariable "{{base_url}}/users/{{user_id}}?q=a.b c"
              = ["{{base_url}}"; "{{user_id}}"]) by (vm_compute; reflexivity).
  rewrite H. repeat (constructor; [split; vm_compute; reflexivity|]). constructor.
Defined.


End Samples.
